(** * libgdf Parquet reader: hybrid RLE decoder, null bitmaps, column reader

    A shallow embedding of the page-decoding core of libgdf's Parquet reader
    (rle_decoder.h, cu_decoder.cuh, column_reader.cu / column_reader.cpp and
    the read_parquet entry point) together with the properties stated about
    it in the specification.

    Conventions.
    - C++ integers are [Z]; an unsigned w-bit store is written [uintN],
      a conversion to a signed w-bit type [intN].  Signed arithmetic is kept
      exact (overflow is undefined in C++), unsigned arithmetic wraps.
    - Caller-owned arrays are lists updated in place by index.
    - [DCHECK]s are debug-only assertions and are not part of the behaviour.
    - A thrown [::parquet::ParquetException] is a value of type [exn]. *)

From stdpp Require Import base numbers list option gmap strings.

Local Open Scope Z_scope.

(** ** Fixed-width integers *)

Module Ints.

(** Value kept by an unsigned [w]-bit object after storing [x]. *)
Definition wrap_unsigned (w x : Z) : Z := x mod 2 ^ w.

(** Value of a signed [w]-bit object holding the low [w] bits of [x]. *)
Definition wrap_signed (w x : Z) : Z :=
  (x + 2 ^ (w - 1)) mod 2 ^ w - 2 ^ (w - 1).

Definition uint32 : Z -> Z := wrap_unsigned 32.
Definition uint64 : Z -> Z := wrap_unsigned 64.
Definition int32 : Z -> Z := wrap_signed 32.

(** [::arrow::BitUtil::Ceil(value, divisor)]. *)
Definition Ceil (value divisor : Z) : Z :=
  value / divisor + (if value mod divisor =? 0 then 0 else 1).

End Ints.

(** ** Arrays written in place *)

Module Mem.

(** [store buf off xs]: [buf[off + k] = xs[k]] for every [k].  A slot
    outside the list does not exist in the model and is not written. *)
Fixpoint store (buf : list Z) (off : nat) (xs : list Z) : list Z :=
  match xs with
  | [] => buf
  | x :: xs' => store (<[off := x]> buf) (S off) xs'
  end.

(** Pointer arithmetic [buf + off] followed by a block write. *)
Definition write_at (buf : list Z) (off : Z) (xs : list Z) : list Z :=
  if off <? 0 then buf else store buf (Z.to_nat off) xs.

(** [std::fill(buf + off, buf + off + n, v)]; an empty range writes
    nothing, and so does the model on a negative one. *)
Definition fill (buf : list Z) (off n v : Z) : list Z :=
  write_at buf off (replicate (Z.to_nat n) v).

End Mem.

(** ** The bit reader used by the RLE decoder

  [bit-stream.h] is not among the sources at hand: the decoder is modelled
  over any implementation of the four operations it calls. *)

Module BitReader.

Class Ops (R : Type) := {
  (** [BitReader(buffer, buffer_len)] *)
  new : list Z -> Z -> R;
  (** [Reset(buffer, buffer_len)] on an existing reader *)
  Reset : list Z -> Z -> R -> R;
  (** [GetVlqInt(&v)]: [Some v] when it returns true *)
  GetVlqInt : R -> option Z * R;
  (** [GetAligned<T>(num_bytes, &v)]: [Some] of the bytes copied, as a
      little-endian number, when it returns true *)
  GetAligned : Z -> R -> option Z * R;
  (** [GetBatch<T>(num_bits, v, batch_size)]: the values written to [v];
      their number is the value returned *)
  GetBatch : Z -> Z -> R -> list Z * R;
}.

End BitReader.

(** ** rle_decoder.h *)

Module RleDecoder.
Section Decoder.

Context {R : Type} {ops : BitReader.Ops R}.

(** [static_cast<T>] of a [uint64_t], for the output type [T] of the
    template instance. *)
Variable castT : Z -> Z.

Record t := mk {
  bit_reader_ : R;
  bit_width_ : Z;
  current_value_ : Z;
  repeat_count_ : Z;
  literal_count_ : Z;
}.

(** [RleDecoder(buffer, buffer_len, bit_width)] *)
Definition new (buffer : list Z) (buffer_len bit_width : Z) : t :=
  {| bit_reader_ := BitReader.new buffer buffer_len;
     bit_width_ := bit_width;
     current_value_ := 0;
     repeat_count_ := 0;
     literal_count_ := 0 |}.

(** [RleDecoder()]: the initialiser list names [bit_width_] alone.  The
    counters and [current_value_] hold what the storage of the object,
    [storage], held; the bit reader is default-constructed, and its state
    is taken from [storage] too. *)
Definition new_default (storage : t) : t :=
  {| bit_reader_ := bit_reader_ storage;
     bit_width_ := -1;
     current_value_ := current_value_ storage;
     repeat_count_ := repeat_count_ storage;
     literal_count_ := literal_count_ storage |}.

Definition Reset (buffer : list Z) (buffer_len bit_width : Z) (d : t) : t :=
  {| bit_reader_ := BitReader.Reset buffer buffer_len (bit_reader_ d);
     bit_width_ := bit_width;
     current_value_ := 0;
     repeat_count_ := 0;
     literal_count_ := 0 |}.

(** [memcpy] of [num_bytes] bytes onto the low bytes of a [uint64_t]
    (little-endian host): the other bytes keep their value. *)
Definition memcpy_low (num_bytes v old : Z) : Z :=
  Z.lor (Z.ldiff old (Z.ones (8 * num_bytes)))
        (Z.land v (Z.ones (8 * num_bytes))).

Definition NextCounts (d : t) : bool * t :=
  match BitReader.GetVlqInt (bit_reader_ d) with
  | (None, r) =>
      (false, {| bit_reader_ := r; bit_width_ := bit_width_ d;
                 current_value_ := current_value_ d;
                 repeat_count_ := repeat_count_ d;
                 literal_count_ := literal_count_ d |})
  | (Some indicator_value, r) =>
      let is_literal := Z.testbit indicator_value 0 in
      if is_literal then
        (true, {| bit_reader_ := r; bit_width_ := bit_width_ d;
                  current_value_ := current_value_ d;
                  repeat_count_ := repeat_count_ d;
                  literal_count_ :=
                    Ints.uint32 (Z.shiftr indicator_value 1 * 8) |})
      else
        let num_bytes := Ints.Ceil (bit_width_ d) 8 in
        let '(result, r') := BitReader.GetAligned num_bytes r in
        (true, {| bit_reader_ := r'; bit_width_ := bit_width_ d;
                  current_value_ :=
                    match result with
                    | Some v => memcpy_low num_bytes v (current_value_ d)
                    | None => current_value_ d
                    end;
                  repeat_count_ := Ints.uint32 (Z.shiftr indicator_value 1);
                  literal_count_ := literal_count_ d |})
  end.

(** The variables of [GetBatch]'s loop: the caller's array, the local
    [values_read], and the decoder. *)
Record loop_state := mkLoop {
  values : list Z;
  values_read : Z;
  dec : t;
}.

(** One pass through the body of [while (values_read < batch_size)]:
    [inl] to go round again, [inr] for [return values_read]. *)
Definition GetBatch_body (batch_size : Z) (s : loop_state)
  : loop_state + loop_state :=
  let d := dec s in
  if 0 <? repeat_count_ d then
    let repeat_batch :=
      Z.min (batch_size - values_read s) (Ints.int32 (repeat_count_ d)) in
    inl {| values := Mem.fill (values s) (values_read s) repeat_batch
                              (castT (current_value_ d));
           values_read := values_read s + repeat_batch;
           dec := {| bit_reader_ := bit_reader_ d;
                     bit_width_ := bit_width_ d;
                     current_value_ := current_value_ d;
                     repeat_count_ :=
                       Ints.uint32 (repeat_count_ d - repeat_batch);
                     literal_count_ := literal_count_ d |} |}
  else if 0 <? literal_count_ d then
    let literal_batch :=
      Z.min (batch_size - values_read s) (Ints.int32 (literal_count_ d)) in
    let '(vs, r) :=
      BitReader.GetBatch (bit_width_ d) literal_batch (bit_reader_ d) in
    inl {| values := Mem.write_at (values s) (values_read s) vs;
           values_read := values_read s + literal_batch;
           dec := {| bit_reader_ := r;
                     bit_width_ := bit_width_ d;
                     current_value_ := current_value_ d;
                     repeat_count_ := repeat_count_ d;
                     literal_count_ :=
                       Ints.uint32 (literal_count_ d - literal_batch) |} |}
  else
    match NextCounts d with
    | (false, d') =>
        inr {| values := values s; values_read := values_read s; dec := d' |}
    | (true, d') =>
        inl {| values := values s; values_read := values_read s; dec := d' |}
    end.

(** The [while] loop, bounded by [fuel] passes; [None] when the bound is
    reached before the loop is left. *)
Fixpoint GetBatch_loop (fuel : nat) (batch_size : Z) (s : loop_state)
  : option loop_state :=
  match fuel with
  | O => None
  | S fuel' =>
      if values_read s <? batch_size then
        match GetBatch_body batch_size s with
        | inl s' => GetBatch_loop fuel' batch_size s'
        | inr s' => Some s'
        end
      else Some s
  end.

(** [GetBatch(values, batch_size)]: the returned count is [values_read]
    of the final state. *)
Definition GetBatch (fuel : nat) (vals : list Z) (batch_size : Z) (d : t)
  : option loop_state :=
  GetBatch_loop fuel batch_size
    {| values := vals; values_read := 0; dec := d |}.

(** The loop state after [k] passes through the body, none of which left
    the loop. *)
Fixpoint GetBatch_passes (k : nat) (batch_size : Z) (s : loop_state)
  : option loop_state :=
  match k with
  | O => Some s
  | S k' =>
      if values_read s <? batch_size then
        match GetBatch_body batch_size s with
        | inl s' => GetBatch_passes k' batch_size s'
        | inr _ => None
        end
      else None
  end.

(** The invariant of the two run counters. *)
Definition counters_ok (d : t) : Prop :=
  ~ (0 < repeat_count_ d /\ 0 < literal_count_ d).

(** [Get(val)]: [GetBatch(val, 1) == 1]. *)
Definition Get (fuel : nat) (val : Z) (d : t) : option (bool * Z * t) :=
  match GetBatch fuel [val] 1 d with
  | Some s => Some (values_read s =? 1, default val (values s !! 0%nat), dec s)
  | None => None
  end.

End Decoder.

Arguments t : clear implicits.
Arguments loop_state : clear implicits.

End RleDecoder.


(** ** A bit reader over a byte buffer *)

Module BitStream.

(** Modelled from the spec: the [BitReader] of [bit-stream.h], which "reads
    variable-length-quantity integers and fixed-bit-width packed integers
    from a byte buffer" and "advances a bit cursor".  The cursor is
    [byte_offset_] and [bit_offset_]; bits are packed least significant
    first. *)
Record t := mk {
  buffer_ : list Z;
  max_bytes_ : Z;
  byte_offset_ : Z;
  bit_offset_ : Z;
}.

(** Modelled from the spec: a reader bound to a byte range starts at its
    first bit. *)
Definition new (buffer : list Z) (buffer_len : Z) : t :=
  {| buffer_ := buffer; max_bytes_ := buffer_len;
     byte_offset_ := 0; bit_offset_ := 0 |}.

(** Modelled from the spec: [Reset] rebinds the reader to a new byte range;
    every field is overwritten. *)
Definition Reset (buffer : list Z) (buffer_len : Z) (r : t) : t :=
  {| buffer_ := buffer; max_bytes_ := buffer_len;
     byte_offset_ := 0; bit_offset_ := 0 |}.

(** The bytes of a list as one little-endian number. *)
Fixpoint le_combine (bs : list Z) : Z :=
  match bs with
  | [] => 0
  | b :: bs' => Z.lor (Z.land b 255) (Z.shiftl (le_combine bs') 8)
  end.

(** Modelled from the spec: skip to the next byte boundary, then copy
    [num_bytes] whole bytes; fails, reading nothing, when fewer remain. *)
Definition GetAligned (num_bytes : Z) (r : t) : option Z * t :=
  let bytes_read := Ints.Ceil (bit_offset_ r) 8 in
  if max_bytes_ r <? byte_offset_ r + bytes_read + num_bytes then (None, r)
  else
    let off := byte_offset_ r + bytes_read in
    (Some (le_combine
             (take (Z.to_nat num_bytes) (drop (Z.to_nat off) (buffer_ r)))),
     {| buffer_ := buffer_ r; max_bytes_ := max_bytes_ r;
        byte_offset_ := off + num_bytes; bit_offset_ := 0 |}).

(** Modelled from the spec: a variable-length quantity, seven payload bits
    per byte, least significant group first, the top bit of a byte telling
    that another byte follows.  The result is an [int32_t]. *)
Fixpoint GetVlqInt_loop (fuel : nat) (v shift : Z) (r : t) : option Z * t :=
  match fuel with
  | O => (None, r)
  | S fuel' =>
      match GetAligned 1 r with
      | (None, r') => (None, r')
      | (Some byte, r') =>
          let v' := Ints.int32 (Z.lor v (Z.shiftl (Z.land byte 127) shift)) in
          if Z.land byte 128 =? 0 then (Some v', r')
          else GetVlqInt_loop fuel' v' (shift + 7) r'
      end
  end.

Definition GetVlqInt (r : t) : option Z * t :=
  GetVlqInt_loop (S (Z.to_nat (max_bytes_ r - byte_offset_ r))) 0 0 r.

(** The [num_bits] bits found [pos] bits into the buffer. *)
Definition bits_at (r : t) (pos num_bits : Z) : Z :=
  Z.land (Z.shiftr (le_combine (buffer_ r)) pos) (Z.ones num_bits).

(** Modelled from the spec: unpack up to [batch_size] values of [num_bits]
    bits each, as many as the remaining bits allow. *)
Definition GetBatch (num_bits batch_size : Z) (r : t) : list Z * t :=
  let needed_bits := Ints.uint64 (num_bits * batch_size) in
  let remaining_bits :=
    Ints.uint64 ((max_bytes_ r - byte_offset_ r) * 8 - bit_offset_ r) in
  let batch :=
    if remaining_bits <? needed_bits then remaining_bits / num_bits
    else batch_size in
  let pos := byte_offset_ r * 8 + bit_offset_ r in
  let pos' := pos + Z.max 0 batch * num_bits in
  (map (fun i => bits_at r (pos + Z.of_nat i * num_bits) num_bits)
       (seq 0 (Z.to_nat batch)),
   {| buffer_ := buffer_ r; max_bytes_ := max_bytes_ r;
      byte_offset_ := pos' / 8; bit_offset_ := pos' mod 8 |}).

#[global] Instance ops : BitReader.Ops t :=
  {| BitReader.new := new;
     BitReader.Reset := Reset;
     BitReader.GetVlqInt := GetVlqInt;
     BitReader.GetAligned := GetAligned;
     BitReader.GetBatch := GetBatch |}.

End BitStream.

(** ** Validity bitmaps *)

Module BitmapWriter.

(** [::arrow::internal::BitmapWriter], by its contract: [Set] and [Clear]
    act on bit [start_offset + position] of the bitmap, [Next] moves to the
    following bit, and after [Finish] the bitmap holds every bit written.
    Bit [i] is bit [i % 8] of byte [i / 8]. *)
Record t := mk {
  bitmap_ : list Z;
  start_offset_ : Z;
  length_ : Z;
  position_ : Z;
}.

Definition new (bitmap : list Z) (start_offset length : Z) : t :=
  {| bitmap_ := bitmap; start_offset_ := start_offset;
     length_ := length; position_ := 0 |}.

Definition or_bit (i : Z) (bits : list Z) : list Z :=
  if i <? 0 then bits
  else alter (fun b => Z.lor b (Z.shiftl 1 (i mod 8))) (Z.to_nat (i / 8)) bits.

Definition and_not_bit (i : Z) (bits : list Z) : list Z :=
  if i <? 0 then bits
  else alter (fun b => Z.land b (Z.lxor (Z.shiftl 1 (i mod 8)) 255))
             (Z.to_nat (i / 8)) bits.

Definition Set_ (w : t) : t :=
  {| bitmap_ := or_bit (start_offset_ w + position_ w) (bitmap_ w);
     start_offset_ := start_offset_ w; length_ := length_ w;
     position_ := position_ w |}.

Definition Clear (w : t) : t :=
  {| bitmap_ := and_not_bit (start_offset_ w + position_ w) (bitmap_ w);
     start_offset_ := start_offset_ w; length_ := length_ w;
     position_ := position_ w |}.

Definition Next (w : t) : t :=
  {| bitmap_ := bitmap_ w; start_offset_ := start_offset_ w;
     length_ := length_ w; position_ := position_ w + 1 |}.

Definition position (w : t) : Z := position_ w.

(** [::arrow::BitUtil::GetBit]. *)
Definition GetBit (bits : list Z) (i : Z) : bool :=
  Z.testbit (default 0 (bits !! Z.to_nat (i / 8))) (i mod 8).

End BitmapWriter.

(** ** column_reader.cu and column_reader.cpp: levels to validity *)

(** A thrown [::parquet::ParquetException]: [throw ParquetException(msg)]
    is the specification's [ProtocolError], [ParquetException::NYI(msg)]
    its [NotImplemented]. *)
Inductive exn :=
| ParquetException (msg : string)
| NYI (msg : string).

Module Levels.

Record bitmap_result := mkResult {
  values_read : Z;
  null_count : Z;
  valid_bits : list Z;
}.

(** The [for] loop of the first [_DefinitionLevelsToBitmap] over the levels
    not yet visited. *)
Fixpoint _DefinitionLevelsToBitmap_loop (def_levels : list Z)
    (max_definition_level max_repetition_level : Z)
    (valid_bits_writer : BitmapWriter.t) (null_count : Z)
  : exn + (BitmapWriter.t * Z) :=
  match def_levels with
  | [] => inr (valid_bits_writer, null_count)
  | level :: rest =>
      if level =? max_definition_level then
        _DefinitionLevelsToBitmap_loop rest
          max_definition_level max_repetition_level
          (BitmapWriter.Next (BitmapWriter.Set_ valid_bits_writer)) null_count
      else if 0 <? max_repetition_level then
        if level =? max_definition_level - 1 then
          _DefinitionLevelsToBitmap_loop rest
            max_definition_level max_repetition_level
            (BitmapWriter.Next (BitmapWriter.Clear valid_bits_writer))
            (null_count + 1)
        else
          _DefinitionLevelsToBitmap_loop rest
            max_definition_level max_repetition_level
            valid_bits_writer null_count
      else
        if level <? max_definition_level then
          _DefinitionLevelsToBitmap_loop rest
            max_definition_level max_repetition_level
            (BitmapWriter.Next (BitmapWriter.Clear valid_bits_writer))
            (null_count + 1)
        else inl (ParquetException "definition level exceeds maximum")
  end.

(** [_DefinitionLevelsToBitmap] with a [max_repetition_level] parameter
    (column_reader.cu, the one [ReadBatchSpaced] calls).  [null_count] is the
    caller's counter, which the function increments. *)
Definition _DefinitionLevelsToBitmap (def_levels : list Z)
    (num_def_levels max_definition_level max_repetition_level : Z)
    (null_count : Z) (valid_bits : list Z) (valid_bits_offset : Z)
  : exn + bitmap_result :=
  match _DefinitionLevelsToBitmap_loop
          (take (Z.to_nat num_def_levels) def_levels)
          max_definition_level max_repetition_level
          (BitmapWriter.new valid_bits valid_bits_offset num_def_levels)
          null_count with
  | inl e => inl e
  | inr (w, n) =>
      inr {| values_read := BitmapWriter.position w;
             null_count := n;
             valid_bits := BitmapWriter.bitmap_ w |}
  end.

(** The [for] loop of the second [_DefinitionLevelsToBitmap]. *)
Fixpoint _DefinitionLevelsToBitmap'_loop (def_levels : list Z)
    (max_definition_level : Z)
    (valid_bits_writer : BitmapWriter.t) (null_count : Z)
  : exn + (BitmapWriter.t * Z) :=
  match def_levels with
  | [] => inr (valid_bits_writer, null_count)
  | level :: rest =>
      if level =? max_definition_level then
        _DefinitionLevelsToBitmap'_loop rest max_definition_level
          (BitmapWriter.Next (BitmapWriter.Set_ valid_bits_writer)) null_count
      else
        if level <? max_definition_level then
          _DefinitionLevelsToBitmap'_loop rest max_definition_level
            (BitmapWriter.Next (BitmapWriter.Clear valid_bits_writer))
            (null_count + 1)
        else inl (ParquetException "definition level exceeds maximum")
  end.

(** [_DefinitionLevelsToBitmap] without a [max_repetition_level] parameter
    (column_reader.cu, the one [ToGdfColumn] calls).  It leaves the caller's
    [values_read] as it is. *)
Definition _DefinitionLevelsToBitmap' (def_levels : list Z)
    (levels_length max_definition_level : Z)
    (values_read null_count : Z) (null_bitmap_ptr : list Z)
    (valid_bits_offset : Z)
  : exn + bitmap_result :=
  match _DefinitionLevelsToBitmap'_loop
          (take (Z.to_nat levels_length) def_levels)
          max_definition_level
          (BitmapWriter.new null_bitmap_ptr valid_bits_offset levels_length)
          null_count with
  | inl e => inl e
  | inr (w, n) =>
      inr {| values_read := values_read;
             null_count := n;
             valid_bits := BitmapWriter.bitmap_ w |}
  end.

Definition _ByteWithBit (i : Z) : Z :=
  default 0 ([1; 2; 4; 8; 16; 32; 64; 128] !! Z.to_nat i).

Definition _TurnBitOn (bits : list Z) (i : Z) : list Z :=
  alter (fun b => Z.lor b (_ByteWithBit (i mod 8))) (Z.to_nat (i / 8)) bits.

(** The [for] loop of [_GenerateNullBitmap] from index [i] on. *)
Fixpoint _GenerateNullBitmap_loop (levels : list Z) (i : Z) (file_level : Z)
    (null_bitmap_ptr : list Z) (null_count : Z) : Z * list Z :=
  match levels with
  | [] => (null_count, null_bitmap_ptr)
  | level :: rest =>
      if level =? file_level then
        _GenerateNullBitmap_loop rest (i + 1) file_level
          (_TurnBitOn null_bitmap_ptr i) null_count
      else
        _GenerateNullBitmap_loop rest (i + 1) file_level
          null_bitmap_ptr (null_count + 1)
  end.

(** [_GenerateNullBitmap] (column_reader.cpp): returns the null count and
    the bitmap. *)
Definition _GenerateNullBitmap (levels : list Z) (levels_length : Z)
    (file_level : Z) (null_bitmap_ptr : list Z) : Z * list Z :=
  _GenerateNullBitmap_loop (take (Z.to_nat levels_length) levels) 0
    file_level null_bitmap_ptr 0.

(** The number of levels strictly below the maximum. *)
Definition count_below (max_definition_level : Z) (levels : list Z) : Z :=
  Z.of_nat (length (filter (fun level => level < max_definition_level) levels)).

End Levels.

(** ** Scattering dense values to their rows *)

Module Compact.

(** [thrust::copy_if] over the counting range [0, batch_size) with the
    levels as stencil: the indices whose level satisfies [is_equal]. *)
Definition copy_if (batch_size : Z) (definition_levels : list Z)
    (max_definition_level : Z) : list nat :=
  filter (fun i => definition_levels !! i = Some max_definition_level)
         (seq 0 (Z.to_nat batch_size)).

(** [thrust::scatter(first, last, map, result)]:
    [result[map[k]] = first[k]]. *)
Fixpoint scatter (data : list Z) (map : list nat) (result : list Z)
  : list Z :=
  match data, map with
  | x :: data', i :: map' => scatter data' map' (<[i := x]> result)
  | _, _ => result
  end.

(** [compact_to_sparse_for_nulls]: the new contents of [data_out]. *)
Definition compact_to_sparse_for_nulls (data_in data_out : list Z)
    (definition_levels : list Z) (max_definition_level batch_size : Z)
  : list Z :=
  let work_space := copy_if batch_size definition_levels max_definition_level in
  let num_not_null := length work_space in
  scatter (take num_not_null data_in) work_space data_out.

End Compact.

(** ** column_reader.cu: the column reader *)

Module ColumnReader.

(** [::parquet::PageType] and [::parquet::Encoding], as in the Parquet
    format. *)
Inductive PageType :=
| DATA_PAGE | INDEX_PAGE | DICTIONARY_PAGE | DATA_PAGE_V2.

Inductive Encoding :=
| PLAIN | PLAIN_DICTIONARY | RLE | BIT_PACKED | DELTA_BINARY_PACKED
| DELTA_LENGTH_BYTE_ARRAY | DELTA_BYTE_ARRAY | RLE_DICTIONARY.

#[export] Instance PageType_eq_dec : EqDecision PageType.
Proof. solve_decision. Defined.

#[export] Instance Encoding_eq_dec : EqDecision Encoding.
Proof. solve_decision. Defined.

(** [static_cast<int>(encoding)], the key of the decoder cache. *)
Definition encoding_int (e : Encoding) : Z :=
  match e with
  | PLAIN => 0 | PLAIN_DICTIONARY => 2 | RLE => 3 | BIT_PACKED => 4
  | DELTA_BINARY_PACKED => 5 | DELTA_LENGTH_BYTE_ARRAY => 6
  | DELTA_BYTE_ARRAY => 7 | RLE_DICTIONARY => 8
  end.

(** A page as the reader sees it.  The byte payload is represented by what
    the level decoders and the value decoder read from it: the repetition
    levels, the definition levels, and the encoded values (plain values, or
    dictionary indices). *)
Record Page := mkPage {
  type : PageType;
  encoding : Encoding;
  num_values : Z;
  repetition_levels : list Z;
  definition_levels : list Z;
  data : list Z;
}.

Record ColumnDescriptor := mkDescr {
  max_definition_level : Z;
  max_repetition_level : Z;
}.

(** Modelled from the spec: the decoders of [plain_decoder.cuh] and
    [dictionary_decoder.cuh].  A plain decoder holds the values it has still
    to hand out, a dictionary decoder its dictionary and the indices it has
    still to resolve. *)
Inductive Decoder :=
| PlainDecoder (remaining : list Z)
| DictionaryDecoder (dictionary : list Z) (indices : list Z).

(** Modelled from the spec: [SetData(count, buffer, size)] binds the
    decoder to the value bytes of a data page. *)
Definition SetData (num_values : Z) (buffer : list Z) (d : Decoder)
  : Decoder :=
  match d with
  | PlainDecoder _ => PlainDecoder (take (Z.to_nat num_values) buffer)
  | DictionaryDecoder dictionary _ =>
      DictionaryDecoder dictionary (take (Z.to_nat num_values) buffer)
  end.

(** Modelled from the spec: [Decode(out, n)] hands out [min(n, remaining)]
    values, a dictionary decoder after resolving each index in its
    dictionary.  The result is the values written to [out]; its length is
    the count returned. *)
Definition Decode (max_values : Z) (d : Decoder) : list Z * Decoder :=
  match d with
  | PlainDecoder remaining =>
      (take (Z.to_nat max_values) remaining,
       PlainDecoder (drop (Z.to_nat max_values) remaining))
  | DictionaryDecoder dictionary indices =>
      (map (fun i => default 0 (dictionary !! Z.to_nat i))
           (take (Z.to_nat max_values) indices),
       DictionaryDecoder dictionary (drop (Z.to_nat max_values) indices))
  end.

(** The reader.  [pager_] is the page source, as the pages it has still to
    return.  [current_decoder_] points into [decoders_]: it is the key of
    the decoder it points to.  A level decoder is the levels of the current
    page it has still to hand out. *)
Record t := mk {
  descr_ : ColumnDescriptor;
  pager_ : list Page;
  current_page_ : option Page;
  num_buffered_values_ : Z;
  num_decoded_values_ : Z;
  decoders_ : gmap Z Decoder;
  current_decoder_ : option Z;
  definition_level_decoder_ : list Z;
  repetition_level_decoder_ : list Z;
}.

(** A reader bound to a descriptor and a page source, before any read. *)
Definition new (descr : ColumnDescriptor) (pager : list Page) : t :=
  {| descr_ := descr; pager_ := pager; current_page_ := None;
     num_buffered_values_ := 0; num_decoded_values_ := 0;
     decoders_ := ∅; current_decoder_ := None;
     definition_level_decoder_ := []; repetition_level_decoder_ := [] |}.

(** [_ConfigureDictionary]: the new decoder cache and [*out_decoder]. *)
Definition _ConfigureDictionary (page : Page) (decoders : gmap Z Decoder)
  : exn + (gmap Z Decoder * option Z) :=
  let is_plain :=
    bool_decide (encoding page = PLAIN_DICTIONARY)
    || bool_decide (encoding page = PLAIN) in
  let encoding :=
    if is_plain then encoding_int RLE_DICTIONARY
    else encoding_int (encoding page) in
  match decoders !! encoding with
  | Some _ =>
      inl (ParquetException "Column cannot have more than one dictionary.")
  | None =>
      if is_plain then
        let '(dictionary, _) :=
          Decode (num_values page)
                 (SetData (num_values page) (data page) (PlainDecoder [])) in
        inr (<[encoding := DictionaryDecoder dictionary []]> decoders,
             Some encoding)
      else inl (NYI "only plain dictionary encoding has been implemented")
  end.

Definition _IsDictionaryIndexEncoding (e : Encoding) : bool :=
  bool_decide (e = RLE_DICTIONARY) || bool_decide (e = PLAIN_DICTIONARY).

(** [ReadNewPage], by recursion on the pages the source has still to
    return: each turn of [for (;;)] takes one. *)
Fixpoint ReadNewPage_from (pages : list Page) (r : t) : exn + (bool * t) :=
  match pages with
  | [] =>
      inr (false,
           {| descr_ := descr_ r; pager_ := []; current_page_ := None;
              num_buffered_values_ := num_buffered_values_ r;
              num_decoded_values_ := num_decoded_values_ r;
              decoders_ := decoders_ r;
              current_decoder_ := current_decoder_ r;
              definition_level_decoder_ := definition_level_decoder_ r;
              repetition_level_decoder_ := repetition_level_decoder_ r |})
  | page :: rest =>
      match type page with
      | DICTIONARY_PAGE =>
          match _ConfigureDictionary page (decoders_ r) with
          | inl e => inl e
          | inr (decoders, out_decoder) =>
              ReadNewPage_from rest
                {| descr_ := descr_ r; pager_ := rest;
                   current_page_ := Some page;
                   num_buffered_values_ := num_buffered_values_ r;
                   num_decoded_values_ := num_decoded_values_ r;
                   decoders_ := decoders;
                   current_decoder_ := out_decoder;
                   definition_level_decoder_ := definition_level_decoder_ r;
                   repetition_level_decoder_ := repetition_level_decoder_ r |}
          end
      | DATA_PAGE =>
          let num_buffered_values := num_values page in
          let rep :=
            if 0 <? max_repetition_level (descr_ r)
            then take (Z.to_nat num_buffered_values) (repetition_levels page)
            else repetition_level_decoder_ r in
          let def :=
            if 0 <? max_definition_level (descr_ r)
            then take (Z.to_nat num_buffered_values) (definition_levels page)
            else definition_level_decoder_ r in
          let encoding :=
            if _IsDictionaryIndexEncoding (encoding page)
            then RLE_DICTIONARY else encoding page in
          let found :=
            match decoders_ r !! encoding_int encoding with
            | Some d => inr d
            | None =>
                match encoding with
                | PLAIN => inr (PlainDecoder [])
                | RLE_DICTIONARY =>
                    inl (ParquetException
                           "Dictionary page must be before data page.")
                | DELTA_BINARY_PACKED | DELTA_LENGTH_BYTE_ARRAY
                | DELTA_BYTE_ARRAY => inl (NYI "Unsupported encoding")
                | _ => inl (ParquetException "Unknown encoding type.")
                end
            end in
          match found with
          | inl e => inl e
          | inr d =>
              inr (true,
                   {| descr_ := descr_ r; pager_ := rest;
                      current_page_ := Some page;
                      num_buffered_values_ := num_buffered_values;
                      num_decoded_values_ := 0;
                      decoders_ :=
                        <[encoding_int encoding :=
                            SetData num_buffered_values (data page) d]>
                          (decoders_ r);
                      current_decoder_ := Some (encoding_int encoding);
                      definition_level_decoder_ := def;
                      repetition_level_decoder_ := rep |})
          end
      | _ =>
          ReadNewPage_from rest
            {| descr_ := descr_ r; pager_ := rest;
               current_page_ := Some page;
               num_buffered_values_ := num_buffered_values_ r;
               num_decoded_values_ := num_decoded_values_ r;
               decoders_ := decoders_ r;
               current_decoder_ := current_decoder_ r;
               definition_level_decoder_ := definition_level_decoder_ r;
               repetition_level_decoder_ := repetition_level_decoder_ r |}
      end
  end.

Definition ReadNewPage (r : t) : exn + (bool * t) :=
  ReadNewPage_from (pager_ r) r.

Definition HasNext (r : t) : exn + (bool * t) :=
  if (num_buffered_values_ r =? 0)
     || (num_decoded_values_ r =? num_buffered_values_ r) then
    match ReadNewPage r with
    | inl e => inl e
    | inr (b, r') =>
        if negb b || (num_buffered_values_ r' =? 0) then inr (false, r')
        else inr (true, r')
    end
  else inr (true, r).

(** A pointer into a caller-owned array: the array and the index the
    pointer is at.  A null pointer is [None] of [option ptr]. *)
Record ptr := mkPtr {
  arr : list Z;
  off : Z;
}.

(** Modelled from the spec: [ReadDefinitionLevels(batch_size, levels)] of
    [column_reader.h] "decodes up to [n] levels" of the current page into
    the caller's array and returns how many; none when the column has no
    definition levels. *)
Definition ReadDefinitionLevels (batch_size : Z) (levels : ptr) (r : t)
  : Z * ptr * t :=
  if max_definition_level (descr_ r) =? 0 then (0, levels, r)
  else
    let ls := take (Z.to_nat batch_size) (definition_level_decoder_ r) in
    (Z.of_nat (length ls),
     {| arr := Mem.write_at (arr levels) (off levels) ls; off := off levels |},
     {| descr_ := descr_ r; pager_ := pager_ r;
        current_page_ := current_page_ r;
        num_buffered_values_ := num_buffered_values_ r;
        num_decoded_values_ := num_decoded_values_ r;
        decoders_ := decoders_ r;
        current_decoder_ := current_decoder_ r;
        definition_level_decoder_ :=
          drop (Z.to_nat batch_size) (definition_level_decoder_ r);
        repetition_level_decoder_ := repetition_level_decoder_ r |}).

(** Modelled from the spec: [ReadRepetitionLevels], likewise. *)
Definition ReadRepetitionLevels (batch_size : Z) (levels : ptr) (r : t)
  : Z * ptr * t :=
  if max_repetition_level (descr_ r) =? 0 then (0, levels, r)
  else
    let ls := take (Z.to_nat batch_size) (repetition_level_decoder_ r) in
    (Z.of_nat (length ls),
     {| arr := Mem.write_at (arr levels) (off levels) ls; off := off levels |},
     {| descr_ := descr_ r; pager_ := pager_ r;
        current_page_ := current_page_ r;
        num_buffered_values_ := num_buffered_values_ r;
        num_decoded_values_ := num_decoded_values_ r;
        decoders_ := decoders_ r;
        current_decoder_ := current_decoder_ r;
        definition_level_decoder_ := definition_level_decoder_ r;
        repetition_level_decoder_ :=
          drop (Z.to_nat batch_size) (repetition_level_decoder_ r) |}).

(** Modelled from the spec: [ConsumeBufferedValues(n)] of
    [column_reader.h] counts [n] more values of the page as decoded. *)
Definition ConsumeBufferedValues (num_values : Z) (r : t) : t :=
  {| descr_ := descr_ r; pager_ := pager_ r;
     current_page_ := current_page_ r;
     num_buffered_values_ := num_buffered_values_ r;
     num_decoded_values_ := num_decoded_values_ r + num_values;
     decoders_ := decoders_ r;
     current_decoder_ := current_decoder_ r;
     definition_level_decoder_ := definition_level_decoder_ r;
     repetition_level_decoder_ := repetition_level_decoder_ r |}.

(** [_ReadValues(current_decoder_, batch_size, out)]: the values written
    and the reader, whose current decoder has moved on.  A null
    [current_decoder_] cannot be dereferenced; the model reads nothing. *)
Definition _ReadValues (batch_size : Z) (r : t) : list Z * t :=
  match current_decoder_ r with
  | Some key =>
      match decoders_ r !! key with
      | Some d =>
          let '(vs, d') := Decode (Ints.int32 batch_size) d in
          (vs,
           {| descr_ := descr_ r; pager_ := pager_ r;
              current_page_ := current_page_ r;
              num_buffered_values_ := num_buffered_values_ r;
              num_decoded_values_ := num_decoded_values_ r;
              decoders_ := <[key := d']> (decoders_ r);
              current_decoder_ := current_decoder_ r;
              definition_level_decoder_ := definition_level_decoder_ r;
              repetition_level_decoder_ := repetition_level_decoder_ r |})
      | None => ([], r)
      end
  | None => ([], r)
  end.

(** The number of [i < n] with [levels[i] == max_definition_level]. *)
Definition count_present (levels : ptr) (n : Z) (max_definition_level : Z)
  : Z :=
  Z.of_nat
    (length
       (filter (fun i => arr levels !! (Z.to_nat (off levels) + i)%nat
                         = Some max_definition_level)
               (seq 0 (Z.to_nat n)))).

(** What a call of [ReadBatch] leaves behind: the value returned, what it
    stored in [*values_read], the caller's arrays, and the reader. *)
Record batch := mkBatch {
  total_values : Z;
  values_read : Z;
  def_levels : option ptr;
  rep_levels : option ptr;
  values : ptr;
  reader : t;
}.

Definition ReadBatch (batch_size : Z) (def_levels rep_levels : option ptr)
    (values : ptr) (r : t) : exn + batch :=
  match HasNext r with
  | inl e => inl e
  | inr (false, r0) =>
      inr {| total_values := 0; values_read := 0;
             def_levels := def_levels; rep_levels := rep_levels;
             values := values; reader := r0 |}
  | inr (true, r0) =>
      let batch_size :=
        Z.min batch_size (num_buffered_values_ r0 - num_decoded_values_ r0) in
      let '(num_def_levels, values_to_read, def_levels', r1) :=
        match def_levels with
        | Some p =>
            if 0 <? max_definition_level (descr_ r0) then
              let '(n, p', r') := ReadDefinitionLevels batch_size p r0 in
              (n, count_present p' n (max_definition_level (descr_ r0)),
               Some p', r')
            else (0, batch_size, def_levels, r0)
        | None => (0, batch_size, def_levels, r0)
        end in
      let rep :=
        match rep_levels with
        | Some p =>
            if 0 <? max_repetition_level (descr_ r1) then
              let '(n, p', r') := ReadRepetitionLevels batch_size p r1 in
              if bool_decide (is_Some def_levels)
                 && negb (num_def_levels =? n)
              then inl (ParquetException
                          "Number of decoded rep / def levels did not match")
              else inr (Some p', r')
            else inr (rep_levels, r1)
        | None => inr (rep_levels, r1)
        end in
      match rep with
      | inl e => inl e
      | inr (rep_levels', r2) =>
          let '(vs, r3) := _ReadValues values_to_read r2 in
          let values_read := Z.of_nat (length vs) in
          let total_values := Z.max num_def_levels values_read in
          inr {| total_values := total_values; values_read := values_read;
                 def_levels := def_levels'; rep_levels := rep_levels';
                 values :=
                   {| arr := Mem.write_at (arr values) (off values) vs;
                      off := off values |};
                 reader := ConsumeBufferedValues total_values r3 |}
      end
  end.

(** Modelled from the spec: a validity mask takes "ceil(row_count / 8)"
    bytes, so [GDF_VALID_BITSIZE], which the sources at hand do not define,
    is 8, and [sizeof(gdf_valid_type)] is 1. *)
Definition GDF_VALID_BITSIZE : Z := 8.

(** [get_number_of_bytes_for_valid(column_size)]: the argument and the
    arithmetic are [size_t], so the sum and the product wrap at [2^64]. *)
Definition get_number_of_bytes_for_valid (column_size : Z) : Z :=
  Ints.uint64 (1 * Ints.uint64 (column_size + GDF_VALID_BITSIZE - 1))
  / GDF_VALID_BITSIZE.

(** The two buffers of a [gdf_column] that [ToGdfColumn] writes. *)
Record gdf_column := mkColumn {
  column_data : list Z;
  column_valid : list Z;
}.

(** The variables of [ToGdfColumn] that its loop changes. *)
Record loop_state := mkLoop {
  rows_read_total : Z;
  values_read_counter : Z;
  loop_null_count : Z;
  loop_definition_levels : list Z;
  loop_values : list Z;
  h_valid_bits : list Z;
  loop_reader : t;
}.

(** [while (this->HasNext()) { ... }] of [ToGdfColumn], bounded by [fuel]
    turns; [None] when the bound is reached first. *)
Fixpoint ToGdfColumn_loop (fuel : nat) (values_to_read : Z) (s : loop_state)
  : option (exn + loop_state) :=
  match fuel with
  | O => None
  | S fuel' =>
      match HasNext (loop_reader s) with
      | inl e => Some (inl e)
      | inr (false, r) =>
          Some (inr {| rows_read_total := rows_read_total s;
                       values_read_counter := values_read_counter s;
                       loop_null_count := loop_null_count s;
                       loop_definition_levels := loop_definition_levels s;
                       loop_values := loop_values s;
                       h_valid_bits := h_valid_bits s;
                       loop_reader := r |})
      | inr (true, r) =>
          match ReadBatch values_to_read
                  (Some {| arr := loop_definition_levels s;
                           off := rows_read_total s |})
                  None
                  {| arr := loop_values s; off := values_read_counter s |}
                  r with
          | inl e => Some (inl e)
          | inr b =>
              let rows_read := total_values b in
              let levels :=
                match def_levels b with
                | Some p => arr p
                | None => loop_definition_levels s
                end in
              match Levels._DefinitionLevelsToBitmap'
                      (drop (Z.to_nat (rows_read_total s)) levels)
                      rows_read
                      (max_definition_level (descr_ (reader b)))
                      (values_read b) (loop_null_count s)
                      (h_valid_bits s) (rows_read_total s) with
              | inl e => Some (inl e)
              | inr m =>
                  ToGdfColumn_loop fuel' values_to_read
                    {| rows_read_total := rows_read_total s + rows_read;
                       values_read_counter :=
                         values_read_counter s + Levels.values_read m;
                       loop_null_count := Levels.null_count m;
                       loop_definition_levels := levels;
                       loop_values := arr (values b);
                       h_valid_bits := Levels.valid_bits m;
                       loop_reader := reader b |}
              end
          end
      end
  end.

(** What [ToGdfColumn] leaves behind: the value returned, the caller's
    level array, the column, and the reader. *)
Record to_gdf_result := mkToGdf {
  rows_read : Z;
  out_definition_levels : list Z;
  out_column : gdf_column;
  out_reader : t;
}.

(** The value [ToGdfColumn] gives [values_to_read] before its loop. *)
Definition ToGdfColumn_values_to_read (r : t) : Z :=
  Z.min 8 (Ints.uint64 (num_buffered_values_ r - num_decoded_values_ r)).

(** The variables of [ToGdfColumn] when its loop is entered.  [uninit] is
    the contents of the block [new std::uint8_t[n_bytes]] returns, which
    the language leaves indeterminate. *)
Definition ToGdfColumn_init (definition_levels : list Z)
    (column : gdf_column) (uninit : list Z) (r : t) : loop_state :=
  let n_bytes := get_number_of_bytes_for_valid (num_buffered_values_ r) in
  {| rows_read_total := 0; values_read_counter := 0;
     loop_null_count := 0;
     loop_definition_levels := definition_levels;
     loop_values := column_data column;
     h_valid_bits := resize (Z.to_nat n_bytes) 0 uninit;
     loop_reader := r |}.

(** [ToGdfColumn(definition_levels, repetition_levels, column)]; the
    function does not use [repetition_levels], which is left out. *)
Definition ToGdfColumn (fuel : nat) (definition_levels : list Z)
    (column : gdf_column) (uninit : list Z) (r : t)
  : option (exn + to_gdf_result) :=
  let n_bytes := get_number_of_bytes_for_valid (num_buffered_values_ r) in
  match ToGdfColumn_loop fuel (ToGdfColumn_values_to_read r)
          (ToGdfColumn_init definition_levels column uninit r) with
  | None => None
  | Some (inl e) => Some (inl e)
  | Some (inr s) =>
      let valid_bits :=
        Mem.write_at (column_valid column) 0
          (take (Z.to_nat n_bytes) (h_valid_bits s)) in
      let values :=
        if rows_read_total s =? values_read_counter s then loop_values s
        else
          Compact.compact_to_sparse_for_nulls
            (take (Z.to_nat (rows_read_total s)) (loop_values s))
            (loop_values s)
            (take (Z.to_nat (rows_read_total s)) (loop_definition_levels s))
            (max_definition_level (descr_ (loop_reader s)))
            (rows_read_total s) in
      Some (inr {| rows_read := rows_read_total s;
                   out_definition_levels := loop_definition_levels s;
                   out_column :=
                     {| column_data := values; column_valid := valid_bits |};
                   out_reader := loop_reader s |})
  end.

(** The mask the loop of [ToGdfColumn] builds: a bit of the host bitmap
    that stands for a row read so far is set exactly when the level of the
    row, as the caller's level array holds it, is the maximum. *)
Definition mask_matches_levels (max : Z) (s : loop_state) : Prop :=
  forall i : nat,
    Z.of_nat i < rows_read_total s ->
    (i < length (loop_definition_levels s))%nat ->
    Z.of_nat i < 8 * Z.of_nat (length (h_valid_bits s)) ->
    BitmapWriter.GetBit (h_valid_bits s) (Z.of_nat i)
    = bool_decide (loop_definition_levels s !! i = Some max).

End ColumnReader.

(** ** api.cpp: the read_parquet entry point *)

Module Api.

Inductive gdf_error := GDF_SUCCESS | GDF_IO_ERROR.

#[export] Instance gdf_error_eq_dec : EqDecision gdf_error.
Proof. solve_decision. Defined.

(** What [read_parquet] uses of an opened file: the metadata counts and, in
    column order, the names [RowGroup(0)->Column(i)->descr()->name()]. *)
Record FileReader := mkFile {
  num_rows : Z;
  num_row_groups : Z;
  file_columns : list string;
}.

Definition num_columns (file_reader : FileReader) : Z :=
  Z.of_nat (length (file_columns file_reader)).

(** [class ColumnNames]: the vector [column_names]. *)
Definition ColumnNames (file_reader : FileReader) : list string :=
  take (Z.to_nat (num_columns file_reader)) (file_columns file_reader).

Definition Size (column_names : list string) : nat := length column_names.

Definition Contains (column_names : list string) (index : nat) : bool :=
  bool_decide (index < Size column_names)%nat.

(** [std::find(begin, end, name) - begin]. *)
Fixpoint IndexOf (column_names : list string) (name : string) : nat :=
  match column_names with
  | [] => O
  | n :: rest => if bool_decide (n = name) then O else S (IndexOf rest name)
  end.

(** [class ColumnFilter]: the vector [filter_names] built from the
    null-terminated array [raw_names], [None] for a null pointer. *)
Definition ColumnFilter (raw_names : option (list string)) : list string :=
  match raw_names with
  | Some names => names
  | None => []
  end.

(** The second loop of [IndicesFrom], over the filter names still to be
    looked up. *)
Fixpoint IndicesFrom_filter (filter_names column_names : list string)
  : list nat :=
  match filter_names with
  | [] => []
  | name :: rest =>
      let index := IndexOf column_names name in
      if Contains column_names index
      then index :: IndicesFrom_filter rest column_names
      else IndicesFrom_filter rest column_names
  end.

Definition IndicesFrom (filter_names column_names : list string)
  : list nat :=
  match filter_names with
  | [] => seq 0 (Size column_names)
  | _ => IndicesFrom_filter filter_names column_names
  end.

Definition _CheckMinimalData (file_reader : FileReader) : gdf_error :=
  if num_row_groups file_reader =? 0 then GDF_IO_ERROR
  else if num_rows file_reader =? 0 then GDF_IO_ERROR
  else GDF_SUCCESS.

(** What the model keeps of an element of the array [gdf_columns]: the
    index of the file column [_AllocateGdfColumn] set it up for, [None]
    while it is as [new gdf_column[n]] left it. *)
Definition gdf_column : Type := option nat.

(** [_CreateGdfColumns(num_columns)] when [new] succeeds. *)
Definition _CreateGdfColumns (num_columns : Z) : list gdf_column :=
  replicate (Z.to_nat num_columns) None.

(** The [for] loop of [_AllocateGdfColumns] from position [i] on, over the
    indices still to visit: [gdf_columns[i]] is set up for the descriptor
    of the column at the index.  Every physical type has its [WHEN] case,
    and the value [_AllocateGdfColumn] returns is dropped, so the loop ends
    with [GDF_SUCCESS].  The loop visits the positions below
    [indices.size()], whatever the length of the array is: the result is
    [None] when a position is past the end of the array, where C++ defines
    no behaviour. *)
Fixpoint _AllocateGdfColumns_loop (i : nat) (indices : list nat)
    (gdf_columns : list gdf_column)
  : option (gdf_error * list gdf_column) :=
  match indices with
  | [] => Some (GDF_SUCCESS, gdf_columns)
  | index :: rest =>
      if bool_decide (i < length gdf_columns)%nat
      then _AllocateGdfColumns_loop (S i) rest
             (<[i := Some index]> gdf_columns)
      else None
  end.

(** [_AllocateGdfColumns(file_reader, indices, gdf_columns)]. *)
Definition _AllocateGdfColumns (file_reader : FileReader)
    (indices : list nat) (gdf_columns : list gdf_column)
  : option (gdf_error * list gdf_column) :=
  _AllocateGdfColumns_loop 0 indices gdf_columns.

Section ReadParquet.

(** What the call depends on outside this file: which file names open
    ([_OpenFile], [None] for the null reader it returns when opening
    throws), whether [new gdf_column[n]] succeeds, and whether converting
    column [c] of row group [g] throws. *)
Variable OpenFile : string -> option FileReader.
Variable new_gdf_columns : Z -> bool.
Variable ToGdfColumn_throws : FileReader -> nat -> nat -> option exn.

(** The inner loop of [_ReadFile] over the selected columns.  Each of the
    eight values of [::parquet::Type] has its [WHEN] case, so the [default]
    of the [switch] is not taken. *)
Fixpoint _ReadFile_columns (file_reader : FileReader) (row_group_index : nat)
    (indices : list nat) : option exn :=
  match indices with
  | [] => None
  | i :: rest =>
      match ToGdfColumn_throws file_reader row_group_index i with
      | Some e => Some e
      | None => _ReadFile_columns file_reader row_group_index rest
      end
  end.

(** The outer loop of [_ReadFile] over the row groups still to be read. *)
Fixpoint _ReadFile_groups (file_reader : FileReader) (groups : list nat)
    (indices : list nat) : exn + gdf_error :=
  match groups with
  | [] => inr GDF_SUCCESS
  | g :: rest =>
      match _ReadFile_columns file_reader g indices with
      | Some e => inl e
      | None => _ReadFile_groups file_reader rest indices
      end
  end.

Definition _ReadFile (file_reader : FileReader) (indices : list nat)
  : exn + gdf_error :=
  _ReadFile_groups file_reader
    (seq 0 (Z.to_nat (num_row_groups file_reader))) indices.

(** [read_parquet(filename, engine, columns, out_gdf_columns,
    out_gdf_columns_length)]: the status returned and, when the call gets
    that far, the value stored in [*out_gdf_columns_length]; [inl] when an
    exception leaves the call; [None] when the call indexes [gdf_columns],
    an array of [num_columns()] elements, past its end.  [_ReadFile]
    indexes the array at the positions [_AllocateGdfColumns] has
    visited. *)
Definition read_parquet (filename : string) (engine : option string)
    (columns : option (list string))
  : option (exn + (gdf_error * option Z)) :=
  match engine with
  | Some _ => Some (inr (GDF_IO_ERROR, None))
  | None =>
      match OpenFile filename with
      | None => Some (inr (GDF_IO_ERROR, None))
      | Some file_reader =>
          if bool_decide (_CheckMinimalData file_reader ≠ GDF_SUCCESS)
          then Some (inr (GDF_IO_ERROR, None))
          else
            let column_names := ColumnNames file_reader in
            let column_filter := ColumnFilter columns in
            let indices := IndicesFrom column_filter column_names in
            if negb (new_gdf_columns (num_columns file_reader))
            then Some (inr (GDF_IO_ERROR, None))
            else
              let gdf_columns :=
                _CreateGdfColumns (num_columns file_reader) in
              match _AllocateGdfColumns file_reader indices gdf_columns with
              | None => None
              | Some (status, _) =>
                  if bool_decide (status ≠ GDF_SUCCESS)
                  then Some (inr (GDF_IO_ERROR, None))
                  else
                    match _ReadFile file_reader indices with
                    | inl e => Some (inl e)
                    | inr GDF_SUCCESS =>
                        Some (inr (GDF_SUCCESS,
                                   Some (Z.of_nat (length indices))))
                    | inr _ => Some (inr (GDF_IO_ERROR, None))
                    end
              end
      end
  end.

End ReadParquet.
End Api.

(** ** column_reader.cu: pages and reader states *)

Module PageSource.

(** A page [ReadNewPage] passes over: neither the data page it stops at nor
    a dictionary page it configures. *)
Definition skipped (page : ColumnReader.Page) : Prop :=
  ColumnReader.type page = ColumnReader.INDEX_PAGE \/
  ColumnReader.type page = ColumnReader.DATA_PAGE_V2.

(** A dictionary page in one of the two encodings [_ConfigureDictionary]
    accepts. *)
Definition plain_dictionary (page : ColumnReader.Page) : Prop :=
  ColumnReader.type page = ColumnReader.DICTIONARY_PAGE /\
  (ColumnReader.encoding page = ColumnReader.PLAIN_DICTIONARY \/
   ColumnReader.encoding page = ColumnReader.PLAIN).

(** The key under which [ReadNewPage] looks up the decoder of a data
    page. *)
Definition decoder_key (page : ColumnReader.Page) : Z :=
  ColumnReader.encoding_int
    (if ColumnReader._IsDictionaryIndexEncoding (ColumnReader.encoding page)
     then ColumnReader.RLE_DICTIONARY else ColumnReader.encoding page).

End PageSource.

Module PageState.
(** A reader in the middle of a data page: values of the page are still to
    be decoded, by the decoder [current_decoder_] points to. *)
Definition mid_page (r : ColumnReader.t) : Prop :=
  ColumnReader.num_decoded_values_ r < ColumnReader.num_buffered_values_ r /\
  ColumnReader.num_buffered_values_ r <> 0 /\
  exists key,
    ColumnReader.current_decoder_ r = Some key /\
    is_Some (ColumnReader.decoders_ r !! key).
End PageState.

Module PageBounds.
(** The page counters of a reader are in order: no more values are counted
    as decoded than the page buffers, and no page still to come declares a
    negative number of values. *)
Definition within_page (r : ColumnReader.t) : Prop :=
  ColumnReader.num_decoded_values_ r <= ColumnReader.num_buffered_values_ r /\
  Forall (fun page => 0 <= ColumnReader.num_values page)
    (ColumnReader.pager_ r).
End PageBounds.

(** ** column_reader.cu: bit helpers and the bitmask functor *)

Module ValidBits.

(** [_FlippedBitmask] (column_reader.cu). *)
Definition _FlippedBitmask (i : Z) : Z :=
  default 0 ([254; 253; 251; 247; 239; 223; 191; 127] !! Z.to_nat i).

(** [_TurnBitOff] (column_reader.cu): [bits[i / 8] &= _FlippedBitmask(i % 8)],
    with the division and remainder of C++, which truncate. *)
Definition _TurnBitOff (bits : list Z) (i : Z) : list Z :=
  alter (fun b => Z.land b (_FlippedBitmask (Z.rem i 8)))
        (Z.to_nat (Z.quot i 8)) bits.

(** [_CeilToByteLength]: [(n + 7) & ~7] on [size_t]. *)
Definition _CeilToByteLength (n : Z) : Z :=
  Z.land (Ints.uint64 (n + 7)) (Ints.uint64 (Z.lnot 7)).

Definition _BytesLengthToBitmapLength (n : Z) : Z :=
  _CeilToByteLength n / 8.

(** [bitmask_functor::operator()(i, level)] for a functor built with
    [max_definition_level], [valid_bits] and [valid_bits_offset]: the new
    contents of [valid_bits]. *)
Definition bitmask_functor (max_definition_level : Z) (valid_bits : list Z)
    (valid_bits_offset : Z) (i level : Z) : list Z :=
  let iter := Ints.int32 (valid_bits_offset + i) in
  if level =? max_definition_level then
    alter (fun b => Z.lor b (Levels._ByteWithBit (Z.rem iter 8)))
          (Z.to_nat (Z.quot iter 8)) valid_bits
  else if level <? max_definition_level then
    alter (fun b => Z.lor b (_FlippedBitmask (Z.rem iter 8)))
          (Z.to_nat (Z.quot iter 8)) valid_bits
  else valid_bits.

End ValidBits.

(** ** column_reader.cu: printing a validity mask *)

Module ValidStr.

(** The [for] loop of [chartobin] with [n] characters still to write:
    [bin[i] = (c % 2) + '0'; c /= 2]. *)
Fixpoint chartobin_loop (n : nat) (c : Z) : string :=
  match n with
  | O => EmptyString
  | S n' =>
      String (Ascii.ascii_of_nat (Z.to_nat (c mod 2 + 48)))
             (chartobin_loop n' (c / 2))
  end.

(** [chartobin(c, size)].  [bin.resize(size)] with a negative [size],
    which converts to a huge [size_t], throws [std::length_error]: [None]. *)
Definition chartobin (c size : Z) : option string :=
  if size <? 0 then None else Some (chartobin_loop (Z.to_nat size) c).

(** The [for] loop of [gdf_valid_to_str] over the byte indices still to
    visit. *)
Fixpoint gdf_valid_to_str_loop (indices : list nat) (valid : list Z)
    (column_size n_bytes : Z) (response : string) : option string :=
  match indices with
  | [] => Some response
  | i :: rest =>
      let length :=
        Ints.int32
          (if negb (n_bytes =? Z.of_nat i + 1)
           then ColumnReader.GDF_VALID_BITSIZE
           else Ints.uint64
                  (column_size
                   - ColumnReader.GDF_VALID_BITSIZE * (n_bytes - 1))) in
      match chartobin (default 0 (valid !! i)) length with
      | None => None
      | Some result =>
          gdf_valid_to_str_loop rest valid column_size n_bytes
            (response +:+ result)
      end
  end.

(** [gdf_valid_to_str(valid, column_size)]. *)
Definition gdf_valid_to_str (valid : list Z) (column_size : Z)
  : option string :=
  let n_bytes := ColumnReader.get_number_of_bytes_for_valid column_size in
  gdf_valid_to_str_loop (seq 0 (Z.to_nat n_bytes)) valid column_size n_bytes
    EmptyString.

(** The character [chartobin] writes for a bit. *)
Definition bit_char (b : bool) : Ascii.ascii :=
  Ascii.ascii_of_nat (if b then 49 else 48).

End ValidStr.

(** ** column_reader.cpp: [ReadGdfColumn] *)

Module ColumnReaderCpp.

Definition int64 : Z -> Z := Ints.wrap_signed 64.

(** The fields of the [gdf_column] that [ReadGdfColumn] builds from what
    it reads; [dtype], a constant of the template instance, is left
    out. *)
Record gdf_column := mkColumn {
  data : list Z;
  valid : list Z;
  size : Z;
}.

(** What [ReadGdfColumn] leaves behind: the value returned, the level
    array it filled, the column stored in [*out], and the reader. *)
Record read_result := mkRead {
  returned : Z;
  levels : list Z;
  column : gdf_column;
  reader : ColumnReader.t;
}.

Section ReadGdfColumn.

(** [gdf_size_type] is declared outside the sources at hand:
    [static_cast<gdf_size_type>] is a parameter. *)
Variable to_gdf_size_type : Z -> Z.

(** [ReadGdfColumn(values_to_read, out)] (column_reader.cpp).  The three
    arrays it allocates with [new] start with indeterminate contents:
    [uninit_levels], [uninit_data] and [uninit_valid]. *)
Definition ReadGdfColumn (values_to_read : Z)
    (uninit_levels uninit_data uninit_valid : list Z) (r : ColumnReader.t)
  : exn + read_result :=
  let levels := resize (Z.to_nat values_to_read) 0 uninit_levels in
  let data := resize (Z.to_nat values_to_read) 0 uninit_data in
  match ColumnReader.ReadBatch (int64 values_to_read)
          (Some {| ColumnReader.arr := levels; ColumnReader.off := 0 |})
          None
          {| ColumnReader.arr := data; ColumnReader.off := 0 |} r with
  | inl e => inl e
  | inr b =>
      let values_read := ColumnReader.values_read b in
      let levels :=
        match ColumnReader.def_levels b with
        | Some p => ColumnReader.arr p
        | None => levels
        end in
      let levels_length :=
        ValidBits._BytesLengthToBitmapLength (Ints.uint64 values_read) in
      let valid := resize (Z.to_nat levels_length) 0 uninit_valid in
      let '(_, valid) :=
        Levels._GenerateNullBitmap levels (Ints.uint64 values_read)
          (ColumnReader.max_definition_level
             (ColumnReader.descr_ (ColumnReader.reader b)))
          valid in
      inr {| returned := Ints.uint64 values_read;
             levels := levels;
             column := {| data := ColumnReader.arr (ColumnReader.values b);
                          valid := valid;
                          size := to_gdf_size_type values_read |};
             reader := ColumnReader.reader b |}
  end.

End ReadGdfColumn.

End ColumnReaderCpp.

(** ** column_reader.cu: [ReadBatchSpaced] *)

Module Spaced.

(** [::parquet::Repetition] and, of a [::parquet::schema::Node], what
    [_HasSpacedValues] reads: its repetition and its parent. *)
Inductive Repetition := REQUIRED | OPTIONAL | REPEATED.

(** A node with the chain of its parents, up to the root, whose
    [parent()] is null. *)
Inductive Node :=
| mkRoot (repetition : Repetition)
| mkNode (repetition : Repetition) (parent : Node).

Definition repetition (node : Node) : Repetition :=
  match node with
  | mkRoot repetition | mkNode repetition _ => repetition
  end.

Definition is_required (node : Node) : bool :=
  match repetition node with
  | REQUIRED => true
  | _ => false
  end.

Definition is_optional (node : Node) : bool :=
  match repetition node with
  | OPTIONAL => true
  | _ => false
  end.

(** The [while (node)] loop of [_HasSpacedValues], from [node] up. *)
Fixpoint _HasSpacedValues_loop (node : Node) : bool :=
  if is_optional node then true
  else
    match node with
    | mkNode _ parent => _HasSpacedValues_loop parent
    | mkRoot _ => false
    end.

(** [::arrow::BitUtil::SetBit], once for each [i < n]:
    [SetBit(valid_bits, valid_bits_offset + i)]. *)
Fixpoint SetBits (n : nat) (i : Z) (valid_bits : list Z)
    (valid_bits_offset : Z) : list Z :=
  match n with
  | O => valid_bits
  | S n' =>
      SetBits n' (i + 1)
        (BitmapWriter.or_bit (valid_bits_offset + i) valid_bits)
        valid_bits_offset
  end.

(** What a call of [ReadBatchSpaced] leaves behind: the value returned,
    the three counters it reports, the caller's arrays, and the reader. *)
Record spaced := mkSpaced {
  total_values : Z;
  levels_read : Z;
  values_read : Z;
  nulls_count : Z;
  definition_levels : ColumnReader.ptr;
  repetition_levels : ColumnReader.ptr;
  values : ColumnReader.ptr;
  valid_bits : list Z;
  reader : ColumnReader.t;
}.

Section ReadBatchSpaced.

(** Outside the sources at hand: the schema node of a column descriptor,
    and [DecodeSpaced(out, batch_size, null_count, valid_bits,
    valid_bits_offset)] of a value decoder, which returns a count, the new
    contents of [out] and the decoder as it has moved on. *)
Variable schema_node : ColumnReader.ColumnDescriptor -> Node.
Variable DecodeSpaced :
  Z -> Z -> list Z -> Z -> ColumnReader.ptr -> ColumnReader.Decoder ->
  Z * ColumnReader.ptr * ColumnReader.Decoder.

Definition _HasSpacedValues (descr : ColumnReader.ColumnDescriptor) : bool :=
  if 0 <? ColumnReader.max_repetition_level descr then
    negb (is_required (schema_node descr))
  else _HasSpacedValues_loop (schema_node descr).

(** [_ReadValuesSpaced(current_decoder_, ...)].  A null
    [current_decoder_] cannot be dereferenced; the model reads nothing. *)
Definition _ReadValuesSpaced (batch_size : Z) (out : ColumnReader.ptr)
    (null_count : Z) (valid_bits : list Z) (valid_bits_offset : Z)
    (r : ColumnReader.t) : Z * ColumnReader.ptr * ColumnReader.t :=
  match ColumnReader.current_decoder_ r with
  | Some key =>
      match ColumnReader.decoders_ r !! key with
      | Some d =>
          let '(n, out', d') :=
            DecodeSpaced (Ints.int32 batch_size) (Ints.int32 null_count)
              valid_bits valid_bits_offset out d in
          (n, out',
           {| ColumnReader.descr_ := ColumnReader.descr_ r;
              ColumnReader.pager_ := ColumnReader.pager_ r;
              ColumnReader.current_page_ := ColumnReader.current_page_ r;
              ColumnReader.num_buffered_values_ :=
                ColumnReader.num_buffered_values_ r;
              ColumnReader.num_decoded_values_ :=
                ColumnReader.num_decoded_values_ r;
              ColumnReader.decoders_ := <[key := d']> (ColumnReader.decoders_ r);
              ColumnReader.current_decoder_ := ColumnReader.current_decoder_ r;
              ColumnReader.definition_level_decoder_ :=
                ColumnReader.definition_level_decoder_ r;
              ColumnReader.repetition_level_decoder_ :=
                ColumnReader.repetition_level_decoder_ r |})
      | None => (0, out, r)
      end
  | None => (0, out, r)
  end.

(** [ReadBatchSpaced(batch_size, definition_levels, repetition_levels,
    values, valid_bits, valid_bits_offset, levels_read, values_read,
    nulls_count)] (column_reader.cu).  [values_read0] is what the caller's
    [*values_read] holds at the call.  The line the function prints to
    [std::cout] before it reads dense values is left out. *)
Definition ReadBatchSpaced (batch_size : Z)
    (definition_levels repetition_levels values : ColumnReader.ptr)
    (valid_bits : list Z) (valid_bits_offset : Z) (values_read0 : Z)
    (r : ColumnReader.t) : exn + spaced :=
  match ColumnReader.HasNext r with
  | inl e => inl e
  | inr (false, r0) =>
      inr {| total_values := 0; levels_read := 0; values_read := 0;
             nulls_count := 0;
             definition_levels := definition_levels;
             repetition_levels := repetition_levels;
             values := values; valid_bits := valid_bits; reader := r0 |}
  | inr (true, r0) =>
      let descr := ColumnReader.descr_ r0 in
      let batch_size :=
        Z.min batch_size
          (ColumnReader.num_buffered_values_ r0
           - ColumnReader.num_decoded_values_ r0) in
      if 0 <? ColumnReader.max_definition_level descr then
        let '(num_def_levels, definition_levels', r1) :=
          ColumnReader.ReadDefinitionLevels batch_size definition_levels r0 in
        let rep :=
          if 0 <? ColumnReader.max_repetition_level descr then
            let '(num_rep_levels, repetition_levels', r2) :=
              ColumnReader.ReadRepetitionLevels batch_size repetition_levels
                r1 in
            if negb (num_def_levels =? num_rep_levels) then
              inl (ParquetException
                     "Number of decoded rep / def levels did not match")
            else inr (repetition_levels', r2)
          else inr (repetition_levels, r1) in
        match rep with
        | inl e => inl e
        | inr (repetition_levels', r2) =>
            if negb (_HasSpacedValues descr) then
              let values_to_read :=
                Ints.int32
                  (ColumnReader.count_present definition_levels'
                     num_def_levels
                     (ColumnReader.max_definition_level descr)) in
              let '(vs, r3) := ColumnReader._ReadValues values_to_read r2 in
              let total_values := Z.of_nat (length vs) in
              inr {| total_values := total_values;
                     levels_read := num_def_levels;
                     values_read := total_values;
                     nulls_count := 0;
                     definition_levels := definition_levels';
                     repetition_levels := repetition_levels';
                     values :=
                       {| ColumnReader.arr :=
                            Mem.write_at (ColumnReader.arr values)
                              (ColumnReader.off values) vs;
                          ColumnReader.off := ColumnReader.off values |};
                     valid_bits :=
                       SetBits (Z.to_nat total_values) 0 valid_bits
                         valid_bits_offset;
                     reader :=
                       ColumnReader.ConsumeBufferedValues num_def_levels r3 |}
            else
              match Levels._DefinitionLevelsToBitmap
                      (drop (Z.to_nat (ColumnReader.off definition_levels'))
                         (ColumnReader.arr definition_levels'))
                      num_def_levels
                      (ColumnReader.max_definition_level descr)
                      (ColumnReader.max_repetition_level descr)
                      0 valid_bits valid_bits_offset with
              | inl e => inl e
              | inr m =>
                  let '(total_values, values', r3) :=
                    _ReadValuesSpaced (Levels.values_read m) values
                      (Levels.null_count m) (Levels.valid_bits m)
                      valid_bits_offset r2 in
                  inr {| total_values := total_values;
                         levels_read := num_def_levels;
                         values_read := Levels.values_read m;
                         nulls_count := Levels.null_count m;
                         definition_levels := definition_levels';
                         repetition_levels := repetition_levels';
                         values := values';
                         valid_bits := Levels.valid_bits m;
                         reader :=
                           ColumnReader.ConsumeBufferedValues num_def_levels
                             r3 |}
              end
        end
      else
        let '(vs, r3) := ColumnReader._ReadValues batch_size r0 in
        let total_values := Z.of_nat (length vs) in
        inr {| total_values := total_values;
               levels_read := total_values;
               values_read := values_read0;
               nulls_count := 0;
               definition_levels := definition_levels;
               repetition_levels := repetition_levels;
               values :=
                 {| ColumnReader.arr :=
                      Mem.write_at (ColumnReader.arr values)
                        (ColumnReader.off values) vs;
                    ColumnReader.off := ColumnReader.off values |};
               valid_bits :=
                 SetBits (Z.to_nat total_values) 0 valid_bits
                   valid_bits_offset;
               reader := ColumnReader.ConsumeBufferedValues total_values r3 |}
  end.

End ReadBatchSpaced.
End Spaced.

(** ** api.cpp: column types and allocation *)

Module ApiTypes.

(** [::parquet::Type::type] and [::parquet::LogicalType::type], as the two
    maps of api.cpp list them, and the [gdf_dtype] values they map to. *)
Inductive Type_ :=
| BOOLEAN | INT32 | INT64 | INT96 | FLOAT | DOUBLE | BYTE_ARRAY
| FIXED_LEN_BYTE_ARRAY.

Inductive LogicalType :=
| NONE | UTF8 | MAP | MAP_KEY_VALUE | LIST | ENUM | DECIMAL | DATE
| TIME_MILLIS | TIME_MICROS | TIMESTAMP_MILLIS | TIMESTAMP_MICROS
| UINT_8 | UINT_16 | UINT_32 | UINT_64 | INT_8 | INT_16 | INT_32 | INT_64
| JSON | BSON | INTERVAL | NA.

Inductive gdf_dtype :=
| GDF_invalid | GDF_INT8 | GDF_INT16 | GDF_INT32 | GDF_INT64
| GDF_FLOAT32 | GDF_FLOAT64 | GDF_DATE32 | GDF_TIMESTAMP.

#[export] Instance Type_eq_dec : EqDecision Type_.
Proof. solve_decision. Defined.

#[export] Instance LogicalType_eq_dec : EqDecision LogicalType.
Proof. solve_decision. Defined.

#[export] Instance gdf_dtype_eq_dec : EqDecision gdf_dtype.
Proof. solve_decision. Defined.

(** [std::unordered_map::at] on a map given by its entries: [None] when it
    throws [std::out_of_range]. *)
Fixpoint at_ {K V : Type} `{EqDecision K} (m : list (K * V)) (k : K)
  : option V :=
  match m with
  | [] => None
  | (k', v) :: rest => if decide (k' = k) then Some v else at_ rest k
  end.

Definition dtype_from_logical_type_map : list (LogicalType * gdf_dtype) :=
  [ (NONE, GDF_invalid); (UTF8, GDF_invalid); (MAP, GDF_invalid);
    (MAP_KEY_VALUE, GDF_invalid); (LIST, GDF_invalid); (ENUM, GDF_invalid);
    (DECIMAL, GDF_invalid); (DATE, GDF_DATE32); (TIME_MILLIS, GDF_invalid);
    (TIME_MICROS, GDF_invalid); (TIMESTAMP_MILLIS, GDF_TIMESTAMP);
    (TIMESTAMP_MICROS, GDF_invalid); (UINT_8, GDF_invalid);
    (UINT_16, GDF_invalid); (UINT_32, GDF_invalid); (UINT_64, GDF_invalid);
    (INT_8, GDF_INT8); (INT_16, GDF_INT16); (INT_32, GDF_INT32);
    (INT_64, GDF_INT64); (JSON, GDF_invalid); (BSON, GDF_invalid);
    (INTERVAL, GDF_invalid); (NA, GDF_invalid) ].

(** What the API reads of a [::parquet::ColumnDescriptor]. *)
Record ColumnDescriptor := mkDescr {
  physical_type : Type_;
  logical_type : LogicalType;
}.

(** [_DTypeFrom(column_descriptor)], over the physical-type map of the
    file it is in. *)
Definition _DTypeFrom (dtype_from_physical_type_map : list (Type_ * gdf_dtype))
    (column_descriptor : ColumnDescriptor) : option gdf_dtype :=
  if bool_decide (logical_type column_descriptor <> NONE)
  then at_ dtype_from_logical_type_map (logical_type column_descriptor)
  else at_ dtype_from_physical_type_map (physical_type column_descriptor).

End ApiTypes.

(** The first api.cpp (with the [engine] parameter). *)
Module ApiEngine.
Import ApiTypes.

Definition dtype_from_physical_type_map : list (Type_ * gdf_dtype) :=
  [ (BOOLEAN, GDF_INT8); (INT32, GDF_INT32); (INT64, GDF_INT64);
    (INT96, GDF_invalid); (FLOAT, GDF_FLOAT32); (DOUBLE, GDF_FLOAT64);
    (BYTE_ARRAY, GDF_invalid); (FIXED_LEN_BYTE_ARRAY, GDF_invalid) ].

Definition _DTypeFrom := ApiTypes._DTypeFrom dtype_from_physical_type_map.

End ApiEngine.

(** src/parquet/api.cpp (with [read_parquet_by_ids]). *)
Module ApiCuda.
Import ApiTypes.

Definition dtype_from_physical_type_map : list (Type_ * gdf_dtype) :=
  [ (BOOLEAN, GDF_INT8); (INT32, GDF_INT32); (INT64, GDF_INT64);
    (FLOAT, GDF_FLOAT32); (DOUBLE, GDF_FLOAT64) ].

Definition _DTypeFrom := ApiTypes._DTypeFrom dtype_from_physical_type_map.

(** The fields of a [gdf_column] that [_AllocateGdfColumn] writes: whether
    [data] and [valid] point to device memory, and [size] and [dtype],
    [None] while not written. *)
Record gdf_column := mkColumn {
  data_allocated : bool;
  valid_allocated : bool;
  size : option Z;
  dtype : option gdf_dtype;
}.

(** [_AllocateGdfColumn<TYPE>(num_rows, column_descriptor, _gdf_column)],
    given whether each [cudaMalloc] succeeds.  [inl tt]: [_DTypeFrom]
    throws [std::out_of_range].  [gdf_size_type] is declared outside the
    sources at hand: the conversion of [num_rows] to it is a parameter. *)
Definition _AllocateGdfColumn (to_gdf_size_type : Z -> Z)
    (data_ok valid_ok : bool) (num_rows : Z)
    (column_descriptor : ColumnDescriptor) (_gdf_column : gdf_column)
  : unit + (Api.gdf_error * gdf_column) :=
  if negb data_ok then inr (Api.GDF_IO_ERROR, _gdf_column)
  else
    let c1 := {| data_allocated := true;
                 valid_allocated := valid_allocated _gdf_column;
                 size := size _gdf_column; dtype := dtype _gdf_column |} in
    if negb valid_ok then inr (Api.GDF_IO_ERROR, c1)
    else
      match _DTypeFrom column_descriptor with
      | None => inl tt
      | Some d =>
          inr (Api.GDF_SUCCESS,
               {| data_allocated := true; valid_allocated := true;
                  size := Some (to_gdf_size_type num_rows);
                  dtype := Some d |})
      end.

Section Allocate.

(** Whether the two [cudaMalloc] calls made for the column at position [i]
    succeed. *)
Variable data_ok valid_ok : nat -> bool.
Variable to_gdf_size_type : Z -> Z.

(** The [for] loop of [_AllocateGdfColumns] from position [i] on, over
    the descriptors still to visit and the columns of the caller's array
    at their positions. *)
Fixpoint _AllocateGdfColumns_loop (i : nat) (num_rows : Z)
    (column_descriptors : list ColumnDescriptor)
    (gdf_columns : list gdf_column)
  : unit + (Api.gdf_error * list gdf_column) :=
  match column_descriptors, gdf_columns with
  | column_descriptor :: descriptors, _gdf_column :: columns =>
      match physical_type column_descriptor with
      | BOOLEAN | INT32 | INT64 | FLOAT | DOUBLE =>
          match _AllocateGdfColumn to_gdf_size_type (data_ok i) (valid_ok i)
                  num_rows
                  column_descriptor _gdf_column with
          | inl e => inl e
          | inr (_, c) =>
              match _AllocateGdfColumns_loop (S i) num_rows descriptors
                      columns with
              | inl e => inl e
              | inr (status, cs) => inr (status, c :: cs)
              end
          end
      | _ => inr (Api.GDF_IO_ERROR, gdf_columns)
      end
  | _, _ => inr (Api.GDF_SUCCESS, gdf_columns)
  end.

(** [_AllocateGdfColumns(file_reader, indices, gdf_columns)], with the
    descriptors [_ColumnDescriptorsFrom] returns for the indices. *)
Definition _AllocateGdfColumns (num_rows : Z)
    (column_descriptors : list ColumnDescriptor)
    (gdf_columns : list gdf_column)
  : unit + (Api.gdf_error * list gdf_column) :=
  _AllocateGdfColumns_loop 0 num_rows column_descriptors gdf_columns.

End Allocate.

(** The physical types [_AllocateGdfColumns] has a case for. *)
Definition supported (column_descriptor : ColumnDescriptor) : bool :=
  match physical_type column_descriptor with
  | BOOLEAN | INT32 | INT64 | FLOAT | DOUBLE => true
  | _ => false
  end.

End ApiCuda.

(** ** A column chunk of one plain data page *)

Module SinglePage.

(** The number of levels at the maximum: the values a page holds for
    them. *)
Definition present (max : Z) (levels : list Z) : nat :=
  length (filter (fun level => level = max) levels).

(** The state of the loop of [ToGdfColumn] after it has read [rows] rows
    of a page with definition levels [L] and values [V], through a plain
    decoder. *)
Definition reading (max n : Z) (L V : list Z) (rows : nat)
    (s : ColumnReader.loop_state) : Prop :=
  let r := ColumnReader.loop_reader s in
  let dense := present max (take rows L) in
  ColumnReader.rows_read_total s = Z.of_nat rows /\
  ColumnReader.values_read_counter s = Z.of_nat dense /\
  ColumnReader.max_definition_level (ColumnReader.descr_ r) = max /\
  ColumnReader.pager_ r = [] /\
  ColumnReader.num_buffered_values_ r = n /\
  ColumnReader.num_decoded_values_ r = Z.of_nat rows /\
  (exists key,
     ColumnReader.current_decoder_ r = Some key /\
     ColumnReader.decoders_ r !! key
     = Some (ColumnReader.PlainDecoder (drop dense V))) /\
  ColumnReader.definition_level_decoder_ r = drop rows L /\
  take rows (ColumnReader.loop_definition_levels s) = take rows L /\
  take dense (ColumnReader.loop_values s) = take dense V.

End SinglePage.

(** * Properties *)

(** ** Fixed-width integers *)

Lemma uint32_small (x : Z) : 0 <= x < 2 ^ 32 -> Ints.uint32 x = x.
Proof. intros Hx. unfold Ints.uint32, Ints.wrap_unsigned. apply Z.mod_small; lia. Qed.

Lemma uint64_small (x : Z) : 0 <= x < 2 ^ 64 -> Ints.uint64 x = x.
Proof. intros Hx. unfold Ints.uint64, Ints.wrap_unsigned. apply Z.mod_small; lia. Qed.

(** While [column_size + 7] fits a [size_t],
    [get_number_of_bytes_for_valid] does not wrap. *)
Lemma get_number_of_bytes_for_valid_small (n : Z) :
  0 <= n <= 2 ^ 64 - 8 ->
  ColumnReader.get_number_of_bytes_for_valid n
  = 1 * (n + ColumnReader.GDF_VALID_BITSIZE - 1)
    / ColumnReader.GDF_VALID_BITSIZE.
Proof.
  intros Hn. unfold ColumnReader.get_number_of_bytes_for_valid,
    ColumnReader.GDF_VALID_BITSIZE.
  rewrite (uint64_small (n + 8 - 1)) by lia.
  rewrite uint64_small by lia. reflexivity.
Qed.

Lemma uint32_range (x : Z) : 0 <= Ints.uint32 x < 2 ^ 32.
Proof. unfold Ints.uint32, Ints.wrap_unsigned. apply Z.mod_pos_bound. lia. Qed.

Lemma int32_small (x : Z) : - 2 ^ 31 <= x < 2 ^ 31 -> Ints.int32 x = x.
Proof.
  intros Hx. unfold Ints.int32, Ints.wrap_signed.
  change (32 - 1) with 31. rewrite Z.mod_small; lia.
Qed.


(** [memcpy_low] bit by bit: the low [8 * n] bits come from the bytes
    copied, the others are kept. *)
Lemma memcpy_low_testbit (n v old i : Z) :
  0 <= n -> 0 <= i ->
  Z.testbit (RleDecoder.memcpy_low n v old) i =
  if i <? 8 * n then Z.testbit v i else Z.testbit old i.
Proof.
  intros Hn Hi. unfold RleDecoder.memcpy_low.
  rewrite Z.lor_spec, Z.ldiff_spec, Z.land_spec.
  destruct (Z.ltb_spec i (8 * n)).
  - rewrite Z.ones_spec_low by lia. simpl.
    rewrite andb_false_r, andb_true_r. reflexivity.
  - rewrite Z.ones_spec_high by lia. simpl.
    rewrite andb_true_r, andb_false_r, orb_false_r. reflexivity.
Qed.

(** When both the bytes copied and the old value fit in [n] bytes, the
    result is the bytes copied. *)
Lemma memcpy_low_fits (n v old : Z) :
  0 <= n -> 0 <= v < 2 ^ (8 * n) -> 0 <= old < 2 ^ (8 * n) ->
  RleDecoder.memcpy_low n v old = v.
Proof.
  intros Hn Hv Hold. apply Z.bits_inj'. intros i Hi.
  rewrite memcpy_low_testbit by lia.
  destruct (Z.ltb_spec i (8 * n)); [reflexivity|].
  rewrite <- (Z.mod_small v (2 ^ (8 * n))) by lia.
  rewrite <- (Z.mod_small old (2 ^ (8 * n))) by lia.
  rewrite !Z.mod_pow2_bits_high by lia. reflexivity.
Qed.

(** ** The RLE decoder *)

Section RleFacts.

Context {R : Type} {ops : BitReader.Ops R}.
Variable castT : Z -> Z.

(** With both counters at zero, a pass through the loop body is a call of
    [NextCounts] and nothing else: no value is written or counted. *)
Lemma GetBatch_body_zero (batch_size : Z) (s : RleDecoder.loop_state R) :
  RleDecoder.repeat_count_ (RleDecoder.dec s) <= 0 ->
  RleDecoder.literal_count_ (RleDecoder.dec s) <= 0 ->
  RleDecoder.GetBatch_body castT batch_size s =
  (if fst (RleDecoder.NextCounts (RleDecoder.dec s))
   then inl else inr)
    {| RleDecoder.values := RleDecoder.values s;
       RleDecoder.values_read := RleDecoder.values_read s;
       RleDecoder.dec := snd (RleDecoder.NextCounts (RleDecoder.dec s)) |}.
Proof.
  intros Hr Hl. unfold RleDecoder.GetBatch_body.
  destruct (Z.ltb_spec 0 (RleDecoder.repeat_count_ (RleDecoder.dec s))); [lia|].
  destruct (Z.ltb_spec 0 (RleDecoder.literal_count_ (RleDecoder.dec s))); [lia|].
  destruct (RleDecoder.NextCounts (RleDecoder.dec s)) as [[|] d']; reflexivity.
Qed.

(** A pass with a counter above zero does not call [NextCounts]: it goes
    round again, and the bit reader is either untouched (repeated run) or
    advanced by the unpacking of literals only. *)
Lemma GetBatch_body_in_run (batch_size : Z) (s : RleDecoder.loop_state R) :
  let d := RleDecoder.dec s in
  0 < RleDecoder.repeat_count_ d \/ 0 < RleDecoder.literal_count_ d ->
  exists s',
    RleDecoder.GetBatch_body castT batch_size s = inl s' /\
    (RleDecoder.bit_reader_ (RleDecoder.dec s') = RleDecoder.bit_reader_ d \/
     exists n,
       RleDecoder.bit_reader_ (RleDecoder.dec s') =
       snd (BitReader.GetBatch (RleDecoder.bit_width_ d) n
              (RleDecoder.bit_reader_ d))).
Proof.
  intros d Hpos. unfold RleDecoder.GetBatch_body. fold d.
  destruct (Z.ltb_spec 0 (RleDecoder.repeat_count_ d)).
  - eexists. split; [reflexivity|]. left. reflexivity.
  - destruct (Z.ltb_spec 0 (RleDecoder.literal_count_ d)); [|lia].
    destruct (BitReader.GetBatch _ _ _) as [vs r] eqn:Hg.
    eexists. split; [reflexivity|]. right. eexists. cbn. rewrite Hg. reflexivity.
Qed.

(** In a repeated run whose counter fits an [int], a pass writes
    [min(batch_size - values_read, repeat_count_)] copies of
    [current_value_] and takes them off the counter. *)
Lemma GetBatch_body_repeated_run (batch_size : Z)
    (s : RleDecoder.loop_state R) :
  let d := RleDecoder.dec s in
  0 < RleDecoder.repeat_count_ d < 2 ^ 31 ->
  RleDecoder.values_read s < batch_size ->
  let repeat_batch :=
    Z.min (batch_size - RleDecoder.values_read s) (RleDecoder.repeat_count_ d)
  in
  0 < repeat_batch /\
  RleDecoder.GetBatch_body castT batch_size s =
  inl {| RleDecoder.values :=
           Mem.fill (RleDecoder.values s) (RleDecoder.values_read s)
             repeat_batch (castT (RleDecoder.current_value_ d));
         RleDecoder.values_read := RleDecoder.values_read s + repeat_batch;
         RleDecoder.dec :=
           {| RleDecoder.bit_reader_ := RleDecoder.bit_reader_ d;
              RleDecoder.bit_width_ := RleDecoder.bit_width_ d;
              RleDecoder.current_value_ := RleDecoder.current_value_ d;
              RleDecoder.repeat_count_ :=
                RleDecoder.repeat_count_ d - repeat_batch;
              RleDecoder.literal_count_ := RleDecoder.literal_count_ d |} |}.
Proof.
  intros d Hrc Hlt repeat_batch. split; [unfold repeat_batch; lia|].
  unfold RleDecoder.GetBatch_body. fold d.
  destruct (Z.ltb_spec 0 (RleDecoder.repeat_count_ d)); [|lia].
  rewrite int32_small by lia. fold repeat_batch.
  rewrite uint32_small by (unfold repeat_batch; lia). reflexivity.
Qed.


(** [NextCounts] sets one counter and leaves the other alone. *)
Lemma NextCounts_counters (d : RleDecoder.t R) :
  let d' := snd (RleDecoder.NextCounts d) in
  (RleDecoder.repeat_count_ d' = RleDecoder.repeat_count_ d \/
   RleDecoder.literal_count_ d' = RleDecoder.literal_count_ d) /\
  RleDecoder.bit_width_ d' = RleDecoder.bit_width_ d.
Proof.
  cbv zeta. unfold RleDecoder.NextCounts.
  destruct (BitReader.GetVlqInt _) as [[h|] r]; [|cbn; auto].
  destruct (Z.testbit h 0); [cbn; auto|].
  destruct (BitReader.GetAligned _ _) as [res r']; cbn. auto.
Qed.

(** Every pass through the loop body keeps the invariant of the
    counters. *)
Lemma GetBatch_body_counters_ok (batch_size : Z)
    (s s' : RleDecoder.loop_state R) :
  RleDecoder.counters_ok (RleDecoder.dec s) ->
  RleDecoder.GetBatch_body castT batch_size s = inl s' \/
  RleDecoder.GetBatch_body castT batch_size s = inr s' ->
  RleDecoder.counters_ok (RleDecoder.dec s').
Proof.
  unfold RleDecoder.counters_ok, RleDecoder.GetBatch_body. intros Hok Hb.
  destruct (Z.ltb_spec 0 (RleDecoder.repeat_count_ (RleDecoder.dec s))).
  { destruct Hb as [Hb|Hb]; [|discriminate]. injection Hb as <-. cbn. lia. }
  destruct (Z.ltb_spec 0 (RleDecoder.literal_count_ (RleDecoder.dec s))).
  { destruct (BitReader.GetBatch _ _ _) as [vs r].
    destruct Hb as [Hb|Hb]; [|discriminate]. injection Hb as <-. cbn. lia. }
  pose proof (NextCounts_counters (RleDecoder.dec s)) as [Hc _].
  destruct (RleDecoder.NextCounts (RleDecoder.dec s)) as [[|] d'];
    cbn in Hc; destruct Hb as [Hb|Hb]; try discriminate;
    injection Hb as <-; cbn; lia.
Qed.

Lemma GetBatch_loop_counters_ok (fuel : nat) (batch_size : Z)
    (s s' : RleDecoder.loop_state R) :
  RleDecoder.counters_ok (RleDecoder.dec s) ->
  RleDecoder.GetBatch_loop castT fuel batch_size s = Some s' ->
  RleDecoder.counters_ok (RleDecoder.dec s').
Proof.
  revert s. induction fuel as [|fuel IH]; intros s Hok; cbn; [discriminate|].
  destruct (RleDecoder.values_read s <? batch_size).
  - destruct (RleDecoder.GetBatch_body castT batch_size s) as [s1|s1] eqn:Hb.
    + apply IH. eapply GetBatch_body_counters_ok; eauto.
    + intros [= <-]. eapply GetBatch_body_counters_ok; eauto.
  - intros [= <-]. exact Hok.
Qed.

(** The result of the loop does not depend on the bound once it is
    reached. *)
Lemma GetBatch_loop_more_fuel (fuel extra : nat) (batch_size : Z)
    (s s' : RleDecoder.loop_state R) :
  RleDecoder.GetBatch_loop castT fuel batch_size s = Some s' ->
  RleDecoder.GetBatch_loop castT (fuel + extra) batch_size s = Some s'.
Proof.
  revert s. induction fuel as [|fuel IH]; intros s; cbn; [discriminate|].
  destruct (RleDecoder.values_read s <? batch_size); [|auto].
  destruct (RleDecoder.GetBatch_body castT batch_size s); auto.
Qed.

(** After [k] passes that went round again, the loop continues from the
    state they reached. *)
Lemma GetBatch_loop_passes (k fuel : nat) (batch_size : Z)
    (s s' : RleDecoder.loop_state R) :
  RleDecoder.GetBatch_passes castT k batch_size s = Some s' ->
  RleDecoder.GetBatch_loop castT (k + fuel) batch_size s =
  RleDecoder.GetBatch_loop castT fuel batch_size s'.
Proof.
  revert s. induction k as [|k IH]; intros s; cbn.
  - intros [= <-]. reflexivity.
  - destruct (RleDecoder.values_read s <? batch_size); [|discriminate].
    destruct (RleDecoder.GetBatch_body castT batch_size s); [|discriminate].
    apply IH.
Qed.

End RleFacts.

Section RleClaims.

Context {R : Type} {ops : BitReader.Ops R}.
Variable castT : Z -> Z.


(** Claim C7, as amended.  At most one of [repeat_count_] and
    [literal_count_] is positive after construction over a buffer, after
    [Reset] of any decoder, so also of a default-constructed one, and after
    every [GetBatch] and [Get] that starts from such a state.  A pass of the
    decoding loop that finds a counter positive does not read a run header:
    it leaves the bit reader alone or only unpacks literals from it.  A
    pass that finds both counters zero produces no value: all it does is
    read the next run header. *)
Theorem RleDecoder_counters_invariant :
  (forall buffer buffer_len bit_width,
     RleDecoder.counters_ok (RleDecoder.new (R := R) buffer buffer_len bit_width)) /\
  (forall buffer buffer_len bit_width (d : RleDecoder.t R),
     RleDecoder.counters_ok (RleDecoder.Reset buffer buffer_len bit_width d)) /\
  (forall buffer buffer_len bit_width (storage : RleDecoder.t R),
     RleDecoder.counters_ok
       (RleDecoder.Reset buffer buffer_len bit_width
          (RleDecoder.new_default storage))) /\
  (forall fuel vals batch_size (d : RleDecoder.t R) s,
     RleDecoder.counters_ok d ->
     RleDecoder.GetBatch castT fuel vals batch_size d = Some s ->
     RleDecoder.counters_ok (RleDecoder.dec s)) /\
  (forall fuel val (d : RleDecoder.t R) b v d',
     RleDecoder.counters_ok d ->
     RleDecoder.Get castT fuel val d = Some (b, v, d') ->
     RleDecoder.counters_ok d') /\
  (forall batch_size (s : RleDecoder.loop_state R),
     0 < RleDecoder.repeat_count_ (RleDecoder.dec s) \/
     0 < RleDecoder.literal_count_ (RleDecoder.dec s) ->
     exists s',
       RleDecoder.GetBatch_body castT batch_size s = inl s' /\
       (RleDecoder.bit_reader_ (RleDecoder.dec s') =
        RleDecoder.bit_reader_ (RleDecoder.dec s) \/
        exists n,
          RleDecoder.bit_reader_ (RleDecoder.dec s') =
          snd (BitReader.GetBatch (RleDecoder.bit_width_ (RleDecoder.dec s)) n
                 (RleDecoder.bit_reader_ (RleDecoder.dec s))))) /\
  (forall batch_size (s : RleDecoder.loop_state R),
     RleDecoder.repeat_count_ (RleDecoder.dec s) <= 0 ->
     RleDecoder.literal_count_ (RleDecoder.dec s) <= 0 ->
     RleDecoder.GetBatch_body castT batch_size s =
     (if fst (RleDecoder.NextCounts (RleDecoder.dec s)) then inl else inr)
       {| RleDecoder.values := RleDecoder.values s;
          RleDecoder.values_read := RleDecoder.values_read s;
          RleDecoder.dec := snd (RleDecoder.NextCounts (RleDecoder.dec s)) |}).
Proof.
  repeat split.
  - unfold RleDecoder.counters_ok. cbn. lia.
  - unfold RleDecoder.counters_ok. cbn. lia.
  - unfold RleDecoder.counters_ok. cbn. lia.
  - intros fuel vals batch_size d s Hok Hg.
    unfold RleDecoder.GetBatch in Hg.
    eapply GetBatch_loop_counters_ok; [|exact Hg]. exact Hok.
  - intros fuel val d b v d' Hok Hg. unfold RleDecoder.Get in Hg.
    destruct (RleDecoder.GetBatch castT fuel [val] 1 d) as [s|] eqn:Hs;
      [|discriminate].
    injection Hg as _ _ <-.
    unfold RleDecoder.GetBatch in Hs.
    eapply GetBatch_loop_counters_ok; [|exact Hs]. exact Hok.
  - intros batch_size s. apply GetBatch_body_in_run.
  - intros batch_size s. apply GetBatch_body_zero.
Qed.

End RleClaims.

(** *** The RLE decoder on concrete pages *)



(** Claim C5 on the page [03 09 08], which holds the header of a literal
    run of eight values and two of them.  Asked for ten values of eight
    bits, [GetBatch] takes the two values the bit reader delivers, adds the
    eight it asked for to its count, fails to read a further header and
    returns 8.  Of the eight values reported the call has written two, 9
    and 8; the other six are the zeros the caller's array held. *)
Lemma GetBatch_counts_values_not_decoded :
  let d := RleDecoder.new (R := BitStream.t) [3; 9; 8] 3 8 in
  let header_read :=
    {| BitStream.buffer_ := [3; 9; 8]; BitStream.max_bytes_ := 3;
       BitStream.byte_offset_ := 1; BitStream.bit_offset_ := 0 |} in
  BitReader.GetVlqInt (RleDecoder.bit_reader_ d) = (Some 3, header_read) /\
  fst (BitReader.GetBatch 8 8 header_read) = [9; 8] /\
  exists s,
    RleDecoder.GetBatch (fun x => x) 3 (replicate 10 0) 10 d = Some s /\
    RleDecoder.values_read s = 8 /\
    RleDecoder.values s = [9; 8; 0; 0; 0; 0; 0; 0; 0; 0] /\
    fst (BitReader.GetVlqInt (RleDecoder.bit_reader_ (RleDecoder.dec s)))
    = None.
Proof.
  intros d header_read.
  split; [vm_compute; reflexivity|]. split; [vm_compute; reflexivity|].
  eexists. split; [vm_compute; reflexivity|].
  split; [reflexivity|]. split; [reflexivity|]. vm_compute. reflexivity.
Qed.

(** Counterexample to claim C7 as stated.  [RleDecoder()] initialises
    [bit_width_] alone: where the storage of the object held 1 in both
    counters, both counters of the decoder constructed are positive. *)
Lemma default_constructor_leaves_counters :
  let storage :=
    {| RleDecoder.bit_reader_ := BitStream.new [] 0;
       RleDecoder.bit_width_ := 0; RleDecoder.current_value_ := 0;
       RleDecoder.repeat_count_ := 1; RleDecoder.literal_count_ := 1 |} in
  let d := RleDecoder.new_default storage in
  RleDecoder.bit_width_ d = -1 /\
  RleDecoder.repeat_count_ d = 1 /\ RleDecoder.literal_count_ d = 1 /\
  ~ RleDecoder.counters_ok d.
Proof.
  intros storage d. split; [reflexivity|]. split; [reflexivity|].
  split; [reflexivity|]. unfold RleDecoder.counters_ok. cbn. lia.
Qed.

(** The invariant on a concrete decode. *)
Lemma RleDecoder_counters_invariant_witness :
  let d := RleDecoder.new (R := BitStream.t) [6; 42] 2 8 in
  RleDecoder.counters_ok d /\
  exists s,
    RleDecoder.GetBatch (fun x => x) 3 [0; 0] 2 d = Some s /\
    RleDecoder.repeat_count_ (RleDecoder.dec s) = 1 /\
    RleDecoder.counters_ok (RleDecoder.dec s).
Proof.
  intros d.
  pose proof (RleDecoder_counters_invariant (R := BitStream.t) (fun x => x))
    as (Hnew & _ & _ & Hbatch & _).
  split; [apply Hnew|].
  eexists. split; [vm_compute; reflexivity|]. split; [reflexivity|].
  eapply (Hbatch 3%nat [0; 0] 2 d); [apply Hnew|].
  vm_compute. reflexivity.
Defined.

(** Claim C8 on the page [03 09 08]: the page is decoded for ten values
    into an array of zeros, the decoder reset over the same page, which
    makes it the new decoder again, and the page decoded into an array of
    nines.  Both calls report eight values and write two: of the eight
    values reported, six are what the caller's array held.  The values
    differ between the two decodes, and so does the null count computed
    from them as definition levels with maximum 9. *)
Lemma decode_after_Reset_differs_on_short_page :
  let buffer := [3; 9; 8] in
  exists s1 s2 m1 m2,
    RleDecoder.GetBatch (fun x => x) 3 (replicate 10 0) 10
      (RleDecoder.new (R := BitStream.t) buffer 3 8) = Some s1 /\
    RleDecoder.GetBatch (fun x => x) 3 (replicate 10 9) 10
      (RleDecoder.Reset buffer 3 8 (RleDecoder.dec s1)) = Some s2 /\
    RleDecoder.Reset buffer 3 8 (RleDecoder.dec s1)
    = RleDecoder.new (R := BitStream.t) buffer 3 8 /\
    RleDecoder.values_read s1 = 8 /\ RleDecoder.values_read s2 = 8 /\
    take 8 (RleDecoder.values s1) = [9; 8; 0; 0; 0; 0; 0; 0] /\
    take 8 (RleDecoder.values s2) = [9; 8; 9; 9; 9; 9; 9; 9] /\
    Levels._DefinitionLevelsToBitmap' (RleDecoder.values s1)
      (RleDecoder.values_read s1) 9 0 0 [0] 0 = inr m1 /\
    Levels._DefinitionLevelsToBitmap' (RleDecoder.values s2)
      (RleDecoder.values_read s2) 9 0 0 [0] 0 = inr m2 /\
    Levels.null_count m1 = 7 /\ Levels.null_count m2 = 1.
Proof.
  intros buffer. eexists. eexists. eexists. eexists.
  split; [vm_compute; reflexivity|]. split; [vm_compute; reflexivity|].
  split; [vm_compute; reflexivity|].
  split; [reflexivity|]. split; [reflexivity|].
  split; [reflexivity|]. split; [reflexivity|].
  split; [vm_compute; reflexivity|]. split; [vm_compute; reflexivity|].
  split; reflexivity.
Qed.

(** ** Validity bitmaps *)

Lemma or_bit_length (i : Z) (bits : list Z) :
  length (BitmapWriter.or_bit i bits) = length bits.
Proof.
  unfold BitmapWriter.or_bit. destruct (i <? 0); [reflexivity|].
  apply length_alter.
Qed.

Lemma and_not_bit_length (i : Z) (bits : list Z) :
  length (BitmapWriter.and_not_bit i bits) = length bits.
Proof.
  unfold BitmapWriter.and_not_bit. destruct (i <? 0); [reflexivity|].
  apply length_alter.
Qed.

(** Two bit positions with the same byte and the same bit in the byte are
    the same. *)
Lemma bit_position_inj (i j : Z) :
  0 <= i -> 0 <= j ->
  Z.to_nat (i / 8) = Z.to_nat (j / 8) -> i mod 8 = j mod 8 -> i = j.
Proof.
  intros Hi Hj Hd Hm.
  pose proof (Z.div_mod i 8 ltac:(lia)). pose proof (Z.div_mod j 8 ltac:(lia)).
  pose proof (Z.div_pos i 8 Hi ltac:(lia)).
  pose proof (Z.div_pos j 8 Hj ltac:(lia)). lia.
Qed.

(** A bit outside the bitmap reads as unset. *)
Lemma GetBit_outside (bits : list Z) (j : Z) :
  8 * Z.of_nat (length bits) <= j -> BitmapWriter.GetBit bits j = false.
Proof.
  intros Hj. unfold BitmapWriter.GetBit.
  rewrite lookup_ge_None_2; [apply Z.bits_0|].
  assert (Z.of_nat (length bits) <= j / 8)
    by (apply Z.div_le_lower_bound; lia).
  lia.
Qed.

(** Setting bit [i], seen from a bit [j] of the bitmap. *)
Lemma GetBit_or_bit (bits : list Z) (i j : Z) :
  0 <= i -> 0 <= j < 8 * Z.of_nat (length bits) ->
  BitmapWriter.GetBit (BitmapWriter.or_bit i bits) j =
  if bool_decide (i = j) then true else BitmapWriter.GetBit bits j.
Proof.
  intros Hi Hj. unfold BitmapWriter.GetBit, BitmapWriter.or_bit.
  destruct (Z.ltb_spec i 0); [lia|].
  pose proof (Z.mod_pos_bound i 8 ltac:(lia)) as Him.
  pose proof (Z.mod_pos_bound j 8 ltac:(lia)) as Hjm.
  destruct (decide (Z.to_nat (i / 8) = Z.to_nat (j / 8))) as [Heq|Hne].
  - rewrite <- Heq, list_lookup_alter_eq.
    destruct (bits !! Z.to_nat (i / 8)) as [b|] eqn:Hb.
    + cbn. rewrite Z.lor_spec, Z.shiftl_1_l, Z.pow2_bits_eqb by lia.
      case_bool_decide as Hij.
      * subst j. rewrite Z.eqb_refl. apply orb_true_r.
      * destruct (Z.eqb_spec (i mod 8) (j mod 8)) as [Hm|Hm];
          [|apply orb_false_r].
        exfalso. apply Hij. apply bit_position_inj; auto; lia.
    + apply lookup_ge_None in Hb.
      assert (j / 8 < Z.of_nat (length bits))
        by (apply Z.div_lt_upper_bound; lia).
      pose proof (Z.div_pos j 8 ltac:(lia) ltac:(lia)). lia.
  - rewrite list_lookup_alter_ne by exact Hne.
    case_bool_decide as Hij; [|reflexivity]. subst j. congruence.
Qed.

(** Clearing bit [i], seen from a bit [j] of the bitmap. *)
Lemma GetBit_and_not_bit (bits : list Z) (i j : Z) :
  0 <= i -> 0 <= j < 8 * Z.of_nat (length bits) ->
  BitmapWriter.GetBit (BitmapWriter.and_not_bit i bits) j =
  if bool_decide (i = j) then false else BitmapWriter.GetBit bits j.
Proof.
  intros Hi Hj. unfold BitmapWriter.GetBit, BitmapWriter.and_not_bit.
  destruct (Z.ltb_spec i 0); [lia|].
  pose proof (Z.mod_pos_bound i 8 ltac:(lia)) as Him.
  pose proof (Z.mod_pos_bound j 8 ltac:(lia)) as Hjm.
  destruct (decide (Z.to_nat (i / 8) = Z.to_nat (j / 8))) as [Heq|Hne].
  - rewrite <- Heq, list_lookup_alter_eq.
    destruct (bits !! Z.to_nat (i / 8)) as [b|] eqn:Hb.
    + cbn. rewrite Z.land_spec, Z.lxor_spec, Z.shiftl_1_l,
        Z.pow2_bits_eqb by lia.
      change 255 with (Z.ones 8). rewrite Z.ones_spec_low by lia.
      case_bool_decide as Hij.
      * subst j. rewrite Z.eqb_refl. apply andb_false_r.
      * destruct (Z.eqb_spec (i mod 8) (j mod 8)) as [Hm|Hm];
          [|apply andb_true_r].
        exfalso. apply Hij. apply bit_position_inj; auto; lia.
    + apply lookup_ge_None in Hb.
      assert (j / 8 < Z.of_nat (length bits))
        by (apply Z.div_lt_upper_bound; lia).
      pose proof (Z.div_pos j 8 ltac:(lia) ltac:(lia)). lia.
  - rewrite list_lookup_alter_ne by exact Hne.
    case_bool_decide as Hij; [|reflexivity]. subst j. congruence.
Qed.

(** Without repetition levels the two [_DefinitionLevelsToBitmap] run the
    same loop. *)
Lemma DefinitionLevelsToBitmap_loop_flat (def_levels : list Z)
    (max_definition_level max_repetition_level : Z)
    (w : BitmapWriter.t) (null_count : Z) :
  max_repetition_level <= 0 ->
  Levels._DefinitionLevelsToBitmap_loop def_levels max_definition_level
    max_repetition_level w null_count =
  Levels._DefinitionLevelsToBitmap'_loop def_levels max_definition_level
    w null_count.
Proof.
  intros Hrep. revert w null_count.
  induction def_levels as [|level rest IH]; intros w null_count; cbn;
    [reflexivity|].
  destruct (Z.ltb_spec 0 max_repetition_level); [lia|].
  rewrite !IH. reflexivity.
Qed.

(** [count_below], level by level. *)
Lemma count_below_cons (max_definition_level level : Z) (rest : list Z) :
  Levels.count_below max_definition_level (level :: rest) =
  (if bool_decide (level < max_definition_level) then 1 else 0)
  + Levels.count_below max_definition_level rest.
Proof.
  unfold Levels.count_below. rewrite filter_cons.
  case_bool_decide as Hlt.
  - rewrite decide_True by exact Hlt. cbn [length]. lia.
  - rewrite decide_False by exact Hlt. lia.
Qed.

(** One more level in front: the bits after writing the bit of the first
    level and then those of the others. *)
Lemma GetBit_levels_cons (bits bits' bits'' : list Z) (first : Z)
    (level : Z) (rest : list Z) (max_definition_level : Z) (b : bool) :
  0 <= first ->
  b = bool_decide (level = max_definition_level) ->
  length bits' = length bits ->
  (forall j, 0 <= j < 8 * Z.of_nat (length bits) ->
     BitmapWriter.GetBit bits' j =
     if bool_decide (first = j) then b else BitmapWriter.GetBit bits j) ->
  (forall j, 0 <= j < 8 * Z.of_nat (length bits') ->
     BitmapWriter.GetBit bits'' j =
     if bool_decide (first + 1 <= j < first + 1 + Z.of_nat (length rest))
     then bool_decide (rest !! Z.to_nat (j - (first + 1))
                       = Some max_definition_level)
     else BitmapWriter.GetBit bits' j) ->
  forall j, 0 <= j < 8 * Z.of_nat (length bits) ->
    BitmapWriter.GetBit bits'' j =
    if bool_decide (first <= j < first + Z.of_nat (length (level :: rest)))
    then bool_decide ((level :: rest) !! Z.to_nat (j - first)
                      = Some max_definition_level)
    else BitmapWriter.GetBit bits j.
Proof.
  intros Hfirst Hb Hlen Hone Hrest j Hj.
  rewrite (Hrest j) by lia. rewrite (Hone j Hj).
  cbn [length]. destruct (Z.lt_trichotomy j first) as [Hlt|[Heq|Hgt]].
  - rewrite (bool_decide_eq_false_2 (first + 1 <= j < _)) by lia.
    rewrite (bool_decide_eq_false_2 (first = j)) by lia.
    rewrite (bool_decide_eq_false_2 (first <= j < _)) by lia. reflexivity.
  - subst j.
    rewrite (bool_decide_eq_false_2 (first + 1 <= first < _)) by lia.
    rewrite (bool_decide_eq_true_2 (first = first)) by lia.
    rewrite (bool_decide_eq_true_2 (first <= first < _)) by lia.
    rewrite Z.sub_diag. change (Z.to_nat 0) with O. cbn [lookup list_lookup].
    rewrite Hb. apply bool_decide_ext. split; congruence.
  - rewrite (bool_decide_eq_false_2 (first = j)) by lia.
    destruct (Z.lt_ge_cases j (first + 1 + Z.of_nat (length rest))).
    + rewrite (bool_decide_eq_true_2 (first + 1 <= j < _)) by lia.
      rewrite (bool_decide_eq_true_2 (first <= j < _)) by lia.
      replace (Z.to_nat (j - first)) with (S (Z.to_nat (j - (first + 1))))
        by lia.
      reflexivity.
    + rewrite (bool_decide_eq_false_2 (first + 1 <= j < _)) by lia.
      rewrite (bool_decide_eq_false_2 (first <= j < _)) by lia. reflexivity.
Qed.

(** The loop over levels none of which exceeds the maximum: it ends
    normally, one position further for each level; each bit of the bitmap
    at the position of a level is set or cleared by it, and every other bit
    is as it was. *)
Lemma DefinitionLevelsToBitmap'_loop_spec (levels : list Z)
    (max_definition_level : Z) (w : BitmapWriter.t) (null_count : Z) :
  Forall (fun level => level <= max_definition_level) levels ->
  0 <= BitmapWriter.start_offset_ w + BitmapWriter.position_ w ->
  exists w',
    Levels._DefinitionLevelsToBitmap'_loop levels max_definition_level
      w null_count
    = inr (w', null_count + Levels.count_below max_definition_level levels) /\
    BitmapWriter.position_ w' =
      BitmapWriter.position_ w + Z.of_nat (length levels) /\
    BitmapWriter.start_offset_ w' = BitmapWriter.start_offset_ w /\
    length (BitmapWriter.bitmap_ w') = length (BitmapWriter.bitmap_ w) /\
    forall j, 0 <= j < 8 * Z.of_nat (length (BitmapWriter.bitmap_ w)) ->
      BitmapWriter.GetBit (BitmapWriter.bitmap_ w') j =
      if bool_decide
           (BitmapWriter.start_offset_ w + BitmapWriter.position_ w <= j
            < BitmapWriter.start_offset_ w + BitmapWriter.position_ w
              + Z.of_nat (length levels))
      then bool_decide
             (levels !! Z.to_nat (j - (BitmapWriter.start_offset_ w
                                       + BitmapWriter.position_ w))
              = Some max_definition_level)
      else BitmapWriter.GetBit (BitmapWriter.bitmap_ w) j.
Proof.
  revert w null_count.
  induction levels as [|level rest IH]; intros w null_count Hall Hlo.
  - exists w. cbn. unfold Levels.count_below. cbn. rewrite Z.add_0_r.
    repeat split; try lia. intros j Hj.
    rewrite bool_decide_eq_false_2 by lia. reflexivity.
  - apply Forall_cons in Hall as [Hlevel Hrest].
    cbn [Levels._DefinitionLevelsToBitmap'_loop].
    destruct (Z.eqb_spec level max_definition_level) as [Heq|Hne].
    + destruct (IH (BitmapWriter.Next (BitmapWriter.Set_ w)) null_count Hrest)
        as (w' & Hrun & Hpos & Hstart & Hlen & Hbits).
      { cbn. lia. }
      cbn [BitmapWriter.Next BitmapWriter.Set_ BitmapWriter.start_offset_
           BitmapWriter.position_ BitmapWriter.bitmap_]
        in Hpos, Hstart, Hlen, Hbits.
      exists w'. split.
      { rewrite Hrun, count_below_cons.
        rewrite bool_decide_eq_false_2 by lia. reflexivity. }
      split; [cbn [length]; lia|]. split; [exact Hstart|].
      split; [rewrite Hlen; apply or_bit_length|].
      eapply GetBit_levels_cons with (b := true);
        [exact Hlo| |apply or_bit_length|
         intros j Hj; apply GetBit_or_bit; lia|].
      { rewrite bool_decide_eq_true_2 by exact Heq. reflexivity. }
      intros j Hj. rewrite (Hbits j Hj).
      replace (BitmapWriter.start_offset_ w + (BitmapWriter.position_ w + 1))
        with (BitmapWriter.start_offset_ w + BitmapWriter.position_ w + 1)
        by lia.
      reflexivity.
    + destruct (Z.ltb_spec level max_definition_level) as [Hlt|Hge]; [|lia].
      destruct (IH (BitmapWriter.Next (BitmapWriter.Clear w))
                   (null_count + 1) Hrest)
        as (w' & Hrun & Hpos & Hstart & Hlen & Hbits).
      { cbn. lia. }
      cbn [BitmapWriter.Next BitmapWriter.Clear BitmapWriter.start_offset_
           BitmapWriter.position_ BitmapWriter.bitmap_]
        in Hpos, Hstart, Hlen, Hbits.
      exists w'. split.
      { rewrite Hrun, count_below_cons.
        rewrite bool_decide_eq_true_2 by lia.
        apply f_equal. apply f_equal. lia. }
      split; [cbn [length]; lia|]. split; [exact Hstart|].
      split; [rewrite Hlen; apply and_not_bit_length|].
      eapply GetBit_levels_cons with (b := false);
        [exact Hlo| |apply and_not_bit_length|
         intros j Hj; apply GetBit_and_not_bit; lia|].
      { rewrite bool_decide_eq_false_2 by exact Hne. reflexivity. }
      intros j Hj. rewrite (Hbits j Hj).
      replace (BitmapWriter.start_offset_ w + (BitmapWriter.position_ w + 1))
        with (BitmapWriter.start_offset_ w + BitmapWriter.position_ w + 1)
        by lia.
      reflexivity.
Qed.

(** A level above the maximum stops the loop of the second
    [_DefinitionLevelsToBitmap] with an exception. *)
Lemma DefinitionLevelsToBitmap'_loop_exceeds (levels : list Z)
    (max_definition_level : Z) (w : BitmapWriter.t) (null_count : Z) :
  Exists (fun level => max_definition_level < level) levels ->
  Levels._DefinitionLevelsToBitmap'_loop levels max_definition_level
    w null_count
  = inl (ParquetException "definition level exceeds maximum").
Proof.
  revert w null_count.
  induction levels as [|level rest IH]; intros w null_count Hex.
  - inversion Hex.
  - cbn [Levels._DefinitionLevelsToBitmap'_loop].
    destruct (Z.eqb_spec level max_definition_level) as [Heq|Hne].
    + apply IH. apply Exists_cons in Hex as [Hhd|Htl]; [lia|exact Htl].
    + destruct (Z.ltb_spec level max_definition_level) as [Hlt|Hge];
        [|reflexivity].
      apply IH. apply Exists_cons in Hex as [Hhd|Htl]; [lia|exact Htl].
Qed.

(** With repetition levels the loop skips every level that is neither the
    maximum nor one below it, and it never throws. *)
Lemma DefinitionLevelsToBitmap_loop_repeated (levels : list Z)
    (max_definition_level max_repetition_level : Z)
    (w : BitmapWriter.t) (null_count : Z) :
  0 < max_repetition_level ->
  Levels._DefinitionLevelsToBitmap_loop levels max_definition_level
    max_repetition_level w null_count =
  Levels._DefinitionLevelsToBitmap_loop
    (filter (fun level => level = max_definition_level
                          \/ level = max_definition_level - 1) levels)
    max_definition_level max_repetition_level w null_count /\
  exists w' n,
    Levels._DefinitionLevelsToBitmap_loop levels max_definition_level
      max_repetition_level w null_count = inr (w', n).
Proof.
  intros Hrep. revert w null_count.
  induction levels as [|level rest IH]; intros w null_count.
  - split; [reflexivity|]. cbn. eauto.
  - rewrite filter_cons. cbn [Levels._DefinitionLevelsToBitmap_loop].
    destruct (Z.ltb_spec 0 max_repetition_level); [|lia].
    destruct (Z.eqb_spec level max_definition_level) as [Heq|Hne].
    + rewrite decide_True by (left; exact Heq).
      cbn [Levels._DefinitionLevelsToBitmap_loop].
      destruct (Z.eqb_spec level max_definition_level); [|lia]. apply IH.
    + destruct (Z.eqb_spec level (max_definition_level - 1)) as [Heq1|Hne1].
      * rewrite decide_True by (right; exact Heq1).
        cbn [Levels._DefinitionLevelsToBitmap_loop].
        destruct (Z.eqb_spec level max_definition_level); [lia|].
        destruct (Z.ltb_spec 0 max_repetition_level); [|lia].
        destruct (Z.eqb_spec level (max_definition_level - 1)); [|lia].
        apply IH.
      * rewrite decide_False by lia. apply IH.
Qed.

(** [_GenerateNullBitmap] counts every level other than [file_level]. *)
Lemma GenerateNullBitmap_loop_count (levels : list Z) (i file_level : Z)
    (null_bitmap_ptr : list Z) (null_count : Z) :
  fst (Levels._GenerateNullBitmap_loop levels i file_level
         null_bitmap_ptr null_count) =
  null_count
  + Z.of_nat (length (filter (fun level => level <> file_level) levels)).
Proof.
  revert i null_bitmap_ptr null_count.
  induction levels as [|level rest IH]; intros i bits null_count.
  - cbn. lia.
  - rewrite filter_cons. cbn [Levels._GenerateNullBitmap_loop].
    destruct (Z.eqb_spec level file_level) as [Heq|Hne].
    + rewrite decide_False by lia. apply IH.
    + rewrite decide_True by lia. rewrite IH. cbn [length]. lia.
Qed.

(** Claim C2.  Without repetition levels, for a level array of length [L]
    whose levels are all at most [max_definition_level] and a bitmap with
    room for [L] bits from the offset, each [_DefinitionLevelsToBitmap]
    ends normally: bit [i] of the range is set if and only if [levels[i]]
    equals [max_definition_level], the bits outside the range are as they
    were, and the null count has grown by the number of levels strictly
    below the maximum.  For the levels [2,2,1,2,0,2] with maximum 2 the mask
    bits are [1,1,0,1,0,1] and the null count is 2. *)
Theorem DefinitionLevelsToBitmap_valid_iff_max :
  (forall (def_levels : list Z) (max_definition_level null_count : Z)
          (valid_bits : list Z) (valid_bits_offset : Z),
     let L := Z.of_nat (length def_levels) in
     Forall (fun level => level <= max_definition_level) def_levels ->
     0 <= valid_bits_offset ->
     valid_bits_offset + L <= 8 * Z.of_nat (length valid_bits) ->
     exists res,
       Levels._DefinitionLevelsToBitmap def_levels L max_definition_level 0
         null_count valid_bits valid_bits_offset = inr res /\
       (forall values_read,
          Levels._DefinitionLevelsToBitmap' def_levels L max_definition_level
            values_read null_count valid_bits valid_bits_offset
          = inr {| Levels.values_read := values_read;
                   Levels.null_count := Levels.null_count res;
                   Levels.valid_bits := Levels.valid_bits res |}) /\
       (forall (i : nat) level,
          def_levels !! i = Some level ->
          BitmapWriter.GetBit (Levels.valid_bits res)
            (valid_bits_offset + Z.of_nat i)
          = bool_decide (level = max_definition_level)) /\
       Levels.null_count res =
         null_count + Levels.count_below max_definition_level def_levels /\
       Levels.values_read res = L /\
       length (Levels.valid_bits res) = length valid_bits /\
       (forall j, 0 <= j ->
          ~ (valid_bits_offset <= j < valid_bits_offset + L) ->
          BitmapWriter.GetBit (Levels.valid_bits res) j
          = BitmapWriter.GetBit valid_bits j)) /\
  (forall uninit,
     exists res,
       Levels._DefinitionLevelsToBitmap [2; 2; 1; 2; 0; 2] 6 2 0 0
         [uninit] 0 = inr res /\
       Levels._DefinitionLevelsToBitmap' [2; 2; 1; 2; 0; 2] 6 2 0 0
         [uninit] 0
       = inr {| Levels.values_read := 0;
                Levels.null_count := Levels.null_count res;
                Levels.valid_bits := Levels.valid_bits res |} /\
       map (BitmapWriter.GetBit (Levels.valid_bits res)) [0; 1; 2; 3; 4; 5]
       = [true; true; false; true; false; true] /\
       Levels.null_count res = 2).
Proof.
  assert (Hgen : forall (def_levels : list Z)
            (max_definition_level null_count : Z)
            (valid_bits : list Z) (valid_bits_offset : Z),
     let L := Z.of_nat (length def_levels) in
     Forall (fun level => level <= max_definition_level) def_levels ->
     0 <= valid_bits_offset ->
     valid_bits_offset + L <= 8 * Z.of_nat (length valid_bits) ->
     exists res,
       Levels._DefinitionLevelsToBitmap def_levels L max_definition_level 0
         null_count valid_bits valid_bits_offset = inr res /\
       (forall values_read,
          Levels._DefinitionLevelsToBitmap' def_levels L max_definition_level
            values_read null_count valid_bits valid_bits_offset
          = inr {| Levels.values_read := values_read;
                   Levels.null_count := Levels.null_count res;
                   Levels.valid_bits := Levels.valid_bits res |}) /\
       (forall (i : nat) level,
          def_levels !! i = Some level ->
          BitmapWriter.GetBit (Levels.valid_bits res)
            (valid_bits_offset + Z.of_nat i)
          = bool_decide (level = max_definition_level)) /\
       Levels.null_count res =
         null_count + Levels.count_below max_definition_level def_levels /\
       Levels.values_read res = L /\
       length (Levels.valid_bits res) = length valid_bits /\
       (forall j, 0 <= j ->
          ~ (valid_bits_offset <= j < valid_bits_offset + L) ->
          BitmapWriter.GetBit (Levels.valid_bits res) j
          = BitmapWriter.GetBit valid_bits j)).
  { intros def_levels max_definition_level null_count valid_bits
      valid_bits_offset L Hall Hoff Hroom.
    unfold Levels._DefinitionLevelsToBitmap, Levels._DefinitionLevelsToBitmap'.
    unfold L. rewrite Nat2Z.id, firstn_all.
    rewrite DefinitionLevelsToBitmap_loop_flat by lia.
    destruct (DefinitionLevelsToBitmap'_loop_spec def_levels
                max_definition_level
                (BitmapWriter.new valid_bits valid_bits_offset
                   (Z.of_nat (length def_levels))) null_count Hall)
      as (w' & Hrun & Hpos & Hstart & Hlen & Hbits).
    { cbn. lia. }
    cbn [BitmapWriter.new BitmapWriter.start_offset_ BitmapWriter.position_
         BitmapWriter.bitmap_] in Hpos, Hstart, Hlen, Hbits.
    rewrite Z.add_0_r in Hbits. rewrite Hrun.
    eexists. split; [reflexivity|]. cbn.
    split; [reflexivity|]. split.
    { intros i level Hi. pose proof (lookup_lt_Some _ _ _ Hi).
      rewrite Hbits by (unfold L in Hroom; lia).
      rewrite bool_decide_eq_true_2 by lia.
      replace (Z.to_nat (valid_bits_offset + Z.of_nat i - valid_bits_offset))
        with i by lia.
      rewrite Hi. apply bool_decide_ext. split; congruence. }
    split; [reflexivity|]. split; [unfold BitmapWriter.position; lia|].
    split; [exact Hlen|].
    intros j Hj Hout.
    destruct (Z.lt_ge_cases j (8 * Z.of_nat (length valid_bits))).
    - rewrite Hbits by lia.
      rewrite bool_decide_eq_false_2 by (unfold L in Hout; lia). reflexivity.
    - rewrite !GetBit_outside by lia. reflexivity. }
  split; [exact Hgen|].
  intros uninit.
  destruct (Hgen [2; 2; 1; 2; 0; 2] 2 0 [uninit] 0)
    as (res & Hrun & Hrun' & Hbits & Hnull & _).
  { repeat constructor; lia. }
  { lia. }
  { cbn. lia. }
  exists res. split; [exact Hrun|]. split; [apply Hrun'|]. split.
  - change [0; 1; 2; 3; 4; 5]
      with (map (fun i => 0 + Z.of_nat i) [0; 1; 2; 3; 4; 5]%nat).
    cbn [map].
    rewrite (Hbits 0%nat 2 eq_refl), (Hbits 1%nat 2 eq_refl),
      (Hbits 2%nat 1 eq_refl), (Hbits 3%nat 2 eq_refl),
      (Hbits 4%nat 0 eq_refl), (Hbits 5%nat 2 eq_refl).
    reflexivity.
  - rewrite Hnull. reflexivity.
Qed.

(** Levels above the maximum in the bitmap-building steps.  Without
    repetition levels ([max_repetition_level <= 0]), and in the
    [_DefinitionLevelsToBitmap] that takes no repetition level, a level
    strictly greater than [max_definition_level] makes the step throw
    "definition level exceeds maximum".  With repetition levels
    ([max_repetition_level > 0]) the step never throws: a level that is
    neither the maximum nor one below it, so also one above the maximum, is
    passed over, and the result is that of the array without such levels.
    [_GenerateNullBitmap] does not throw either: it counts every level
    other than the maximum as a null. *)
Lemma DefinitionLevelsToBitmap_level_exceeds :
  (forall def_levels num_def_levels max_definition_level max_repetition_level
          null_count valid_bits valid_bits_offset,
     max_repetition_level <= 0 ->
     Exists (fun level => max_definition_level < level)
            (take (Z.to_nat num_def_levels) def_levels) ->
     Levels._DefinitionLevelsToBitmap def_levels num_def_levels
       max_definition_level max_repetition_level null_count valid_bits
       valid_bits_offset
     = inl (ParquetException "definition level exceeds maximum")) /\
  (forall def_levels levels_length max_definition_level values_read
          null_count null_bitmap_ptr valid_bits_offset,
     Exists (fun level => max_definition_level < level)
            (take (Z.to_nat levels_length) def_levels) ->
     Levels._DefinitionLevelsToBitmap' def_levels levels_length
       max_definition_level values_read null_count null_bitmap_ptr
       valid_bits_offset
     = inl (ParquetException "definition level exceeds maximum")) /\
  (forall def_levels num_def_levels max_definition_level max_repetition_level
          null_count valid_bits valid_bits_offset,
     0 < max_repetition_level ->
     (exists res,
        Levels._DefinitionLevelsToBitmap def_levels num_def_levels
          max_definition_level max_repetition_level null_count valid_bits
          valid_bits_offset = inr res) /\
     Levels._DefinitionLevelsToBitmap_loop
       (take (Z.to_nat num_def_levels) def_levels)
       max_definition_level max_repetition_level
       (BitmapWriter.new valid_bits valid_bits_offset num_def_levels)
       null_count =
     Levels._DefinitionLevelsToBitmap_loop
       (filter (fun level => level = max_definition_level
                             \/ level = max_definition_level - 1)
               (take (Z.to_nat num_def_levels) def_levels))
       max_definition_level max_repetition_level
       (BitmapWriter.new valid_bits valid_bits_offset num_def_levels)
       null_count) /\
  (forall levels levels_length file_level null_bitmap_ptr,
     fst (Levels._GenerateNullBitmap levels levels_length file_level
            null_bitmap_ptr) =
     Z.of_nat (length (filter (fun level => level <> file_level)
                              (take (Z.to_nat levels_length) levels)))).
Proof.
  repeat split.
  - intros def_levels n max_def max_rep nc bits off Hrep Hex.
    unfold Levels._DefinitionLevelsToBitmap.
    rewrite DefinitionLevelsToBitmap_loop_flat by exact Hrep.
    rewrite DefinitionLevelsToBitmap'_loop_exceeds by exact Hex. reflexivity.
  - intros def_levels n max_def vr nc bits off Hex.
    unfold Levels._DefinitionLevelsToBitmap'.
    rewrite DefinitionLevelsToBitmap'_loop_exceeds by exact Hex. reflexivity.
  - unfold Levels._DefinitionLevelsToBitmap.
    destruct (DefinitionLevelsToBitmap_loop_repeated
                (take (Z.to_nat num_def_levels) def_levels)
                max_definition_level max_repetition_level
                (BitmapWriter.new valid_bits valid_bits_offset num_def_levels)
                null_count H) as (_ & w' & n & ->).
    eauto.
  - apply DefinitionLevelsToBitmap_loop_repeated. assumption.
  - intros levels n file_level bits. unfold Levels._GenerateNullBitmap.
    rewrite GenerateNullBitmap_loop_count. lia.
Qed.

(** Claim C6 on the level array [3] with [max_definition_level = 2].
    The level exceeds the maximum.  Without repetition levels the
    bitmap-building step throws, and so does the [_DefinitionLevelsToBitmap]
    that takes no repetition level.  With [max_repetition_level = 1] the
    same step on the same array ends normally: the level falls into the
    closing [continue] of the repetition branch, no bit is written, no
    null is counted and nothing is thrown.  [_GenerateNullBitmap] counts
    the level as a null. *)
Lemma level_above_max_is_skipped :
  2 < 3 /\
  Levels._DefinitionLevelsToBitmap [3] 1 2 0 0 [0] 0
  = inl (ParquetException "definition level exceeds maximum") /\
  Levels._DefinitionLevelsToBitmap' [3] 1 2 0 0 [0] 0
  = inl (ParquetException "definition level exceeds maximum") /\
  Levels._DefinitionLevelsToBitmap [3] 1 2 1 0 [0] 0
  = inr {| Levels.values_read := 0; Levels.null_count := 0;
           Levels.valid_bits := [0] |} /\
  Levels._GenerateNullBitmap [3] 1 2 [0] = (1, [0]).
Proof. repeat split. Qed.

(** A bitmap with stale bits, written from offset 3. *)
Lemma DefinitionLevelsToBitmap_valid_iff_max_witness :
  Forall (fun level => level <= 2) [2; 2; 1; 2; 0; 2] /\
  0 <= 3 /\
  3 + Z.of_nat (length [2; 2; 1; 2; 0; 2]) <= 8 * Z.of_nat (length [170; 85]) /\
  exists res,
    Levels._DefinitionLevelsToBitmap [2; 2; 1; 2; 0; 2] 6 2 0 0 [170; 85] 3
    = inr res /\
    Levels.null_count res = 2 /\
    BitmapWriter.GetBit (Levels.valid_bits res) (3 + 2) = false.
Proof.
  assert (H1 : Forall (fun level => level <= 2) [2; 2; 1; 2; 0; 2])
    by (repeat constructor; lia).
  assert (H2 : 0 <= 3) by lia.
  assert (H3 : 3 + Z.of_nat (length [2; 2; 1; 2; 0; 2])
               <= 8 * Z.of_nat (length [170; 85])) by (cbn; lia).
  split; [exact H1|]. split; [exact H2|]. split; [exact H3|].
  destruct (proj1 DefinitionLevelsToBitmap_valid_iff_max
              [2; 2; 1; 2; 0; 2] 2 0 [170; 85] 3 H1 H2 H3)
    as (res & Hrun & _ & Hbits & Hnull & _).
  exists res. split; [exact Hrun|]. split; [rewrite Hnull; reflexivity|].
  exact (Hbits 2%nat 1 eq_refl).
Defined.

(** A level array with a level above the maximum, without repetition. *)
Lemma DefinitionLevelsToBitmap_level_exceeds_witness :
  0 <= 0 /\
  Exists (fun level => 2 < level) (take (Z.to_nat 3) [2; 3; 1]) /\
  Levels._DefinitionLevelsToBitmap [2; 3; 1] 3 2 0 0 [0] 0
  = inl (ParquetException "definition level exceeds maximum").
Proof.
  assert (H1 : 0 <= 0) by lia.
  assert (H2 : Exists (fun level => 2 < level) (take (Z.to_nat 3) [2; 3; 1]))
    by (apply Exists_cons_tl, Exists_cons_hd; lia).
  split; [exact H1|]. split; [exact H2|].
  exact (proj1 DefinitionLevelsToBitmap_level_exceeds
           [2; 3; 1] 3 2 0 0 [0] 0 H1 H2).
Defined.

(** ** Scattering dense values to their rows *)

Lemma scatter_length (data : list Z) (map : list nat) (result : list Z) :
  length (Compact.scatter data map result) = length result.
Proof.
  revert map result. induction data as [|x data IH]; intros [|i map] result;
    cbn; try reflexivity.
  rewrite IH. apply length_insert.
Qed.

(** A slot that is not a target of the scatter keeps its value. *)
Lemma scatter_lookup_other (data : list Z) (map : list nat)
    (result : list Z) (j : nat) :
  j ∉ map -> Compact.scatter data map result !! j = result !! j.
Proof.
  revert map result. induction data as [|x data IH]; intros [|i map] result Hj;
    cbn; try reflexivity.
  apply not_elem_of_cons in Hj as [Hne Hj].
  rewrite IH by exact Hj. apply list_lookup_insert_ne. congruence.
Qed.

(** With distinct targets inside the array, the [k]-th value lands in the
    [k]-th target. *)
Lemma scatter_lookup_target (data : list Z) (map : list nat)
    (result : list Z) (k i : nat) (x : Z) :
  NoDup map -> map !! k = Some i -> data !! k = Some x ->
  (i < length result)%nat ->
  Compact.scatter data map result !! i = Some x.
Proof.
  revert map result k.
  induction data as [|y data IH]; intros [|i0 map] result k Hnd Hmap Hdata Hi;
    try discriminate.
  apply NoDup_cons in Hnd as [Hnotin Hnd]. cbn [Compact.scatter].
  destruct k as [|k]; cbn in Hmap, Hdata.
  - injection Hmap as ->. injection Hdata as ->.
    rewrite scatter_lookup_other by exact Hnotin.
    apply list_lookup_insert_eq. exact Hi.
  - apply (IH map _ k); auto. rewrite length_insert. exact Hi.
Qed.

(** The indices [copy_if] selects: increasing, without repetition, each
    the index of a level equal to the maximum. *)
Lemma copy_if_elem (batch_size : Z) (levels : list Z) (max : Z) (i : nat) :
  i ∈ Compact.copy_if batch_size levels max <->
  (i < Z.to_nat batch_size)%nat /\ levels !! i = Some max.
Proof.
  unfold Compact.copy_if. rewrite list_elem_of_filter, elem_of_seq.
  split; [intros [? ?]|intros [? ?]]; split; auto; lia.
Qed.

Lemma copy_if_NoDup (batch_size : Z) (levels : list Z) (max : Z) :
  NoDup (Compact.copy_if batch_size levels max).
Proof. unfold Compact.copy_if. apply NoDup_filter, NoDup_seq. Qed.

(** The number of rows before row [i] whose level is the maximum. *)
Lemma copy_if_lookup (batch_size : Z) (levels : list Z) (max : Z) (i : nat) :
  (i < Z.to_nat batch_size)%nat -> levels !! i = Some max ->
  Compact.copy_if batch_size levels max
    !! length (filter (fun level => level = max) (take i levels))
  = Some i.
Proof.
  intros Hi Hlevel. unfold Compact.copy_if.
  replace (Z.to_nat batch_size) with (i + S (Z.to_nat batch_size - S i))%nat
    by lia.
  rewrite seq_app, filter_app. cbn [seq]. rewrite filter_cons.
  rewrite decide_True by exact Hlevel.
  assert (Hlen : length (filter (fun j => levels !! j = Some max) (seq 0 i))
                 = length (filter (fun level => level = max) (take i levels))).
  { clear Hi. pose proof (lookup_lt_Some _ _ _ Hlevel) as Hlt. clear Hlevel.
    induction i as [|i IH]; [reflexivity|].
    destruct (lookup_lt_is_Some_2 levels i ltac:(lia)) as [x Hx].
    rewrite seq_S, filter_app, (take_S_r _ _ _ Hx), filter_app, !length_app.
    rewrite IH by lia. f_equal. cbn [plus]. rewrite !filter_cons, !filter_nil.
    destruct (decide (x = max)) as [->|Hne].
    - rewrite decide_True by exact Hx. reflexivity.
    - rewrite decide_False by congruence. reflexivity. }
  rewrite <- Hlen. rewrite lookup_app_r by lia. rewrite Nat.sub_diag.
  reflexivity.
Qed.

(** [compact_to_sparse_for_nulls]: the row of the [k]-th level equal to the
    maximum receives the [k]-th value; every other slot is left alone. *)
Lemma compact_to_sparse_for_nulls_spec (data_in data_out levels : list Z)
    (max batch_size : Z) :
  let out :=
    Compact.compact_to_sparse_for_nulls data_in data_out levels max batch_size
  in
  length out = length data_out /\
  (forall (i k : nat) (x : Z),
     (i < Z.to_nat batch_size)%nat -> levels !! i = Some max ->
     k = length (filter (fun level => level = max) (take i levels)) ->
     data_in !! k = Some x -> (i < length data_out)%nat ->
     out !! i = Some x) /\
  (forall i : nat,
     ~ ((i < Z.to_nat batch_size)%nat /\ levels !! i = Some max) ->
     out !! i = data_out !! i).
Proof.
  cbv zeta. unfold Compact.compact_to_sparse_for_nulls.
  split; [apply scatter_length|]. split.
  - intros i k x Hi Hlevel -> Hdata Hlen.
    pose proof (copy_if_lookup batch_size levels max i Hi Hlevel) as Hk.
    eapply scatter_lookup_target; [apply copy_if_NoDup|exact Hk| |exact Hlen].
    rewrite lookup_take_lt; [exact Hdata|].
    apply (lookup_lt_Some _ _ _ Hk).
  - intros i Hnot. apply scatter_lookup_other.
    rewrite copy_if_elem. exact Hnot.
Qed.

(** ** The column reader *)

(** [ReadNewPage] and [HasNext] leave the descriptor alone. *)
Lemma ReadNewPage_from_descr (pages : list ColumnReader.Page)
    (r r' : ColumnReader.t) (b : bool) :
  ColumnReader.ReadNewPage_from pages r = inr (b, r') ->
  ColumnReader.descr_ r' = ColumnReader.descr_ r.
Proof.
  revert r. induction pages as [|page rest IH]; intros r; cbn.
  - intros [= <- <-]. reflexivity.
  - destruct (ColumnReader.type page).
    + destruct (ColumnReader.decoders_ r !! _) as [d|].
      * intros [= <- <-]. reflexivity.
      * destruct (if ColumnReader._IsDictionaryIndexEncoding _ then _ else _);
          try discriminate; intros [= <- <-]; reflexivity.
    + intros H. apply IH in H. exact H.
    + destruct (ColumnReader._ConfigureDictionary _ _) as [e|[ds out]];
        [discriminate|].
      intros H. apply IH in H. exact H.
    + intros H. apply IH in H. exact H.
Qed.

Lemma HasNext_descr (r r' : ColumnReader.t) (b : bool) :
  ColumnReader.HasNext r = inr (b, r') ->
  ColumnReader.descr_ r' = ColumnReader.descr_ r.
Proof.
  unfold ColumnReader.HasNext, ColumnReader.ReadNewPage.
  destruct (_ || _).
  - destruct (ColumnReader.ReadNewPage_from _ r) as [e|[b0 r0]] eqn:Hnew;
      [discriminate|].
    apply ReadNewPage_from_descr in Hnew.
    destruct (_ || _); intros [= <- <-]; exact Hnew.
  - intros [= <- <-]. reflexivity.
Qed.

(** A block write leaves the array's length and the slots before the
    block as they were. *)
Lemma store_length (buf : list Z) (off : nat) (xs : list Z) :
  length (Mem.store buf off xs) = length buf.
Proof.
  revert buf off. induction xs as [|x xs IH]; intros buf off; cbn;
    [reflexivity|].
  rewrite IH. apply length_insert.
Qed.

Lemma store_lookup_before (buf : list Z) (off : nat) (xs : list Z) (i : nat) :
  (i < off)%nat -> Mem.store buf off xs !! i = buf !! i.
Proof.
  revert buf off. induction xs as [|x xs IH]; intros buf off Hi; cbn;
    [reflexivity|].
  rewrite IH by lia. apply list_lookup_insert_ne. lia.
Qed.

Lemma write_at_length (buf : list Z) (off : Z) (xs : list Z) :
  length (Mem.write_at buf off xs) = length buf.
Proof.
  unfold Mem.write_at. destruct (off <? 0); [reflexivity|].
  apply store_length.
Qed.

Lemma write_at_lookup_before (buf : list Z) (off : Z) (xs : list Z)
    (i : nat) :
  Z.of_nat i < off -> Mem.write_at buf off xs !! i = buf !! i.
Proof.
  intros Hi. unfold Mem.write_at. destruct (off <? 0); [reflexivity|].
  apply store_lookup_before. lia.
Qed.

(** When the loop of the second [_DefinitionLevelsToBitmap] ends normally,
    no level it visited exceeds the maximum. *)
Lemma DefinitionLevelsToBitmap'_loop_inr (levels : list Z)
    (max_definition_level : Z) (w : BitmapWriter.t) (null_count : Z)
    (res : BitmapWriter.t * Z) :
  Levels._DefinitionLevelsToBitmap'_loop levels max_definition_level
    w null_count = inr res ->
  Forall (fun level => level <= max_definition_level) levels.
Proof.
  revert w null_count.
  induction levels as [|level rest IH]; intros w null_count Hrun;
    [constructor|].
  cbn [Levels._DefinitionLevelsToBitmap'_loop] in Hrun.
  destruct (Z.eqb_spec level max_definition_level) as [Heq|Hne].
  - constructor; [lia|]. eapply IH, Hrun.
  - destruct (Z.ltb_spec level max_definition_level) as [Hlt|Hge];
      [|discriminate].
    constructor; [lia|]. eapply IH, Hrun.
Qed.

(** What [ReadBatch] does to a level array it is given: the levels before
    the pointer and the length of the array stay, the count returned is not
    negative, and the descriptor is that of the reader. *)
Lemma ReadBatch_def_levels (batch_size : Z) (p values : ColumnReader.ptr)
    (r : ColumnReader.t) (b : ColumnReader.batch) :
  ColumnReader.ReadBatch batch_size (Some p) None values r = inr b ->
  exists p',
    ColumnReader.def_levels b = Some p' /\
    length (ColumnReader.arr p') = length (ColumnReader.arr p) /\
    (forall i : nat,
       Z.of_nat i < ColumnReader.off p ->
       ColumnReader.arr p' !! i = ColumnReader.arr p !! i) /\
    0 <= ColumnReader.total_values b /\
    ColumnReader.descr_ (ColumnReader.reader b) = ColumnReader.descr_ r.
Proof.
  unfold ColumnReader.ReadBatch.
  destruct (ColumnReader.HasNext r) as [e|[[|] r0]] eqn:Hnext;
    [discriminate| |].
  2:{ intros [= <-]. exists p. cbn. repeat split; try lia.
      apply (HasNext_descr _ _ _ Hnext). }
  apply HasNext_descr in Hnext.
  set (clamped := Z.min batch_size _).
  destruct (0 <? ColumnReader.max_definition_level (ColumnReader.descr_ r0)).
  - unfold ColumnReader.ReadDefinitionLevels.
    destruct (ColumnReader.max_definition_level (ColumnReader.descr_ r0) =? 0).
    + unfold ColumnReader._ReadValues. cbn.
      destruct (ColumnReader.current_decoder_ r0) as [key|];
        [destruct (ColumnReader.decoders_ r0 !! key) as [d|];
         [destruct (ColumnReader.Decode _ d) as [vs d']|]|];
        intros [= <-]; exists p; cbn; repeat split; try lia; exact Hnext.
    + unfold ColumnReader._ReadValues. cbn.
      destruct (ColumnReader.current_decoder_ r0) as [key|];
        [destruct (ColumnReader.decoders_ r0 !! key) as [d|];
         [destruct (ColumnReader.Decode _ d) as [vs d']|]|];
        intros [= <-]; eexists; cbn;
        (split; [reflexivity|]);
        (split; [apply write_at_length|]);
        (split; [intros i Hi; apply write_at_lookup_before, Hi|]);
        (split; [lia|exact Hnext]).
  - unfold ColumnReader._ReadValues. cbn.
    destruct (ColumnReader.current_decoder_ r0) as [key|];
      [destruct (ColumnReader.decoders_ r0 !! key) as [d|];
       [destruct (ColumnReader.Decode _ d) as [vs d']|]|];
      intros [= <-]; exists p; cbn; repeat split; try lia; exact Hnext.
Qed.

(** The loop of [ToGdfColumn] keeps the mask in step with the levels: each
    turn leaves the rows read before it alone and writes the bits of the
    rows it reads from the levels it has just stored. *)
Lemma ToGdfColumn_loop_mask (fuel : nat) (values_to_read max : Z)
    (s sf : ColumnReader.loop_state) :
  ColumnReader.ToGdfColumn_loop fuel values_to_read s = Some (inr sf) ->
  ColumnReader.max_definition_level
    (ColumnReader.descr_ (ColumnReader.loop_reader s)) = max ->
  0 <= ColumnReader.rows_read_total s ->
  ColumnReader.mask_matches_levels max s ->
  ColumnReader.mask_matches_levels max sf /\
  ColumnReader.max_definition_level
    (ColumnReader.descr_ (ColumnReader.loop_reader sf)) = max /\
  length (ColumnReader.h_valid_bits sf)
  = length (ColumnReader.h_valid_bits s).
Proof.
  revert s. induction fuel as [|fuel IH]; intros s Hloop Hmax Hrows Hinv;
    [discriminate|].
  cbn [ColumnReader.ToGdfColumn_loop] in Hloop.
  destruct (ColumnReader.HasNext (ColumnReader.loop_reader s))
    as [e|[[|] r]] eqn:Hnext; [discriminate| |].
  2:{ injection Hloop as <-. cbn. split; [exact Hinv|].
      split; [|reflexivity].
      rewrite (HasNext_descr _ _ _ Hnext). exact Hmax. }
  destruct (ColumnReader.ReadBatch _ _ _ _ r) as [e|b] eqn:Hbatch;
    [discriminate|].
  destruct (ReadBatch_def_levels _ _ _ _ _ Hbatch)
    as (p' & Hp' & Hlen & Hprefix & Htotal & Hdescr).
  cbn [ColumnReader.arr ColumnReader.off] in Hlen, Hprefix.
  rewrite Hp' in Hloop.
  rewrite Hdescr, (HasNext_descr _ _ _ Hnext), Hmax in Hloop.
  destruct (Levels._DefinitionLevelsToBitmap' _ _ _ _ _ _ _)
    as [e|m] eqn:Hbitmap; [discriminate|].
  apply IH in Hloop; cbn.
  - destruct Hloop as (Hinv' & Hmax' & Hlen'). split; [exact Hinv'|].
    split; [exact Hmax'|]. rewrite Hlen'. clear Hlen' Hinv' Hmax'.
    unfold Levels._DefinitionLevelsToBitmap' in Hbitmap.
    destruct (Levels._DefinitionLevelsToBitmap'_loop _ _ _ _)
      as [e|[w n]] eqn:Hrun; [discriminate|].
    injection Hbitmap as <-. cbn.
    pose proof (DefinitionLevelsToBitmap'_loop_inr _ _ _ _ _ Hrun) as Hall.
    destruct (DefinitionLevelsToBitmap'_loop_spec _ max
                (BitmapWriter.new (ColumnReader.h_valid_bits s)
                   (ColumnReader.rows_read_total s)
                   (ColumnReader.total_values b))
                (ColumnReader.loop_null_count s) Hall)
      as (w' & Hrun' & _ & _ & Hlenw & _); [cbn; lia|].
    rewrite Hrun in Hrun'. injection Hrun' as -> _. exact Hlenw.
  - rewrite Hdescr, (HasNext_descr _ _ _ Hnext). exact Hmax.
  - lia.
  - unfold Levels._DefinitionLevelsToBitmap' in Hbitmap.
    destruct (Levels._DefinitionLevelsToBitmap'_loop _ _ _ _)
      as [e|[w n]] eqn:Hrun; [discriminate|].
    injection Hbitmap as <-.
    pose proof (DefinitionLevelsToBitmap'_loop_inr _ _ _ _ _ Hrun) as Hall.
    destruct (DefinitionLevelsToBitmap'_loop_spec _ max
                (BitmapWriter.new (ColumnReader.h_valid_bits s)
                   (ColumnReader.rows_read_total s)
                   (ColumnReader.total_values b))
                (ColumnReader.loop_null_count s) Hall)
      as (w' & Hrun' & _ & _ & Hlenw & Hbits); [cbn; lia|].
    rewrite Hrun in Hrun'. injection Hrun' as -> _.
    cbn [BitmapWriter.new BitmapWriter.start_offset_ BitmapWriter.position_
         BitmapWriter.bitmap_] in Hlenw, Hbits.
    unfold ColumnReader.mask_matches_levels.
    cbn [ColumnReader.rows_read_total ColumnReader.loop_definition_levels
         ColumnReader.h_valid_bits Levels.valid_bits].
    intros i Hi Hilen Hibits. rewrite Hlenw in Hibits.
    rewrite Hbits by lia. rewrite Z.add_0_r.
    destruct (Z.lt_ge_cases (Z.of_nat i) (ColumnReader.rows_read_total s))
      as [Hold|Hnew].
    + rewrite bool_decide_eq_false_2 by lia.
      rewrite (Hinv i Hold) by lia.
      rewrite Hprefix by exact Hold. reflexivity.
    + rewrite bool_decide_eq_true_2.
      2:{ split; [lia|]. rewrite length_take, length_drop. lia. }
      rewrite lookup_take_lt by lia. rewrite lookup_drop.
      replace (Z.to_nat (ColumnReader.rows_read_total s)
               + Z.to_nat (Z.of_nat i - ColumnReader.rows_read_total s))%nat
        with i by lia.
      reflexivity.
Qed.

(** The compaction pass of [ToGdfColumn].  When the read loop ends with
    fewer dense values than rows, the function runs the compaction pass on
    what the loop left: the [k]-th value of the dense buffer is stored at
    row [i], the index of the [k]-th definition level equal to
    [max_definition_level], and the slot of every other row is left as it
    was.  The mask handed back is the first [n_bytes] bytes of the host
    bitmap, where [n_bytes] is computed on entry from the page then
    current; for a row read that the host bitmap has a bit for, the bit is
    set exactly when the level of the row is the maximum.  On a page of
    levels [1,0,1] with maximum 1 and present values [5,7], whatever the
    fresh mask byte held, the result has [data[0] = 5], [data[2] = 7] and
    mask bits [1,0,1], that is mask & 7 = 0b101. *)
Lemma ToGdfColumn_compaction :
  (forall fuel definition_levels column uninit r s,
     ColumnReader.ToGdfColumn_loop fuel
       (ColumnReader.ToGdfColumn_values_to_read r)
       (ColumnReader.ToGdfColumn_init definition_levels column uninit r)
     = Some (inr s) ->
     ColumnReader.values_read_counter s < ColumnReader.rows_read_total s ->
     let levels := ColumnReader.loop_definition_levels s in
     let dense := ColumnReader.loop_values s in
     let max :=
       ColumnReader.max_definition_level
         (ColumnReader.descr_ (ColumnReader.loop_reader s)) in
     let rows := Z.to_nat (ColumnReader.rows_read_total s) in
     exists res,
       ColumnReader.ToGdfColumn fuel definition_levels column uninit r
       = Some (inr res) /\
       ColumnReader.rows_read res = ColumnReader.rows_read_total s /\
       let data := ColumnReader.column_data (ColumnReader.out_column res) in
       data =
         Compact.compact_to_sparse_for_nulls (take rows dense) dense
           (take rows levels) max (ColumnReader.rows_read_total s) /\
       length data = length dense /\
       (forall (i k : nat) (value : Z),
          (i < rows)%nat -> levels !! i = Some max ->
          k = length (filter (fun level => level = max) (take i levels)) ->
          dense !! k = Some value -> (i < length dense)%nat ->
          data !! i = Some value) /\
       (forall i : nat,
          (rows <= i)%nat \/ levels !! i <> Some max ->
          data !! i = dense !! i) /\
       ColumnReader.column_valid (ColumnReader.out_column res)
       = Mem.write_at (ColumnReader.column_valid column) 0
           (take (Z.to_nat (ColumnReader.get_number_of_bytes_for_valid
                              (ColumnReader.num_buffered_values_ r)))
              (ColumnReader.h_valid_bits s)) /\
       ColumnReader.mask_matches_levels max s) /\
  (forall b, 0 <= b < 256 ->
     let page :=
       ColumnReader.mkPage ColumnReader.DATA_PAGE ColumnReader.PLAIN 3
         [] [1; 0; 1] [5; 7] in
     exists r res,
       ColumnReader.HasNext
         (ColumnReader.new (ColumnReader.mkDescr 1 0) [page])
       = inr (true, r) /\
       ColumnReader.ToGdfColumn 2 [0; 0; 0]
         (ColumnReader.mkColumn [0; 0; 0] [0]) [b] r = Some (inr res) /\
       ColumnReader.rows_read res = 3 /\
       let data := ColumnReader.column_data (ColumnReader.out_column res) in
       let mask := ColumnReader.column_valid (ColumnReader.out_column res) in
       data !! 0%nat = Some 5 /\ data !! 2%nat = Some 7 /\
       map (BitmapWriter.GetBit mask) [0; 1; 2] = [true; false; true] /\
       (exists byte, mask = [byte] /\ Z.land byte 7 = 5)).
Proof.
  split.
  - intros fuel definition_levels column uninit r s Hloop Hless
      levels dense max rows.
    unfold ColumnReader.ToGdfColumn. rewrite Hloop.
    destruct (Z.eqb_spec (ColumnReader.rows_read_total s)
                (ColumnReader.values_read_counter s)); [lia|].
    eexists. split; [reflexivity|]. split; [reflexivity|].
    cbn [ColumnReader.column_data ColumnReader.out_column]. fold levels dense max rows.
    destruct (compact_to_sparse_for_nulls_spec (take rows dense) dense
                (take rows levels) max (ColumnReader.rows_read_total s))
      as (Hlen & Htarget & Hother).
    fold rows in Htarget, Hother.
    split; [reflexivity|]. split; [exact Hlen|]. split.
    + intros i k value Hi Hlevel Hk Hdense Hroom.
      assert (Hki : (k <= i)%nat).
      { rewrite Hk. etransitivity; [apply length_filter|].
        rewrite length_take. lia. }
      apply (Htarget i k value Hi).
      * rewrite lookup_take_lt by exact Hi. exact Hlevel.
      * rewrite take_take. replace (i `min` rows)%nat with i by lia.
        exact Hk.
      * rewrite lookup_take_lt by lia. exact Hdense.
      * exact Hroom.
    + split; [|split; [reflexivity|]].
      * intros i Hi. apply Hother. intros [Hlt Hlevel].
        rewrite lookup_take_lt in Hlevel by exact Hlt.
        destruct Hi as [Hi|Hi]; [lia|]. exact (Hi Hlevel).
      * destruct (ToGdfColumn_loop_mask _ _
                    (ColumnReader.max_definition_level
                       (ColumnReader.descr_ r)) _ _ Hloop)
          as (Hmask & Hmax & _); [reflexivity|cbn; lia| |].
        -- intros i Hi. cbn in Hi. lia.
        -- unfold max. rewrite Hmax. exact Hmask.
  - intros b Hb page.
    set (check := fun b : Z =>
      match ColumnReader.HasNext
              (ColumnReader.new (ColumnReader.mkDescr 1 0) [page]) with
      | inr (true, r) =>
          match ColumnReader.ToGdfColumn 2 [0; 0; 0]
                  (ColumnReader.mkColumn [0; 0; 0] [0]) [b] r with
          | Some (inr res) =>
              let data :=
                ColumnReader.column_data (ColumnReader.out_column res) in
              let mask :=
                ColumnReader.column_valid (ColumnReader.out_column res) in
              (ColumnReader.rows_read res =? 3)
              && bool_decide (data !! 0%nat = Some 5)
              && bool_decide (data !! 2%nat = Some 7)
              && bool_decide (map (BitmapWriter.GetBit mask) [0; 1; 2]
                              = [true; false; true])
              && match mask with
                 | [byte] => Z.land byte 7 =? 5
                 | _ => false
                 end
          | _ => false
          end
      | _ => false
      end).
    assert (Hall : forallb check (map Z.of_nat (seq 0 256)) = true)
      by (vm_compute; reflexivity).
    rewrite forallb_forall in Hall.
    assert (Hok : In b (map Z.of_nat (seq 0 256))).
    { apply in_map_iff. exists (Z.to_nat b). split; [lia|].
      apply in_seq. lia. }
    specialize (Hall b Hok). unfold check in Hall. clear check Hok.
    destruct (ColumnReader.HasNext _) as [e|[[|] r]] eqn:Hnext;
      try discriminate Hall.
    destruct (ColumnReader.ToGdfColumn 2 [0; 0; 0] _ [b] r)
      as [[e|res]|] eqn:Hres; try discriminate Hall.
    cbv zeta in Hall.
    apply andb_prop in Hall as [Hall Hmask].
    apply andb_prop in Hall as [Hall Hbits].
    apply andb_prop in Hall as [Hall H2].
    apply andb_prop in Hall as [Hrows H0].
    exists r, res. split; [reflexivity|]. split; [exact Hres|].
    split; [apply Z.eqb_eq, Hrows|]. cbv zeta.
    split; [exact (bool_decide_eq_true_1 _ H0)|].
    split; [exact (bool_decide_eq_true_1 _ H2)|].
    split; [exact (bool_decide_eq_true_1 _ Hbits)|].
    destruct (ColumnReader.column_valid (ColumnReader.out_column res))
      as [|byte [|? ?]]; try discriminate.
    exists byte. split; [reflexivity|]. apply Z.eqb_eq, Hmask.
Qed.

(** The page of levels [1,0,1] over the values [5,7], read after a first
    [HasNext]. *)
Lemma ToGdfColumn_compaction_witness :
  let page :=
    ColumnReader.mkPage ColumnReader.DATA_PAGE ColumnReader.PLAIN 3
      [] [1; 0; 1] [5; 7] in
  let r0 := ColumnReader.new (ColumnReader.mkDescr 1 0) [page] in
  let r := match ColumnReader.HasNext r0 with
           | inr (_, r) => r
           | inl _ => r0
           end in
  let column := ColumnReader.mkColumn [0; 0; 0] [0] in
  exists s,
    (ColumnReader.ToGdfColumn_loop 2
       (ColumnReader.ToGdfColumn_values_to_read r)
       (ColumnReader.ToGdfColumn_init [0; 0; 0] column [0] r)
     = Some (inr s) /\
     ColumnReader.values_read_counter s < ColumnReader.rows_read_total s) /\
    exists res,
      ColumnReader.ToGdfColumn 2 [0; 0; 0] column [0] r = Some (inr res) /\
      ColumnReader.column_data (ColumnReader.out_column res) = [5; 7; 7].
Proof.
  intros page r0 r column.
  destruct (ColumnReader.ToGdfColumn_loop 2
              (ColumnReader.ToGdfColumn_values_to_read r)
              (ColumnReader.ToGdfColumn_init [0; 0; 0] column [0] r))
    as [[e|s]|] eqn:Hloop;
    [vm_compute in Hloop; discriminate Hloop| |
     vm_compute in Hloop; discriminate Hloop].
  assert (Hless : ColumnReader.values_read_counter s
                  < ColumnReader.rows_read_total s).
  { pose proof Hloop as Hs. vm_compute in Hs. injection Hs as <-.
    vm_compute. reflexivity. }
  exists s. split; [split; [reflexivity|exact Hless]|].
  destruct (proj1 ToGdfColumn_compaction 2%nat [0; 0; 0] column [0] r s
              Hloop Hless) as (res & Hres & _ & Hdata & _).
  exists res. split; [exact Hres|]. cbv zeta in Hdata. rewrite Hdata.
  pose proof Hloop as Hs. vm_compute in Hs. injection Hs as <-.
  vm_compute. reflexivity.
Defined.

(** Claim C3 on a column of two data pages.  The first page holds eight
    rows, all present; the second the levels [1,0,1] over the values
    [5,7].  [ToGdfColumn], called once [HasNext] has made the first page
    current, sizes its host bitmap for the eight rows of that page: one
    byte.  It reads all eleven rows and compacts the values, so that
    [data[8] = 5] and [data[10] = 7]; the bits of rows 8 to 10 have no
    place in the host bitmap, and one byte of it is copied to the mask of
    the column.  Rows 8 and 10 are present, and the mask, which the caller
    sized for eleven rows, has no bit set for them. *)
Lemma ToGdfColumn_mask_sized_by_first_page :
  let page1 :=
    ColumnReader.mkPage ColumnReader.DATA_PAGE ColumnReader.PLAIN 8
      [] [1; 1; 1; 1; 1; 1; 1; 1] [10; 11; 12; 13; 14; 15; 16; 17] in
  let page2 :=
    ColumnReader.mkPage ColumnReader.DATA_PAGE ColumnReader.PLAIN 3
      [] [1; 0; 1] [5; 7] in
  let column := ColumnReader.mkColumn (replicate 11 0) [0; 0] in
  exists r s res,
    ColumnReader.HasNext
      (ColumnReader.new (ColumnReader.mkDescr 1 0) [page1; page2])
    = inr (true, r) /\
    ColumnReader.num_buffered_values_ r = 8 /\
    ColumnReader.get_number_of_bytes_for_valid
      (ColumnReader.num_buffered_values_ r) = 1 /\
    ColumnReader.ToGdfColumn_loop 3
      (ColumnReader.ToGdfColumn_values_to_read r)
      (ColumnReader.ToGdfColumn_init (replicate 11 0) column [0] r)
    = Some (inr s) /\
    ColumnReader.rows_read_total s = 11 /\
    ColumnReader.values_read_counter s = 10 /\
    ColumnReader.h_valid_bits s = [255] /\
    ColumnReader.ToGdfColumn 3 (replicate 11 0) column [0] r
    = Some (inr res) /\
    ColumnReader.rows_read res = 11 /\
    ColumnReader.out_definition_levels res
    = [1; 1; 1; 1; 1; 1; 1; 1; 1; 0; 1] /\
    ColumnReader.column_data (ColumnReader.out_column res)
    = [10; 11; 12; 13; 14; 15; 16; 17; 5; 7; 7] /\
    ColumnReader.column_valid (ColumnReader.out_column res) = [255; 0] /\
    map (BitmapWriter.GetBit
           (ColumnReader.column_valid (ColumnReader.out_column res)))
        [8; 9; 10]
    = [false; false; false].
Proof.
  intros page1 page2 column. eexists. eexists. eexists.
  split; [vm_compute; reflexivity|].
  split; [reflexivity|]. split; [vm_compute; reflexivity|].
  split; [vm_compute; reflexivity|].
  split; [reflexivity|]. split; [reflexivity|]. split; [reflexivity|].
  split; [vm_compute; reflexivity|].
  split; [reflexivity|]. split; [reflexivity|]. split; [reflexivity|].
  split; [reflexivity|]. vm_compute. reflexivity.
Qed.

(** Claim C4, as amended.  When the current page is empty or used up,
    [HasNext] calls [ReadNewPage] once and answers true exactly when a data
    page was found and that page declares values.  With a PLAIN data page
    next in the source, the call makes it the current page, sets
    [num_buffered_values_] to its [num_values] and [num_decoded_values_] to
    zero, and answers whether its [num_values] is not zero: on an empty page
    the answer is false, whatever the source still holds, and it takes
    another call to move past that page.  [HasNext] writes to no array of
    the caller. *)
Theorem HasNext_fetches_one_data_page :
  (forall r,
     ColumnReader.num_buffered_values_ r = 0 \/
     ColumnReader.num_decoded_values_ r = ColumnReader.num_buffered_values_ r ->
     ColumnReader.HasNext r =
     match ColumnReader.ReadNewPage r with
     | inl e => inl e
     | inr (b, r') =>
         inr (b && negb (ColumnReader.num_buffered_values_ r' =? 0), r')
     end) /\
  (forall r page rest,
     ColumnReader.num_buffered_values_ r = 0 ->
     ColumnReader.pager_ r = page :: rest ->
     ColumnReader.type page = ColumnReader.DATA_PAGE ->
     ColumnReader.encoding page = ColumnReader.PLAIN ->
     exists r',
       ColumnReader.HasNext r
       = inr (negb (ColumnReader.num_values page =? 0), r') /\
       ColumnReader.current_page_ r' = Some page /\
       ColumnReader.pager_ r' = rest /\
       ColumnReader.num_buffered_values_ r' = ColumnReader.num_values page /\
       ColumnReader.num_decoded_values_ r' = 0).
Proof.
  split.
  - intros r Hneed. unfold ColumnReader.HasNext.
    replace ((ColumnReader.num_buffered_values_ r =? 0)
             || (ColumnReader.num_decoded_values_ r
                 =? ColumnReader.num_buffered_values_ r)) with true.
    2:{ symmetry. apply orb_true_iff.
        destruct Hneed; [left|right]; apply Z.eqb_eq; assumption. }
    destruct (ColumnReader.ReadNewPage r) as [e|[b r']]; [reflexivity|].
    destruct b, (ColumnReader.num_buffered_values_ r' =? 0); reflexivity.
  - intros r page rest Hempty Hpager Htype Henc.
    unfold ColumnReader.HasNext, ColumnReader.ReadNewPage.
    rewrite Hempty, Hpager. cbn [Z.eqb orb ColumnReader.ReadNewPage_from].
    rewrite Htype, Henc.
    change (ColumnReader._IsDictionaryIndexEncoding ColumnReader.PLAIN)
      with false. cbv iota.
    destruct (ColumnReader.decoders_ r
                !! ColumnReader.encoding_int ColumnReader.PLAIN) as [d|];
      cbn [negb orb ColumnReader.num_buffered_values_];
      destruct (ColumnReader.num_values page =? 0);
      eexists; (split; [reflexivity|]); cbn; auto.
Qed.

(** Counterexample to claim C4 as stated.  The source holds two empty
    PLAIN data pages and then a page of three values.  After a first
    [HasNext] the current page is the first empty page and the source still
    holds two pages, one of them with values; the next [HasNext] fetches
    the second empty page and reports false.  Only a third call reaches the
    page with values. *)
Lemma HasNext_false_on_empty_page :
  let empty :=
    ColumnReader.mkPage ColumnReader.DATA_PAGE ColumnReader.PLAIN 0
      [] [] [] in
  let full :=
    ColumnReader.mkPage ColumnReader.DATA_PAGE ColumnReader.PLAIN 3
      [] [] [1; 2; 3] in
  exists r1 r2 r3,
    ColumnReader.HasNext
      (ColumnReader.new (ColumnReader.mkDescr 0 0) [empty; empty; full])
    = inr (false, r1) /\
    ColumnReader.current_page_ r1 = Some empty /\
    ColumnReader.num_values empty = 0 /\
    ColumnReader.pager_ r1 = [empty; full] /\
    ColumnReader.HasNext r1 = inr (false, r2) /\
    ColumnReader.pager_ r2 = [full] /\
    ColumnReader.HasNext r2 = inr (true, r3) /\
    ColumnReader.current_page_ r3 = Some full.
Proof.
  intros empty full. eexists _, _, _.
  split; [vm_compute; reflexivity|]. split; [reflexivity|].
  split; [reflexivity|]. split; [reflexivity|].
  split; [vm_compute; reflexivity|]. split; [reflexivity|].
  split; [vm_compute; reflexivity|]. reflexivity.
Qed.

(** An empty page in front of a page with values. *)
Lemma HasNext_fetches_one_data_page_witness :
  let empty :=
    ColumnReader.mkPage ColumnReader.DATA_PAGE ColumnReader.PLAIN 0
      [] [] [] in
  let full :=
    ColumnReader.mkPage ColumnReader.DATA_PAGE ColumnReader.PLAIN 3
      [] [] [1; 2; 3] in
  let r := ColumnReader.new (ColumnReader.mkDescr 0 0) [empty; full] in
  (ColumnReader.num_buffered_values_ r = 0 /\
   ColumnReader.pager_ r = empty :: [full] /\
   ColumnReader.type empty = ColumnReader.DATA_PAGE /\
   ColumnReader.encoding empty = ColumnReader.PLAIN) /\
  exists r',
    ColumnReader.HasNext r = inr (false, r') /\
    ColumnReader.pager_ r' = [full].
Proof.
  intros empty full r. split; [repeat split|].
  destruct (proj2 HasNext_fetches_one_data_page r empty [full]
              eq_refl eq_refl eq_refl eq_refl)
    as (r' & Hnext & _ & Hpager & _).
  exists r'. split; [exact Hnext|exact Hpager].
Defined.

(** Reading repetition levels touches the repetition-level decoder
    only. *)
Lemma ReadRepetitionLevels_reader (batch_size : Z) (levels : ColumnReader.ptr)
    (r : ColumnReader.t) :
  let r' := snd (ColumnReader.ReadRepetitionLevels batch_size levels r) in
  ColumnReader.descr_ r' = ColumnReader.descr_ r /\
  ColumnReader.num_buffered_values_ r' = ColumnReader.num_buffered_values_ r /\
  ColumnReader.num_decoded_values_ r' = ColumnReader.num_decoded_values_ r /\
  ColumnReader.decoders_ r' = ColumnReader.decoders_ r /\
  ColumnReader.current_decoder_ r' = ColumnReader.current_decoder_ r /\
  ColumnReader.definition_level_decoder_ r' =
    ColumnReader.definition_level_decoder_ r.
Proof.
  cbv zeta. unfold ColumnReader.ReadRepetitionLevels.
  destruct (_ =? 0); cbn; auto 10.
Qed.

(** Claim C9.  For a column with [max_definition_level > 0], a
    [ReadBatch] with a null [def_levels] that finds a page to read decodes
    no definition level: the definition-level decoder is left as it was
    and no level is counted.  It asks the value decoder for the whole batch
    size, clamped to the values the page still buffers, and every value the
    decoder hands out is stored as a present value.  The row count returned
    is the number of values the decoder produced, which is also what is
    stored in [*values_read] and what the page counter advances by. *)
Theorem ReadBatch_null_def_levels (batch_size : Z)
    (rep_levels : option ColumnReader.ptr) (values : ColumnReader.ptr)
    (r r0 : ColumnReader.t) (key : Z) (d : ColumnReader.Decoder) :
  0 < ColumnReader.max_definition_level (ColumnReader.descr_ r) ->
  ColumnReader.HasNext r = inr (true, r0) ->
  ColumnReader.current_decoder_ r0 = Some key ->
  ColumnReader.decoders_ r0 !! key = Some d ->
  let clamped :=
    Z.min batch_size
      (ColumnReader.num_buffered_values_ r0
       - ColumnReader.num_decoded_values_ r0) in
  let decoded := fst (ColumnReader.Decode (Ints.int32 clamped) d) in
  exists b,
    ColumnReader.ReadBatch batch_size None rep_levels values r = inr b /\
    ColumnReader.def_levels b = None /\
    ColumnReader.definition_level_decoder_ (ColumnReader.reader b) =
      ColumnReader.definition_level_decoder_ r0 /\
    (0 <= clamped < 2 ^ 31 -> Ints.int32 clamped = clamped) /\
    ColumnReader.arr (ColumnReader.values b) =
      Mem.write_at (ColumnReader.arr values) (ColumnReader.off values)
        decoded /\
    ColumnReader.values_read b = Z.of_nat (length decoded) /\
    ColumnReader.total_values b = ColumnReader.values_read b /\
    ColumnReader.num_decoded_values_ (ColumnReader.reader b) =
      ColumnReader.num_decoded_values_ r0 + Z.of_nat (length decoded) /\
    ColumnReader.decoders_ (ColumnReader.reader b) !! key =
      Some (snd (ColumnReader.Decode (Ints.int32 clamped) d)).
Proof.
  intros Hmax Hnext Hkey Hdec clamped decoded.
  unfold ColumnReader.ReadBatch. rewrite Hnext. fold clamped.
  set (rep :=
    match rep_levels with
    | Some p =>
        if 0 <? ColumnReader.max_repetition_level (ColumnReader.descr_ r0)
        then
          let '(n, p', r') :=
            ColumnReader.ReadRepetitionLevels clamped p r0 in
          if bool_decide (is_Some (@None ColumnReader.ptr))
             && negb (0 =? n)
          then inl (ParquetException
                      "Number of decoded rep / def levels did not match")
          else inr (Some p', r')
        else inr (rep_levels, r0)
    | None => inr (rep_levels, r0)
    end).
  assert (Hrep : exists rep_levels' r2,
    rep = inr (rep_levels', r2) /\
    ColumnReader.num_decoded_values_ r2 = ColumnReader.num_decoded_values_ r0 /\
    ColumnReader.decoders_ r2 = ColumnReader.decoders_ r0 /\
    ColumnReader.current_decoder_ r2 = ColumnReader.current_decoder_ r0 /\
    ColumnReader.definition_level_decoder_ r2 =
      ColumnReader.definition_level_decoder_ r0).
  { unfold rep. destruct rep_levels as [p|]; [|eauto 10].
    destruct (0 <? _); [|eauto 10].
    pose proof (ReadRepetitionLevels_reader clamped p r0) as Hr.
    destruct (ColumnReader.ReadRepetitionLevels clamped p r0) as [[n p'] r'].
    cbn in Hr. destruct Hr as (_ & _ & Hd & Hds & Hc & Hl).
    rewrite bool_decide_eq_false_2 by (intros [? [=]]). cbn. eauto 10. }
  destruct Hrep as (rep_levels' & r2 & -> & Hd2 & Hds2 & Hc2 & Hl2).
  unfold ColumnReader._ReadValues. rewrite Hc2, Hkey, Hds2, Hdec.
  fold decoded.
  destruct (ColumnReader.Decode (Ints.int32 clamped) d) as [vs d'] eqn:HD.
  subst decoded. cbn [fst snd].
  eexists. split; [reflexivity|]. cbn.
  split; [reflexivity|]. split; [exact Hl2|].
  split; [intros Hc; apply int32_small; lia|].
  split; [reflexivity|]. split; [reflexivity|].
  split; [lia|]. split; [lia|]. apply lookup_insert_eq.
Qed.

(** A page of three rows and two values, read with a null [def_levels]. *)
Lemma ReadBatch_null_def_levels_witness :
  let page :=
    ColumnReader.mkPage ColumnReader.DATA_PAGE ColumnReader.PLAIN 3
      [] [1; 0; 1] [5; 7] in
  let r := ColumnReader.new (ColumnReader.mkDescr 1 0) [page] in
  exists r0,
    (0 < ColumnReader.max_definition_level (ColumnReader.descr_ r) /\
     ColumnReader.HasNext r = inr (true, r0) /\
     ColumnReader.current_decoder_ r0 = Some 0 /\
     ColumnReader.decoders_ r0 !! 0 = Some (ColumnReader.PlainDecoder [5; 7]))
    /\
    exists b,
      ColumnReader.ReadBatch 10 None None (ColumnReader.mkPtr [0; 0; 0; 0] 0) r
      = inr b /\
      ColumnReader.arr (ColumnReader.values b) = [5; 7; 0; 0] /\
      ColumnReader.values_read b = 2 /\
      ColumnReader.total_values b = 2 /\
      ColumnReader.definition_level_decoder_ (ColumnReader.reader b)
      = [1; 0; 1].
Proof.
  intros page r.
  destruct (ColumnReader.HasNext r) as [e|[[|] r0]] eqn:Hnext;
    [vm_compute in Hnext; discriminate Hnext| |
     vm_compute in Hnext; discriminate Hnext].
  assert (Hr0 : ColumnReader.current_decoder_ r0 = Some 0 /\
                ColumnReader.decoders_ r0 !! 0
                = Some (ColumnReader.PlainDecoder [5; 7]) /\
                ColumnReader.definition_level_decoder_ r0 = [1; 0; 1] /\
                ColumnReader.num_buffered_values_ r0 = 3 /\
                ColumnReader.num_decoded_values_ r0 = 0).
  { pose proof Hnext as Hs. vm_compute in Hs. injection Hs as <-.
    repeat split; vm_compute; reflexivity. }
  destruct Hr0 as (Hkey & Hdec & Hlev & Hbuf & Hdecoded).
  assert (Hmax : 0 < ColumnReader.max_definition_level (ColumnReader.descr_ r))
    by (vm_compute; reflexivity).
  exists r0. split; [auto|].
  destruct (ReadBatch_null_def_levels 10 None
              (ColumnReader.mkPtr [0; 0; 0; 0] 0) r r0 0
              (ColumnReader.PlainDecoder [5; 7]) Hmax Hnext Hkey Hdec)
    as (b & Hb & _ & Hl & _ & Harr & Hvr & Htot & _).
  rewrite Hbuf, Hdecoded in Harr, Hvr.
  exists b. split; [exact Hb|]. split; [rewrite Harr; reflexivity|].
  split; [rewrite Hvr; reflexivity|].
  split; [rewrite Htot, Hvr; reflexivity|]. rewrite Hl. exact Hlev.
Defined.

(** ** read_parquet *)

(** [IndexOf] finds the first column of that name, and only a name that is
    not a column name gets the index [Size]. *)
Lemma IndexOf_lt (column_names : list string) (name : string) :
  (Api.IndexOf column_names name < length column_names)%nat
  <-> name ∈ column_names.
Proof.
  induction column_names as [|n rest IH]; cbn.
  - split; [lia|]. intros Hin. apply elem_of_nil in Hin. destruct Hin.
  - rewrite elem_of_cons. destruct (decide (n = name)) as [->|Hn].
    + rewrite bool_decide_eq_true_2 by reflexivity. split; [auto|lia].
    + rewrite bool_decide_eq_false_2 by exact Hn. rewrite <- IH.
      split; [intros ?; right; lia|]. intros [Heq|Hlt]; [congruence|lia].
Qed.

Lemma IndexOf_Contains (column_names : list string) (name : string) :
  Api.Contains column_names (Api.IndexOf column_names name)
  = bool_decide (name ∈ column_names).
Proof.
  unfold Api.Contains, Api.Size. apply bool_decide_ext, IndexOf_lt.
Qed.

Lemma IndexOf_lookup (column_names : list string) (name : string) :
  name ∈ column_names ->
  column_names !! Api.IndexOf column_names name = Some name.
Proof.
  induction column_names as [|n rest IH]; intros Hin.
  - apply elem_of_nil in Hin. destruct Hin.
  - cbn. destruct (decide (n = name)) as [->|Hn].
    + rewrite bool_decide_eq_true_2 by reflexivity. reflexivity.
    + rewrite bool_decide_eq_false_2 by exact Hn.
      apply elem_of_cons in Hin as [Heq|Hin]; [congruence|]. apply IH, Hin.
Qed.

(** The filter loop keeps, in order, the index of every requested name
    that is a column name, and nothing for the others. *)
Lemma IndicesFrom_filter_matched (filter_names column_names : list string) :
  Api.IndicesFrom_filter filter_names column_names =
  map (Api.IndexOf column_names)
      (filter (fun name => name ∈ column_names) filter_names).
Proof.
  induction filter_names as [|name rest IH]; [reflexivity|].
  cbn [Api.IndicesFrom_filter]. rewrite IndexOf_Contains, filter_cons.
  case_bool_decide as Hin.
  - rewrite decide_True by exact Hin. cbn [map]. rewrite IH. reflexivity.
  - rewrite decide_False by exact Hin. exact IH.
Qed.

Lemma ColumnNames_file_columns (file_reader : Api.FileReader) :
  Api.ColumnNames file_reader = Api.file_columns file_reader.
Proof.
  unfold Api.ColumnNames, Api.num_columns. rewrite Nat2Z.id.
  apply firstn_all.
Qed.

(** [_AllocateGdfColumns] stays inside the array exactly when the array
    has an element for each index; it then returns [GDF_SUCCESS]. *)
Lemma AllocateGdfColumns_status (i : nat) (indices : list nat)
    (gdf_columns columns : list Api.gdf_column) (status : Api.gdf_error) :
  Api._AllocateGdfColumns_loop i indices gdf_columns
  = Some (status, columns) ->
  status = Api.GDF_SUCCESS /\ length columns = length gdf_columns /\
  ((i + length indices <= length gdf_columns)%nat \/ indices = []).
Proof.
  revert i gdf_columns.
  induction indices as [|index rest IH]; intros i gdf_columns; cbn.
  - intros [= <- <-]. auto.
  - case_bool_decide as Hi; [|discriminate].
    intros Hrun. apply IH in Hrun as (Hst & Hlen & Hfit).
    rewrite length_insert in Hlen, Hfit.
    split; [exact Hst|]. split; [exact Hlen|]. left.
    destruct Hfit as [Hfit| ->]; cbn; lia.
Qed.


Lemma AllocateGdfColumns_past_end (i : nat) (indices : list nat)
    (gdf_columns : list Api.gdf_column) :
  (i <= length gdf_columns < i + length indices)%nat ->
  Api._AllocateGdfColumns_loop i indices gdf_columns = None.
Proof.
  revert i gdf_columns.
  induction indices as [|index rest IH]; intros i gdf_columns Hlen; cbn.
  - cbn in Hlen. lia.
  - cbn in Hlen. case_bool_decide as Hi; [|reflexivity].
    apply IH. rewrite length_insert. lia.
Qed.


Section ReadParquetFacts.

Variable OpenFile : string -> option Api.FileReader.
Variable new_gdf_columns : Z -> bool.
Variable ToGdfColumn_throws : Api.FileReader -> nat -> nat -> option exn.





End ReadParquetFacts.


(** A filter that names the one column of a file three times selects three
    indices for an array of one element: the call writes past its end. *)
Lemma repeated_names_index_past_the_array :
  let file_reader := Api.mkFile 10 1 ["a"]%string in
  Api.IndicesFrom (Api.ColumnFilter (Some ["a"; "a"; "a"]%string))
    (Api.ColumnNames file_reader) = [0; 0; 0]%nat /\
  Api.read_parquet (fun _ => Some file_reader) (fun _ => true)
    (fun _ _ _ => None) "file.parquet" None (Some ["a"; "a"; "a"]%string)
  = None.
Proof. intros file_reader. split; reflexivity. Qed.


(** ** Pages and the page source *)

(** [ReadNewPage] never looks at the reader's [pager_] and [current_page_]
    fields, which it overwrites. *)
Lemma ReadNewPage_from_skip (page : ColumnReader.Page)
    (rest : list ColumnReader.Page) (r : ColumnReader.t) :
  PageSource.skipped page ->
  ColumnReader.ReadNewPage_from (page :: rest) r
  = ColumnReader.ReadNewPage_from rest
      {| ColumnReader.descr_ := ColumnReader.descr_ r;
         ColumnReader.pager_ := rest;
         ColumnReader.current_page_ := Some page;
         ColumnReader.num_buffered_values_ :=
           ColumnReader.num_buffered_values_ r;
         ColumnReader.num_decoded_values_ :=
           ColumnReader.num_decoded_values_ r;
         ColumnReader.decoders_ := ColumnReader.decoders_ r;
         ColumnReader.current_decoder_ := ColumnReader.current_decoder_ r;
         ColumnReader.definition_level_decoder_ :=
           ColumnReader.definition_level_decoder_ r;
         ColumnReader.repetition_level_decoder_ :=
           ColumnReader.repetition_level_decoder_ r |}.
Proof.
  intros [Ht|Ht]; cbn [ColumnReader.ReadNewPage_from]; rewrite Ht; reflexivity.
Qed.

Lemma ReadNewPage_from_fields (pages : list ColumnReader.Page)
    (r1 r2 : ColumnReader.t) :
  ColumnReader.descr_ r1 = ColumnReader.descr_ r2 ->
  ColumnReader.num_buffered_values_ r1 = ColumnReader.num_buffered_values_ r2 ->
  ColumnReader.num_decoded_values_ r1 = ColumnReader.num_decoded_values_ r2 ->
  ColumnReader.decoders_ r1 = ColumnReader.decoders_ r2 ->
  ColumnReader.current_decoder_ r1 = ColumnReader.current_decoder_ r2 ->
  ColumnReader.definition_level_decoder_ r1
  = ColumnReader.definition_level_decoder_ r2 ->
  ColumnReader.repetition_level_decoder_ r1
  = ColumnReader.repetition_level_decoder_ r2 ->
  ColumnReader.ReadNewPage_from pages r1 = ColumnReader.ReadNewPage_from pages r2.
Proof.
  intros H1 H2 H3 H4 H5 H6 H7.
  destruct pages as [|page rest]; cbn [ColumnReader.ReadNewPage_from].
  - rewrite H1, H2, H3, H4, H5, H6, H7. reflexivity.
  - rewrite H1, H2, H3, H4, H5, H6, H7. reflexivity.
Qed.

(** Property X1.  [ReadNewPage] passes over the pages that are neither
    data pages nor dictionary pages (index pages and version-2 data
    pages): with any number of them at the head of the page source, it
    ends as it does on the pages behind them. *)
Theorem ReadNewPage_passes_over_other_pages
    (skipped rest : list ColumnReader.Page) (r : ColumnReader.t) :
  Forall PageSource.skipped skipped ->
  ColumnReader.ReadNewPage_from (skipped ++ rest) r
  = ColumnReader.ReadNewPage_from rest r.
Proof.
  intros Hall. revert r. induction Hall as [|page pre Hpage _ IH]; intros r;
    [reflexivity|].
  cbn [app]. rewrite ReadNewPage_from_skip by exact Hpage.
  rewrite IH. apply ReadNewPage_from_fields; reflexivity.
Qed.

(** What [ReadNewPage] leaves when it returns true. *)
Lemma ReadNewPage_from_true (pages : list ColumnReader.Page)
    (r r' : ColumnReader.t) :
  ColumnReader.ReadNewPage_from pages r = inr (true, r') ->
  exists before page d,
    pages = before ++ page :: ColumnReader.pager_ r' /\
    Forall (fun p => ColumnReader.type p <> ColumnReader.DATA_PAGE) before /\
    ColumnReader.type page = ColumnReader.DATA_PAGE /\
    ColumnReader.current_page_ r' = Some page /\
    ColumnReader.num_buffered_values_ r' = ColumnReader.num_values page /\
    ColumnReader.num_decoded_values_ r' = 0 /\
    ColumnReader.current_decoder_ r' = Some (PageSource.decoder_key page) /\
    ColumnReader.decoders_ r' !! PageSource.decoder_key page = Some d.
Proof.
  revert r. induction pages as [|page rest IH]; intros r;
    cbn [ColumnReader.ReadNewPage_from]; [discriminate|].
  destruct (ColumnReader.type page) eqn:Ht.
  - fold (PageSource.decoder_key page).
    set (found := match ColumnReader.decoders_ r !! PageSource.decoder_key page
                  with Some d => _ | None => _ end).
    destruct found as [e|d]; [discriminate|].
    intros [= <-]. exists [], page. eexists.
    cbn. repeat split; auto. apply lookup_insert_eq.
  - intros H. apply IH in H as (before & p & d & -> & Hb & H).
    exists (page :: before), p, d. split; [reflexivity|].
    split; [constructor; [congruence|exact Hb]|exact H].
  - destruct (ColumnReader._ConfigureDictionary _ _) as [e|[ds out]];
      [discriminate|].
    intros H. apply IH in H as (before & p & d & -> & Hb & H).
    exists (page :: before), p, d. split; [reflexivity|].
    split; [constructor; [congruence|exact Hb]|exact H].
  - intros H. apply IH in H as (before & p & d & -> & Hb & H).
    exists (page :: before), p, d. split; [reflexivity|].
    split; [constructor; [congruence|exact Hb]|exact H].
Qed.

(** What [ReadNewPage] leaves when it returns false. *)
Lemma ReadNewPage_from_false (pages : list ColumnReader.Page)
    (r r' : ColumnReader.t) :
  ColumnReader.ReadNewPage_from pages r = inr (false, r') ->
  Forall (fun p => ColumnReader.type p <> ColumnReader.DATA_PAGE) pages /\
  ColumnReader.pager_ r' = [] /\
  ColumnReader.current_page_ r' = None /\
  ColumnReader.num_buffered_values_ r' = ColumnReader.num_buffered_values_ r /\
  ColumnReader.num_decoded_values_ r' = ColumnReader.num_decoded_values_ r.
Proof.
  revert r. induction pages as [|page rest IH]; intros r;
    cbn [ColumnReader.ReadNewPage_from].
  - intros [= <-]. cbn. auto.
  - destruct (ColumnReader.type page) eqn:Ht.
    + destruct (match ColumnReader.decoders_ r !! _ with
                | Some d => _ | None => _ end) as [e|d]; discriminate.
    + intros H. apply IH in H as (Hb & H). cbn in H.
      split; [constructor; [congruence|exact Hb]|exact H].
    + destruct (ColumnReader._ConfigureDictionary _ _) as [e|[ds out]];
        [discriminate|].
      intros H. apply IH in H as (Hb & H). cbn in H.
      split; [constructor; [congruence|exact Hb]|exact H].
    + intros H. apply IH in H as (Hb & H). cbn in H.
      split; [constructor; [congruence|exact Hb]|exact H].
Qed.

(** Property X2.  When [ReadNewPage] returns true it has stopped at the
    first data page of the source: no page before it is a data page, it is
    the current page, [num_buffered_values_] is its [num_values],
    [num_decoded_values_] is 0, the pages behind it are left in the
    source, and [current_decoder_] points to a decoder cached under the
    key of the page's encoding.  When it returns false the source held no
    data page and is used up, no page is current, and the two counters
    are as they were. *)
Theorem ReadNewPage_stops_at_first_data_page (r r' : ColumnReader.t) :
  (ColumnReader.ReadNewPage r = inr (true, r') ->
   exists before page d,
     ColumnReader.pager_ r = before ++ page :: ColumnReader.pager_ r' /\
     Forall (fun p => ColumnReader.type p <> ColumnReader.DATA_PAGE) before /\
     ColumnReader.type page = ColumnReader.DATA_PAGE /\
     ColumnReader.current_page_ r' = Some page /\
     ColumnReader.num_buffered_values_ r' = ColumnReader.num_values page /\
     ColumnReader.num_decoded_values_ r' = 0 /\
     ColumnReader.current_decoder_ r' = Some (PageSource.decoder_key page) /\
     ColumnReader.decoders_ r' !! PageSource.decoder_key page = Some d) /\
  (ColumnReader.ReadNewPage r = inr (false, r') ->
   Forall (fun p => ColumnReader.type p <> ColumnReader.DATA_PAGE)
     (ColumnReader.pager_ r) /\
   ColumnReader.pager_ r' = [] /\
   ColumnReader.current_page_ r' = None /\
   ColumnReader.num_buffered_values_ r' = ColumnReader.num_buffered_values_ r /\
   ColumnReader.num_decoded_values_ r' = ColumnReader.num_decoded_values_ r).
Proof.
  unfold ColumnReader.ReadNewPage. split.
  - apply ReadNewPage_from_true.
  - apply ReadNewPage_from_false.
Qed.

(** From a reader in the middle of a page [HasNext] answers true and
    changes nothing. *)
Lemma HasNext_mid_page (r : ColumnReader.t) :
  ColumnReader.num_buffered_values_ r <> 0 ->
  ColumnReader.num_decoded_values_ r <> ColumnReader.num_buffered_values_ r ->
  ColumnReader.HasNext r = inr (true, r).
Proof.
  intros Hb Hd. unfold ColumnReader.HasNext.
  destruct (Z.eqb_spec (ColumnReader.num_buffered_values_ r) 0); [lia|].
  destruct (Z.eqb_spec (ColumnReader.num_decoded_values_ r)
              (ColumnReader.num_buffered_values_ r)); [lia|].
  reflexivity.
Qed.

(** After [HasNext] has answered true, values of the current page are
    waiting. *)
Lemma HasNext_true (r r' : ColumnReader.t) :
  ColumnReader.HasNext r = inr (true, r') ->
  ColumnReader.num_buffered_values_ r' <> 0 /\
  ColumnReader.num_decoded_values_ r' <> ColumnReader.num_buffered_values_ r' /\
  (r' = r \/
   ColumnReader.ReadNewPage r = inr (true, r') /\
   (ColumnReader.num_buffered_values_ r = 0 \/
    ColumnReader.num_decoded_values_ r = ColumnReader.num_buffered_values_ r)).
Proof.
  unfold ColumnReader.HasNext.
  destruct (Z.eqb_spec (ColumnReader.num_buffered_values_ r) 0) as [Hb|Hb];
    cbn [orb].
  { destruct (ColumnReader.ReadNewPage r) as [e|[[|] r0]] eqn:Hnew;
      [discriminate| |intros [=]].
    cbn [negb orb].
    destruct (Z.eqb_spec (ColumnReader.num_buffered_values_ r0) 0) as [H0|H0];
      [intros [=]|].
    intros [= <-].
    destruct (ReadNewPage_from_true _ _ _ Hnew)
      as (before & page & d & _ & _ & _ & _ & _ & Hdec & _).
    split; [exact H0|]. split; [lia|]. right. auto. }
  destruct (Z.eqb_spec (ColumnReader.num_decoded_values_ r)
              (ColumnReader.num_buffered_values_ r)) as [Hd|Hd].
  { destruct (ColumnReader.ReadNewPage r) as [e|[[|] r0]] eqn:Hnew;
      [discriminate| |intros [=]].
    cbn [negb orb].
    destruct (Z.eqb_spec (ColumnReader.num_buffered_values_ r0) 0) as [H0|H0];
      [intros [=]|].
    intros [= <-].
    destruct (ReadNewPage_from_true _ _ _ Hnew)
      as (before & page & d & _ & _ & _ & _ & _ & Hdec & _).
    split; [exact H0|]. split; [lia|]. right. auto. }
  intros [= <-]. auto.
Qed.

(** Property X3.  Once [HasNext] has answered true, asking again answers
    true and leaves the reader as it is: no page is fetched while values
    of the current page are waiting. *)
Theorem HasNext_true_is_stable (r r' : ColumnReader.t) :
  ColumnReader.HasNext r = inr (true, r') ->
  ColumnReader.HasNext r' = inr (true, r').
Proof.
  intros H. apply HasNext_true in H as (Hb & Hd & _).
  apply HasNext_mid_page; assumption.
Qed.

Lemma ConfigureDictionary_plain (page : ColumnReader.Page)
    (decoders : gmap Z ColumnReader.Decoder) :
  PageSource.plain_dictionary page ->
  match ColumnReader._ConfigureDictionary page decoders with
  | inl e =>
      is_Some (decoders !! 8) /\
      e = ParquetException "Column cannot have more than one dictionary."
  | inr (decoders', out_decoder) =>
      decoders !! 8 = None /\ is_Some (decoders' !! 8) /\
      out_decoder = Some 8
  end.
Proof.
  intros [_ Henc]. unfold ColumnReader._ConfigureDictionary.
  destruct Henc as [Henc|Henc]; rewrite Henc;
    change (bool_decide (_ = _) || bool_decide (_ = _)) with true;
    cbv iota;
    change (ColumnReader.encoding_int ColumnReader.RLE_DICTIONARY) with 8;
    (destruct (decoders !! 8) as [d|] eqn:Hd;
     [split; [eexists; reflexivity|reflexivity]|]);
    cbn [ColumnReader.Decode ColumnReader.SetData];
    (split; [reflexivity|]); (split; [|reflexivity]);
    rewrite lookup_insert_eq; eexists; reflexivity.
Qed.

(** Property X4.  A column chunk with two dictionary pages in a plain
    encoding, with any pages [ReadNewPage] passes over between them, makes
    [ReadNewPage] throw "Column cannot have more than one dictionary.",
    whatever the reader held before and whatever follows. *)
Theorem second_dictionary_page_throws (r : ColumnReader.t)
    (first second : ColumnReader.Page)
    (between rest : list ColumnReader.Page) :
  PageSource.plain_dictionary first ->
  PageSource.plain_dictionary second ->
  Forall PageSource.skipped between ->
  ColumnReader.ReadNewPage_from (first :: between ++ second :: rest) r
  = inl (ParquetException "Column cannot have more than one dictionary.").
Proof.
  intros Hfirst Hsecond Hbetween.
  assert (Hskip : forall r0, is_Some (ColumnReader.decoders_ r0 !! 8) ->
            ColumnReader.ReadNewPage_from (between ++ second :: rest) r0
            = inl (ParquetException
                     "Column cannot have more than one dictionary.")).
  { induction Hbetween as [|page pre Hpage _ IH]; intros r0 Hkey.
    - cbn [app ColumnReader.ReadNewPage_from]. rewrite (proj1 Hsecond).
      pose proof (ConfigureDictionary_plain second (ColumnReader.decoders_ r0)
                    Hsecond) as Hc2.
      destruct (ColumnReader._ConfigureDictionary second _)
        as [e|[ds' out']].
      + destruct Hc2 as [_ ->]. reflexivity.
      + destruct Hc2 as (Hnone & _). rewrite Hnone in Hkey.
        destruct Hkey as [? [=]].
    - cbn [app]. rewrite ReadNewPage_from_skip by exact Hpage.
      apply IH. exact Hkey. }
  cbn [ColumnReader.ReadNewPage_from].
  rewrite (proj1 Hfirst).
  pose proof (ConfigureDictionary_plain first (ColumnReader.decoders_ r) Hfirst)
    as Hc1.
  destruct (ColumnReader._ConfigureDictionary first _) as [e|[ds out]].
  - destruct Hc1 as [_ ->]. reflexivity.
  - destruct Hc1 as (_ & Hkey & _). apply Hskip. exact Hkey.
Qed.

(** Property X5.  [HasNext] on a reader that needs a page, when the next
    page is a data page whose encoding has no decoder in the cache: a
    PLAIN page gets a new plain decoder bound to its values, and the
    answer is whether the page declares any value; a page of dictionary
    indices throws "Dictionary page must be before data page."; the three
    delta encodings throw the not-yet-implemented exception "Unsupported
    encoding"; RLE and BIT_PACKED throw "Unknown encoding type.". *)
Theorem HasNext_data_page_without_decoder (r : ColumnReader.t)
    (page : ColumnReader.Page) (rest : list ColumnReader.Page) :
  ColumnReader.num_buffered_values_ r = 0 \/
  ColumnReader.num_decoded_values_ r = ColumnReader.num_buffered_values_ r ->
  ColumnReader.pager_ r = page :: rest ->
  ColumnReader.type page = ColumnReader.DATA_PAGE ->
  ColumnReader.decoders_ r !! PageSource.decoder_key page = None ->
  match ColumnReader.encoding page with
  | ColumnReader.PLAIN =>
      exists r',
        ColumnReader.HasNext r
        = inr (negb (ColumnReader.num_values page =? 0), r') /\
        ColumnReader.current_decoder_ r' = Some 0 /\
        ColumnReader.decoders_ r' !! 0
        = Some (ColumnReader.PlainDecoder
                  (take (Z.to_nat (ColumnReader.num_values page))
                     (ColumnReader.data page)))
  | ColumnReader.PLAIN_DICTIONARY | ColumnReader.RLE_DICTIONARY =>
      ColumnReader.HasNext r
      = inl (ParquetException "Dictionary page must be before data page.")
  | ColumnReader.DELTA_BINARY_PACKED | ColumnReader.DELTA_LENGTH_BYTE_ARRAY
  | ColumnReader.DELTA_BYTE_ARRAY =>
      ColumnReader.HasNext r = inl (NYI "Unsupported encoding")
  | ColumnReader.RLE | ColumnReader.BIT_PACKED =>
      ColumnReader.HasNext r = inl (ParquetException "Unknown encoding type.")
  end.
Proof.
  intros Hneed Hpager Htype Hcache.
  unfold ColumnReader.HasNext, ColumnReader.ReadNewPage.
  replace ((ColumnReader.num_buffered_values_ r =? 0)
           || (ColumnReader.num_decoded_values_ r
               =? ColumnReader.num_buffered_values_ r)) with true.
  2:{ symmetry. apply orb_true_iff.
      destruct Hneed; [left|right]; apply Z.eqb_eq; assumption. }
  rewrite Hpager. cbn [ColumnReader.ReadNewPage_from]. rewrite Htype.
  unfold PageSource.decoder_key in Hcache.
  destruct (ColumnReader.encoding page) eqn:Henc;
    set (dict := ColumnReader._IsDictionaryIndexEncoding _) in *;
    vm_compute in dict; subst dict; cbv iota in Hcache |- *;
    rewrite Hcache; try reflexivity.
  change (ColumnReader.encoding_int ColumnReader.PLAIN) with 0.
  cbn [negb orb ColumnReader.num_buffered_values_ ColumnReader.SetData].
  eexists. split.
  - destruct (ColumnReader.num_values page =? 0); reflexivity.
  - cbn. split; [reflexivity|]. apply lookup_insert_eq.
Qed.

(** An index page and a version-2 data page before a data page. *)
Lemma ReadNewPage_passes_over_other_pages_witness :
  let index :=
    ColumnReader.mkPage ColumnReader.INDEX_PAGE ColumnReader.PLAIN 0
      [] [] [] in
  let v2 :=
    ColumnReader.mkPage ColumnReader.DATA_PAGE_V2 ColumnReader.PLAIN 3
      [] [] [1; 2; 3] in
  let page :=
    ColumnReader.mkPage ColumnReader.DATA_PAGE ColumnReader.PLAIN 3
      [] [1; 0; 1] [5; 7] in
  let r := ColumnReader.new (ColumnReader.mkDescr 1 0) [index; v2; page] in
  Forall PageSource.skipped [index; v2] /\
  ColumnReader.ReadNewPage_from ([index; v2] ++ [page]) r
  = ColumnReader.ReadNewPage_from [page] r.
Proof.
  intros index v2 page r.
  assert (H : Forall PageSource.skipped [index; v2]).
  { constructor; [left; reflexivity|].
    constructor; [right; reflexivity|]. constructor. }
  split; [exact H|].
  exact (ReadNewPage_passes_over_other_pages [index; v2] [page] r H).
Defined.

(** A dictionary page before the data page: the first branch; two index
    pages and nothing else: the second. *)
Lemma ReadNewPage_stops_at_first_data_page_witness :
  let dictionary :=
    ColumnReader.mkPage ColumnReader.DICTIONARY_PAGE
      ColumnReader.PLAIN_DICTIONARY 2 [] [] [10; 20] in
  let page :=
    ColumnReader.mkPage ColumnReader.DATA_PAGE ColumnReader.PLAIN_DICTIONARY
      3 [] [1; 0; 1] [1; 0] in
  let r := ColumnReader.new (ColumnReader.mkDescr 1 0) [dictionary; page] in
  exists r',
    ColumnReader.ReadNewPage r = inr (true, r') /\
    ColumnReader.pager_ r' = [] /\
    ColumnReader.current_page_ r' = Some page /\
    ColumnReader.num_buffered_values_ r' = 3 /\
    ColumnReader.num_decoded_values_ r' = 0.
Proof.
  intros dictionary page r.
  destruct (ColumnReader.ReadNewPage r) as [e|[[|] r']] eqn:Hnew;
    [vm_compute in Hnew; discriminate Hnew| |
     vm_compute in Hnew; discriminate Hnew].
  exists r'. split; [reflexivity|].
  destruct (proj1 (ReadNewPage_stops_at_first_data_page r r') Hnew)
    as (before & p & d & Hpager & Hbefore & Htype & Hcur & Hbuf & Hdec & _).
  assert (Hr' : ColumnReader.pager_ r' = []
                /\ ColumnReader.current_page_ r' = Some page).
  { pose proof Hnew as H. vm_compute in H. injection H as <-.
    split; reflexivity. }
  destruct Hr' as [Hp Hc]. rewrite Hc in Hcur. injection Hcur as <-.
  split; [exact Hp|]. split; [exact Hc|]. split; [exact Hbuf|exact Hdec].
Defined.

Lemma HasNext_true_is_stable_witness :
  let page :=
    ColumnReader.mkPage ColumnReader.DATA_PAGE ColumnReader.PLAIN 3
      [] [1; 0; 1] [5; 7] in
  let r := ColumnReader.new (ColumnReader.mkDescr 1 0) [page] in
  exists r',
    ColumnReader.HasNext r = inr (true, r') /\
    ColumnReader.HasNext r' = inr (true, r').
Proof.
  intros page r.
  destruct (ColumnReader.HasNext r) as [e|[[|] r']] eqn:Hnext;
    [vm_compute in Hnext; discriminate Hnext| |
     vm_compute in Hnext; discriminate Hnext].
  exists r'. split; [reflexivity|].
  exact (HasNext_true_is_stable r r' Hnext).
Defined.

(** Two dictionary pages with an index page between them. *)
Lemma second_dictionary_page_throws_witness :
  let first :=
    ColumnReader.mkPage ColumnReader.DICTIONARY_PAGE
      ColumnReader.PLAIN_DICTIONARY 2 [] [] [10; 20] in
  let index :=
    ColumnReader.mkPage ColumnReader.INDEX_PAGE ColumnReader.PLAIN 0
      [] [] [] in
  let second :=
    ColumnReader.mkPage ColumnReader.DICTIONARY_PAGE ColumnReader.PLAIN 1
      [] [] [30] in
  let r := ColumnReader.new (ColumnReader.mkDescr 1 0)
             [first; index; second] in
  (PageSource.plain_dictionary first /\
   PageSource.plain_dictionary second /\
   Forall PageSource.skipped [index]) /\
  ColumnReader.ReadNewPage_from (first :: [index] ++ second :: []) r
  = inl (ParquetException "Column cannot have more than one dictionary.").
Proof.
  intros first index second r.
  assert (H1 : PageSource.plain_dictionary first)
    by (split; [reflexivity|left; reflexivity]).
  assert (H2 : PageSource.plain_dictionary second)
    by (split; [reflexivity|right; reflexivity]).
  assert (H3 : Forall PageSource.skipped [index])
    by (constructor; [left; reflexivity|constructor]).
  split; [auto|].
  exact (second_dictionary_page_throws r first second [index] [] H1 H2 H3).
Defined.

(** A first data page of plain values, and one of dictionary indices with
    no dictionary page before it. *)
Lemma HasNext_data_page_without_decoder_witness :
  let page :=
    ColumnReader.mkPage ColumnReader.DATA_PAGE ColumnReader.RLE_DICTIONARY
      3 [] [1; 0; 1] [1; 0] in
  let r := ColumnReader.new (ColumnReader.mkDescr 1 0) [page] in
  ((ColumnReader.num_buffered_values_ r = 0 \/
    ColumnReader.num_decoded_values_ r = ColumnReader.num_buffered_values_ r)
   /\ ColumnReader.pager_ r = [page]
   /\ ColumnReader.type page = ColumnReader.DATA_PAGE
   /\ ColumnReader.decoders_ r !! PageSource.decoder_key page = None) /\
  ColumnReader.HasNext r
  = inl (ParquetException "Dictionary page must be before data page.").
Proof.
  intros page r.
  assert (H1 : ColumnReader.num_buffered_values_ r = 0 \/
               ColumnReader.num_decoded_values_ r
               = ColumnReader.num_buffered_values_ r)
    by (left; reflexivity).
  assert (H2 : ColumnReader.pager_ r = [page]) by reflexivity.
  assert (H3 : ColumnReader.type page = ColumnReader.DATA_PAGE)
    by reflexivity.
  assert (H4 : ColumnReader.decoders_ r !! PageSource.decoder_key page = None)
    by apply lookup_empty.
  split; [auto|].
  exact (HasNext_data_page_without_decoder r page [] H1 H2 H3 H4).
Defined.

(** ** [ToGdfColumn] before the first page *)

Lemma Decode_zero (d : ColumnReader.Decoder) :
  fst (ColumnReader.Decode 0 d) = [].
Proof. destruct d; reflexivity. Qed.

Lemma ReadValues_zero (r : ColumnReader.t) :
  PageState.mid_page r ->
  fst (ColumnReader._ReadValues 0 r) = [] /\
  PageState.mid_page (snd (ColumnReader._ReadValues 0 r)).
Proof.
  intros (Hlt & Hb & key & Hkey & [d Hd]).
  unfold ColumnReader._ReadValues. rewrite Hkey, Hd.
  change (Ints.int32 0) with 0.
  pose proof (Decode_zero d) as Hz.
  destruct (ColumnReader.Decode 0 d) as [vs d']. cbn in Hz. subst vs.
  cbn [fst snd]. split; [reflexivity|].
  unfold PageState.mid_page. cbn. split; [exact Hlt|]. split; [exact Hb|].
  exists key. split; [reflexivity|]. rewrite lookup_insert_eq. eexists; reflexivity.
Qed.

(** Asked for a batch of zero rows in the middle of a page, [ReadBatch]
    reads nothing and leaves the reader in the middle of the page. *)
Lemma ReadBatch_zero (def_levels : option ColumnReader.ptr)
    (values : ColumnReader.ptr) (r : ColumnReader.t) :
  PageState.mid_page r ->
  exists b,
    ColumnReader.ReadBatch 0 def_levels None values r = inr b /\
    ColumnReader.total_values b = 0 /\
    ColumnReader.values_read b = 0 /\
    PageState.mid_page (ColumnReader.reader b).
Proof.
  intros Hmid. pose proof Hmid as (Hlt & Hb & key & Hkey & Hd).
  unfold ColumnReader.ReadBatch.
  rewrite HasNext_mid_page by lia.
  replace (Z.min 0 (ColumnReader.num_buffered_values_ r
                    - ColumnReader.num_decoded_values_ r)) with 0 by lia.
  assert (Hconsume : forall r0, PageState.mid_page r0 ->
            PageState.mid_page (ColumnReader.ConsumeBufferedValues 0 r0)).
  { intros r0 (H1 & H2 & H3). unfold PageState.mid_page. cbn.
    rewrite Z.add_0_r. auto. }
  assert (Hfinish : forall values_to_read num_def_levels dl r0,
            values_to_read = 0 -> num_def_levels = 0 -> PageState.mid_page r0 ->
            exists b,
              (let '(vs, r3) := ColumnReader._ReadValues values_to_read r0 in
               let values_read := Z.of_nat (length vs) in
               let total_values := Z.max num_def_levels values_read in
               inr {| ColumnReader.total_values := total_values;
                      ColumnReader.values_read := values_read;
                      ColumnReader.def_levels := dl;
                      ColumnReader.rep_levels := None;
                      ColumnReader.values :=
                        {| ColumnReader.arr :=
                             Mem.write_at (ColumnReader.arr values)
                               (ColumnReader.off values) vs;
                           ColumnReader.off := ColumnReader.off values |};
                      ColumnReader.reader :=
                        ColumnReader.ConsumeBufferedValues total_values r3 |})
              = (inr b : exn + ColumnReader.batch) /\
              ColumnReader.total_values b = 0 /\
              ColumnReader.values_read b = 0 /\
              PageState.mid_page (ColumnReader.reader b)).
  { intros vtr n dl r0 -> -> Hr0.
    destruct (ReadValues_zero r0 Hr0) as [Hvs Hr3].
    destruct (ColumnReader._ReadValues 0 r0) as [vs r3].
    cbn in Hvs, Hr3. subst vs.
    eexists. split; [reflexivity|]. cbn. auto. }
  destruct def_levels as [p|].
  - destruct (0 <? ColumnReader.max_definition_level (ColumnReader.descr_ r)).
    + unfold ColumnReader.ReadDefinitionLevels.
      destruct (ColumnReader.max_definition_level (ColumnReader.descr_ r) =? 0).
      * apply Hfinish; auto.
      * cbn [Z.to_nat take length Z.of_nat].
        apply Hfinish; [reflexivity|reflexivity|].
        unfold PageState.mid_page. cbn. auto.
    + apply Hfinish; auto.
  - apply Hfinish; auto.
Qed.

(** Once a page is current, a loop that asks for batches of zero rows
    makes no progress. *)
Lemma ToGdfColumn_loop_zero (fuel : nat) (s : ColumnReader.loop_state) :
  (exists r1, ColumnReader.HasNext (ColumnReader.loop_reader s) = inr (true, r1)
              /\ PageState.mid_page r1) ->
  ColumnReader.ToGdfColumn_loop fuel 0 s = None.
Proof.
  revert s. induction fuel as [|fuel IH]; intros s (r1 & Hnext & Hmid);
    [reflexivity|].
  cbn [ColumnReader.ToGdfColumn_loop]. rewrite Hnext.
  destruct (ReadBatch_zero
              (Some {| ColumnReader.arr := ColumnReader.loop_definition_levels s;
                       ColumnReader.off := ColumnReader.rows_read_total s |})
              {| ColumnReader.arr := ColumnReader.loop_values s;
                 ColumnReader.off := ColumnReader.values_read_counter s |}
              r1 Hmid) as (b & Hb & Htotal & _ & Hmid').
  rewrite Hb, Htotal.
  unfold Levels._DefinitionLevelsToBitmap'.
  cbn [Z.to_nat take Levels._DefinitionLevelsToBitmap'_loop].
  apply IH. cbn [ColumnReader.loop_reader].
  exists (ColumnReader.reader b). split; [|exact Hmid'].
  destruct Hmid' as (H1 & H2 & _). apply HasNext_mid_page; lia.
Qed.

(** Property X6.  Called on a reader with no value waiting (as a new
    reader), [ToGdfColumn] takes its batch size from the page counters
    before its loop fetches a page, so the batch size is 0; when the source
    then yields a page with values, every turn of the loop reads nothing
    and the loop never ends: no number of turns gives a result. *)
Theorem ToGdfColumn_before_first_page_never_returns (fuel : nat)
    (definition_levels : list Z) (column : ColumnReader.gdf_column)
    (uninit : list Z) (r r1 : ColumnReader.t) :
  ColumnReader.num_decoded_values_ r = ColumnReader.num_buffered_values_ r ->
  ColumnReader.HasNext r = inr (true, r1) ->
  0 <= ColumnReader.num_buffered_values_ r1 ->
  ColumnReader.ToGdfColumn_values_to_read r = 0 /\
  ColumnReader.ToGdfColumn fuel definition_levels column uninit r = None.
Proof.
  intros Heq Hnext Hpos.
  assert (Hzero : ColumnReader.ToGdfColumn_values_to_read r = 0).
  { unfold ColumnReader.ToGdfColumn_values_to_read. rewrite Heq, Z.sub_diag.
    reflexivity. }
  split; [exact Hzero|].
  unfold ColumnReader.ToGdfColumn. rewrite Hzero.
  rewrite ToGdfColumn_loop_zero; [reflexivity|].
  cbn [ColumnReader.ToGdfColumn_init ColumnReader.loop_reader].
  exists r1. split; [exact Hnext|].
  destruct (HasNext_true _ _ Hnext) as (Hb & Hd & [->|[Hnew _]]); [lia|].
  destruct (ReadNewPage_from_true _ _ _ Hnew)
    as (before & page & d & _ & _ & _ & _ & _ & Hdec & Hkey & Hcache).
  unfold PageState.mid_page. split; [lia|]. split; [exact Hb|].
  eexists. split; [exact Hkey|]. eexists; exact Hcache.
Qed.

Lemma ToGdfColumn_before_first_page_never_returns_witness :
  let page :=
    ColumnReader.mkPage ColumnReader.DATA_PAGE ColumnReader.PLAIN 3
      [] [1; 0; 1] [5; 7] in
  let r := ColumnReader.new (ColumnReader.mkDescr 1 0) [page] in
  exists r1,
    (ColumnReader.num_decoded_values_ r = ColumnReader.num_buffered_values_ r /\
     ColumnReader.HasNext r = inr (true, r1) /\
     0 <= ColumnReader.num_buffered_values_ r1) /\
    ColumnReader.ToGdfColumn 1000 [0; 0; 0]
      (ColumnReader.mkColumn [0; 0; 0] [0]) [0] r = None.
Proof.
  intros page r.
  destruct (ColumnReader.HasNext r) as [e|[[|] r1]] eqn:Hnext;
    [vm_compute in Hnext; discriminate Hnext| |
     vm_compute in Hnext; discriminate Hnext].
  assert (Hpos : 0 <= ColumnReader.num_buffered_values_ r1).
  { pose proof Hnext as H. vm_compute in H. injection H as <-.
    vm_compute. discriminate. }
  exists r1. split; [split; [reflexivity|split; [reflexivity|exact Hpos]]|].
  exact (proj2 (ToGdfColumn_before_first_page_never_returns 1000 [0; 0; 0]
                  (ColumnReader.mkColumn [0; 0; 0] [0]) [0] r r1
                  eq_refl Hnext Hpos)).
Defined.

(** ** [ReadBatch] within the page *)

Lemma int32_le (x : Z) : 0 <= x -> Ints.int32 x <= x.
Proof.
  intros Hx. unfold Ints.int32, Ints.wrap_signed. change (32 - 1) with 31.
  pose proof (Z.mod_le (x + 2 ^ 31) (2 ^ 32) ltac:(lia) ltac:(lia)). lia.
Qed.

Lemma Decode_length (n : Z) (d : ColumnReader.Decoder) :
  Z.of_nat (length (fst (ColumnReader.Decode n d))) <= Z.max 0 n.
Proof.
  destruct d; cbn [ColumnReader.Decode fst];
    rewrite ?length_map, length_take; lia.
Qed.

Lemma ReadValues_bounds (n : Z) (r : ColumnReader.t) :
  0 <= n ->
  let res := ColumnReader._ReadValues n r in
  Z.of_nat (length (fst res)) <= n /\
  ColumnReader.num_buffered_values_ (snd res)
  = ColumnReader.num_buffered_values_ r /\
  ColumnReader.num_decoded_values_ (snd res)
  = ColumnReader.num_decoded_values_ r /\
  ColumnReader.pager_ (snd res) = ColumnReader.pager_ r.
Proof.
  intros Hn. cbv zeta. unfold ColumnReader._ReadValues.
  destruct (ColumnReader.current_decoder_ r) as [key|]; [|cbn; auto with lia].
  destruct (ColumnReader.decoders_ r !! key) as [d|]; [|cbn; auto with lia].
  pose proof (Decode_length (Ints.int32 n) d) as Hlen.
  pose proof (int32_le n Hn).
  destruct (ColumnReader.Decode (Ints.int32 n) d) as [vs d']. cbn in *.
  repeat split; lia.
Qed.

Lemma count_present_bounds (levels : ColumnReader.ptr) (n max : Z) :
  0 <= ColumnReader.count_present levels n max <= Z.max 0 n.
Proof.
  unfold ColumnReader.count_present.
  pose proof (length_filter
    (fun i => ColumnReader.arr levels
                !! (Z.to_nat (ColumnReader.off levels) + i)%nat = Some max)
    (seq 0 (Z.to_nat n))) as Hlen.
  rewrite length_seq in Hlen. lia.
Qed.

Lemma HasNext_within_page (r r' : ColumnReader.t) (b : bool) :
  PageBounds.within_page r ->
  ColumnReader.HasNext r = inr (b, r') ->
  PageBounds.within_page r'.
Proof.
  intros [Hle Hall]. unfold ColumnReader.HasNext.
  destruct (_ || _).
  - destruct (ColumnReader.ReadNewPage r) as [e|[[|] r0]] eqn:Hnew;
      [discriminate| |].
    + destruct (ReadNewPage_from_true _ _ _ Hnew)
        as (before & page & d & Hpages & _ & _ & _ & Hbuf & Hdec & _).
      rewrite Hpages in Hall. apply Forall_app in Hall as [_ Hall].
      apply Forall_cons in Hall as [Hpage Hall].
      assert (PageBounds.within_page r0).
      { split; [lia|exact Hall]. }
      destruct (_ || _); intros [= <- <-]; assumption.
    + destruct (ReadNewPage_from_false _ _ _ Hnew)
        as (_ & Hpager & _ & Hbuf & Hdec).
      cbn. intros [= <- <-]. split; [lia|]. rewrite Hpager. constructor.
  - intros [= <- <-]. split; assumption.
Qed.

(** Property X7.  [ReadBatch] never reads past the page: on a reader
    whose decoded count does not exceed its buffered count, over a source
    whose pages declare no negative [num_values], a call with a
    non-negative [batch_size] returns a row count that is at most
    [batch_size], stores in [*values_read] a count between 0 and the row
    count, and leaves a reader of which the same holds. *)
Theorem ReadBatch_stays_within_page (batch_size : Z)
    (def_levels rep_levels : option ColumnReader.ptr)
    (values : ColumnReader.ptr) (r : ColumnReader.t) (b : ColumnReader.batch) :
  0 <= batch_size ->
  PageBounds.within_page r ->
  ColumnReader.ReadBatch batch_size def_levels rep_levels values r = inr b ->
  0 <= ColumnReader.values_read b <= ColumnReader.total_values b /\
  ColumnReader.total_values b <= batch_size /\
  PageBounds.within_page (ColumnReader.reader b).
Proof.
  intros Hbs Hin. unfold ColumnReader.ReadBatch.
  destruct (ColumnReader.HasNext r) as [e|[[|] r0]] eqn:Hnext;
    [discriminate| |].
  2:{ intros [= <-]. cbn. split; [lia|]. split; [lia|].
      eapply HasNext_within_page; eauto. }
  pose proof (HasNext_within_page _ _ _ Hin Hnext) as [Hle Hall].
  set (clamped := Z.min batch_size _).
  assert (Hclamped : 0 <= clamped <= batch_size /\
                     clamped <= ColumnReader.num_buffered_values_ r0
                                - ColumnReader.num_decoded_values_ r0)
    by (unfold clamped; lia).
  clearbody clamped.
  (* the definition levels *)
  set (first := match def_levels with Some p => _ | None => _ end).
  assert (Hfirst : exists n vtr dl r1,
            first = (n, vtr, dl, r1) /\
            0 <= n <= clamped /\ 0 <= vtr <= clamped /\
            ColumnReader.num_buffered_values_ r1
            = ColumnReader.num_buffered_values_ r0 /\
            ColumnReader.num_decoded_values_ r1
            = ColumnReader.num_decoded_values_ r0 /\
            ColumnReader.pager_ r1 = ColumnReader.pager_ r0).
  { unfold first. destruct def_levels as [p|]; [|eauto 12 with lia].
    destruct (0 <? _); [|eauto 12 with lia].
    unfold ColumnReader.ReadDefinitionLevels.
    destruct (_ =? 0).
    - pose proof (count_present_bounds p 0
                    (ColumnReader.max_definition_level (ColumnReader.descr_ r0))).
      eexists _, _, _, _. split; [reflexivity|]. repeat split; lia.
    - set (ls := take (Z.to_nat clamped) _).
      assert (Z.of_nat (length ls) <= clamped)
        by (unfold ls; rewrite length_take; lia).
      pose proof (count_present_bounds
                    {| ColumnReader.arr :=
                         Mem.write_at (ColumnReader.arr p) (ColumnReader.off p) ls;
                       ColumnReader.off := ColumnReader.off p |}
                    (Z.of_nat (length ls))
                    (ColumnReader.max_definition_level (ColumnReader.descr_ r0))).
      eexists _, _, _, _. split; [reflexivity|]. cbn. repeat split; lia. }
  destruct Hfirst as (n & vtr & dl & r1 & -> & Hn & Hvtr & Hb1 & Hd1 & Hp1).
  (* the repetition levels *)
  set (rep := match rep_levels with Some p => _ | None => _ end).
  assert (Hrep : forall rl r2, rep = inr (rl, r2) ->
            ColumnReader.num_buffered_values_ r2
            = ColumnReader.num_buffered_values_ r1 /\
            ColumnReader.num_decoded_values_ r2
            = ColumnReader.num_decoded_values_ r1 /\
            ColumnReader.pager_ r2 = ColumnReader.pager_ r1).
  { unfold rep. intros rl r2. destruct rep_levels as [p|];
      [|intros [= <- <-]; auto].
    destruct (0 <? _); [|intros [= <- <-]; auto].
    unfold ColumnReader.ReadRepetitionLevels.
    destruct (_ =? 0); destruct (_ && _); try discriminate;
      intros [= <- <-]; cbn; auto. }
  destruct rep as [e|[rl r2]]; [discriminate|].
  destruct (Hrep rl r2 eq_refl) as (Hb2 & Hd2 & Hp2).
  pose proof (ReadValues_bounds vtr r2 ltac:(lia)) as Hread.
  destruct (ColumnReader._ReadValues vtr r2) as [vs r3]. cbn in Hread.
  destruct Hread as (Hlen & Hb3 & Hd3 & Hp3).
  intros [= <-]. cbn. split; [lia|]. split; [lia|].
  split; cbn; [lia|]. rewrite Hp3, Hp2, Hp1. exact Hall.
Qed.

(** The first batch of two rows of a page of three. *)
Lemma ReadBatch_stays_within_page_witness :
  let page :=
    ColumnReader.mkPage ColumnReader.DATA_PAGE ColumnReader.PLAIN 3
      [] [1; 0; 1] [5; 7] in
  let r := ColumnReader.new (ColumnReader.mkDescr 1 0) [page] in
  let levels := {| ColumnReader.arr := [0; 0; 0]; ColumnReader.off := 0 |} in
  let values := {| ColumnReader.arr := [0; 0; 0]; ColumnReader.off := 0 |} in
  exists b,
    (0 <= 2 /\ PageBounds.within_page r /\
     ColumnReader.ReadBatch 2 (Some levels) None values r = inr b) /\
    ColumnReader.total_values b = 2 /\
    ColumnReader.values_read b = 1 /\
    PageBounds.within_page (ColumnReader.reader b).
Proof.
  intros page r levels values.
  destruct (ColumnReader.ReadBatch 2 (Some levels) None values r)
    as [e|b] eqn:Hb; [vm_compute in Hb; discriminate Hb|].
  assert (H0 : 0 <= 2) by lia.
  assert (Hin : PageBounds.within_page r).
  { split; [cbn; lia|]. constructor; [cbn; lia|constructor]. }
  exists b. split; [auto|].
  destruct (ReadBatch_stays_within_page 2 (Some levels) None values r b
              H0 Hin Hb) as (_ & _ & Hout).
  assert (Hc : ColumnReader.total_values b = 2
               /\ ColumnReader.values_read b = 1).
  { pose proof Hb as H. vm_compute in H. injection H as <-.
    split; reflexivity. }
  destruct Hc. auto.
Defined.

(** ** The RLE decoder: counts and repeated runs *)

(** A block write, seen from a slot of the array. *)
Lemma store_lookup_after (buf : list Z) (off : nat) (xs : list Z) (i : nat) :
  (off + length xs <= i)%nat -> Mem.store buf off xs !! i = buf !! i.
Proof.
  revert buf off. induction xs as [|x xs IH]; intros buf off Hi; cbn in *;
    [reflexivity|].
  rewrite IH by lia. apply list_lookup_insert_ne. lia.
Qed.

Lemma store_lookup_in (buf : list Z) (off : nat) (xs : list Z) (i : nat) :
  (off <= i < off + length xs)%nat -> (i < length buf)%nat ->
  Mem.store buf off xs !! i = xs !! (i - off)%nat.
Proof.
  revert buf off. induction xs as [|x xs IH]; intros buf off Hi Hlen; cbn in *;
    [lia|].
  destruct (decide (i = off)) as [->|Hne].
  - rewrite store_lookup_before by lia. rewrite Nat.sub_diag. cbn.
    apply list_lookup_insert_eq. exact Hlen.
  - rewrite IH by (rewrite ?length_insert; lia).
    replace (i - off)%nat with (S (i - S off)) by lia. reflexivity.
Qed.

Lemma fill_length (buf : list Z) (off n v : Z) :
  length (Mem.fill buf off n v) = length buf.
Proof. apply write_at_length. Qed.

Lemma fill_lookup_in (buf : list Z) (n v : Z) (i : nat) :
  Z.of_nat i < n -> (i < length buf)%nat ->
  Mem.fill buf 0 n v !! i = Some v.
Proof.
  intros Hi Hlen. unfold Mem.fill, Mem.write_at. cbn [Z.ltb Z.compare Z.to_nat].
  rewrite store_lookup_in by (rewrite ?length_replicate; lia).
  apply lookup_replicate_2. lia.
Qed.

Lemma fill_lookup_after (buf : list Z) (n v : Z) (i : nat) :
  n <= Z.of_nat i -> Mem.fill buf 0 n v !! i = buf !! i.
Proof.
  intros Hi. unfold Mem.fill, Mem.write_at. cbn [Z.ltb Z.compare Z.to_nat].
  apply store_lookup_after. rewrite length_replicate. lia.
Qed.

Section RleMore.

Context {R : Type} {ops : BitReader.Ops R}.
Variable castT : Z -> Z.

Lemma NextCounts_false (d d' : RleDecoder.t R) :
  RleDecoder.NextCounts d = (false, d') ->
  RleDecoder.repeat_count_ d' = RleDecoder.repeat_count_ d /\
  RleDecoder.literal_count_ d' = RleDecoder.literal_count_ d /\
  RleDecoder.current_value_ d' = RleDecoder.current_value_ d /\
  RleDecoder.bit_width_ d' = RleDecoder.bit_width_ d /\
  BitReader.GetVlqInt (RleDecoder.bit_reader_ d)
  = (None, RleDecoder.bit_reader_ d').
Proof.
  unfold RleDecoder.NextCounts.
  destruct (BitReader.GetVlqInt _) as [[h|] r].
  - destruct (Z.testbit h 0); [discriminate|].
    destruct (BitReader.GetAligned _ _) as [res r']. discriminate.
  - intros [= <-]. cbn. auto.
Qed.

(** The invariant of the loop of [GetBatch], and what holds when it is
    left. *)
Lemma GetBatch_loop_count (fuel : nat) (batch_size : Z)
    (s s' : RleDecoder.loop_state R) :
  RleDecoder.values_read s <= Z.max 0 batch_size ->
  RleDecoder.GetBatch_loop castT fuel batch_size s = Some s' ->
  RleDecoder.values_read s' <= Z.max 0 batch_size /\
  length (RleDecoder.values s') = length (RleDecoder.values s) /\
  RleDecoder.bit_width_ (RleDecoder.dec s')
  = RleDecoder.bit_width_ (RleDecoder.dec s) /\
  (RleDecoder.values_read s' < batch_size ->
   RleDecoder.repeat_count_ (RleDecoder.dec s') <= 0 /\
   RleDecoder.literal_count_ (RleDecoder.dec s') <= 0 /\
   exists r, BitReader.GetVlqInt r
             = (None, RleDecoder.bit_reader_ (RleDecoder.dec s'))).
Proof.
  revert s. induction fuel as [|fuel IH]; intros s Hinv; cbn; [discriminate|].
  destruct (Z.ltb_spec (RleDecoder.values_read s) batch_size) as [Hlt|Hge].
  2:{ intros [= <-]. repeat split; auto; lia. }
  unfold RleDecoder.GetBatch_body.
  destruct (Z.ltb_spec 0 (RleDecoder.repeat_count_ (RleDecoder.dec s))).
  { intros Hloop. apply IH in Hloop; [|cbn; lia].
    cbn in Hloop. rewrite fill_length in Hloop. exact Hloop. }
  destruct (Z.ltb_spec 0 (RleDecoder.literal_count_ (RleDecoder.dec s))).
  { destruct (BitReader.GetBatch _ _ _) as [vs r].
    intros Hloop. apply IH in Hloop; [|cbn; lia].
    cbn in Hloop. rewrite write_at_length in Hloop. exact Hloop. }
  destruct (RleDecoder.NextCounts (RleDecoder.dec s)) as [[|] d'] eqn:Hnext.
  - intros Hloop. apply IH in Hloop; [|cbn; lia]. cbn in Hloop.
    pose proof (NextCounts_counters (RleDecoder.dec s)) as [_ Hw].
    rewrite Hnext in Hw. cbn in Hw. rewrite Hw in Hloop. exact Hloop.
  - intros [= <-]. cbn.
    destruct (NextCounts_false _ _ Hnext) as (Hr & Hl & _ & Hw & Hvlq).
    repeat split; try lia; auto. eexists; exact Hvlq.
Qed.

(** Property X8.  [GetBatch] never reports more values than it was asked
    for and keeps the length of the caller's array and the bit width; when
    it reports fewer, both run counters are at most 0 and the last thing
    it did was a read of a run header that failed. *)
Theorem GetBatch_count_and_short_read (fuel : nat) (vals : list Z)
    (batch_size : Z) (d : RleDecoder.t R) (s : RleDecoder.loop_state R) :
  RleDecoder.GetBatch castT fuel vals batch_size d = Some s ->
  RleDecoder.values_read s <= Z.max 0 batch_size /\
  length (RleDecoder.values s) = length vals /\
  RleDecoder.bit_width_ (RleDecoder.dec s) = RleDecoder.bit_width_ d /\
  (RleDecoder.values_read s < batch_size ->
   RleDecoder.repeat_count_ (RleDecoder.dec s) <= 0 /\
   RleDecoder.literal_count_ (RleDecoder.dec s) <= 0 /\
   exists r, BitReader.GetVlqInt r
             = (None, RleDecoder.bit_reader_ (RleDecoder.dec s))).
Proof.
  intros Hg. unfold RleDecoder.GetBatch in Hg.
  apply GetBatch_loop_count in Hg; [exact Hg|cbn; lia].
Qed.

(** Property X9.  A batch no longer than the repeated run in progress is
    served from the run alone: [GetBatch] returns [batch_size], the first
    [batch_size] slots of the array hold the current value (cast to the
    value type), the other slots are as they were, no byte is read, and
    [repeat_count_] goes down by [batch_size]. *)
Theorem GetBatch_inside_repeated_run (fuel : nat) (vals : list Z)
    (batch_size : Z) (d : RleDecoder.t R) :
  0 < batch_size <= RleDecoder.repeat_count_ d ->
  RleDecoder.repeat_count_ d < 2 ^ 31 ->
  exists s,
    RleDecoder.GetBatch castT (S (S fuel)) vals batch_size d = Some s /\
    RleDecoder.values_read s = batch_size /\
    RleDecoder.values s
    = Mem.fill vals 0 batch_size (castT (RleDecoder.current_value_ d)) /\
    (forall i : nat,
       Z.of_nat i < batch_size -> (i < length vals)%nat ->
       RleDecoder.values s !! i = Some (castT (RleDecoder.current_value_ d))) /\
    (forall i : nat,
       batch_size <= Z.of_nat i -> RleDecoder.values s !! i = vals !! i) /\
    RleDecoder.bit_reader_ (RleDecoder.dec s) = RleDecoder.bit_reader_ d /\
    RleDecoder.current_value_ (RleDecoder.dec s) = RleDecoder.current_value_ d /\
    RleDecoder.repeat_count_ (RleDecoder.dec s)
    = RleDecoder.repeat_count_ d - batch_size /\
    RleDecoder.literal_count_ (RleDecoder.dec s) = RleDecoder.literal_count_ d.
Proof.
  intros Hbs Hrc. unfold RleDecoder.GetBatch.
  cbn [RleDecoder.GetBatch_loop RleDecoder.values_read].
  destruct (Z.ltb_spec 0 batch_size); [|lia].
  destruct (GetBatch_body_repeated_run castT batch_size
              {| RleDecoder.values := vals; RleDecoder.values_read := 0;
                 RleDecoder.dec := d |}) as [_ Hbody]; cbn; [lia|lia|].
  cbn in Hbody. rewrite Hbody. clear Hbody.
  replace (Z.min (batch_size - 0) (RleDecoder.repeat_count_ d))
    with batch_size by lia.
  cbn [RleDecoder.values_read]. rewrite Z.add_0_l.
  rewrite Z.ltb_irrefl.
  eexists. split; [reflexivity|]. cbn.
  split; [reflexivity|]. split; [reflexivity|].
  split; [intros i Hi Hlen; apply fill_lookup_in; assumption|].
  split; [intros i Hi; apply fill_lookup_after; assumption|].
  auto.
Qed.

End RleMore.

(** Five values asked of a page that holds a run of three. *)
Lemma GetBatch_count_and_short_read_witness :
  let d := RleDecoder.new (R := BitStream.t) [6; 42] 2 8 in
  exists s,
    RleDecoder.GetBatch (fun x => x) 3 [0; 0; 0; 0; 0] 5 d = Some s /\
    RleDecoder.values_read s = 3 /\
    length (RleDecoder.values s) = 5%nat /\
    RleDecoder.repeat_count_ (RleDecoder.dec s) <= 0 /\
    RleDecoder.literal_count_ (RleDecoder.dec s) <= 0.
Proof.
  intros d.
  destruct (RleDecoder.GetBatch (fun x => x) 3 [0; 0; 0; 0; 0] 5 d)
    as [s|] eqn:Hs; [|vm_compute in Hs; discriminate Hs].
  exists s. split; [reflexivity|].
  destruct (GetBatch_count_and_short_read (fun x => x) 3 [0; 0; 0; 0; 0] 5
              d s Hs) as (_ & Hlen & _ & Hshort).
  assert (Hread : RleDecoder.values_read s = 3).
  { pose proof Hs as H. vm_compute in H. injection H as <-. reflexivity. }
  split; [exact Hread|]. split; [exact Hlen|].
  destruct Hshort as (Hrep & Hlit & _); [rewrite Hread; lia|].
  split; assumption.
Defined.

(** Two values out of a run of three in progress. *)
Lemma GetBatch_inside_repeated_run_witness :
  let d :=
    {| RleDecoder.bit_reader_ :=
         {| BitStream.buffer_ := [6; 42]; BitStream.max_bytes_ := 2;
            BitStream.byte_offset_ := 2; BitStream.bit_offset_ := 0 |};
       RleDecoder.bit_width_ := 8;
       RleDecoder.current_value_ := 42;
       RleDecoder.repeat_count_ := 3;
       RleDecoder.literal_count_ := 0 |} in
  (0 < 2 <= RleDecoder.repeat_count_ d /\
   RleDecoder.repeat_count_ d < 2 ^ 31) /\
  exists s,
    RleDecoder.GetBatch (fun x => x) 2 [0; 0; 0] 2 d = Some s /\
    RleDecoder.values s = [42; 42; 0] /\
    RleDecoder.repeat_count_ (RleDecoder.dec s) = 1.
Proof.
  intros d.
  assert (H1 : 0 < 2 <= RleDecoder.repeat_count_ d) by (cbn; lia).
  assert (H2 : RleDecoder.repeat_count_ d < 2 ^ 31) by (cbn; lia).
  split; [auto|].
  destruct (GetBatch_inside_repeated_run (fun x => x) 0 [0; 0; 0] 2 d H1 H2)
    as (s & Hs & _ & Hvals & _ & _ & _ & _ & Hrep & _).
  exists s. split; [exact Hs|]. split; [exact Hvals|exact Hrep].
Defined.

Section RleRun.
Context {R : Type} {ops : BitReader.Ops R}.
Variable castT : Z -> Z.

(** A batch no longer than the repeated run in progress is served in one
    pass, and the loop is left at the next test. *)
Lemma GetBatch_repeated_run_state (fuel : nat) (vals : list Z)
    (batch_size : Z) (d : RleDecoder.t R) :
  0 < batch_size <= RleDecoder.repeat_count_ d ->
  RleDecoder.repeat_count_ d < 2 ^ 31 ->
  RleDecoder.GetBatch castT (S (S fuel)) vals batch_size d
  = Some {| RleDecoder.values :=
              Mem.fill vals 0 batch_size (castT (RleDecoder.current_value_ d));
            RleDecoder.values_read := batch_size;
            RleDecoder.dec :=
              {| RleDecoder.bit_reader_ := RleDecoder.bit_reader_ d;
                 RleDecoder.bit_width_ := RleDecoder.bit_width_ d;
                 RleDecoder.current_value_ := RleDecoder.current_value_ d;
                 RleDecoder.repeat_count_ :=
                   RleDecoder.repeat_count_ d - batch_size;
                 RleDecoder.literal_count_ := RleDecoder.literal_count_ d |} |}.
Proof.
  intros Hbs Hrc. unfold RleDecoder.GetBatch.
  cbn [RleDecoder.GetBatch_loop RleDecoder.values_read].
  destruct (Z.ltb_spec 0 batch_size); [|lia].
  destruct (GetBatch_body_repeated_run castT batch_size
              {| RleDecoder.values := vals; RleDecoder.values_read := 0;
                 RleDecoder.dec := d |}) as [_ Hbody]; cbn; [lia|lia|].
  cbn in Hbody. rewrite Hbody. clear Hbody.
  replace (Z.min (batch_size - 0) (RleDecoder.repeat_count_ d))
    with batch_size by lia.
  cbn [RleDecoder.values_read]. rewrite Z.add_0_l.
  rewrite Z.ltb_irrefl. reflexivity.
Qed.

End RleRun.

(** Reading one whole byte at a byte boundary. *)
Lemma GetAligned_one_byte (r : BitStream.t) (x : Z) :
  BitStream.bit_offset_ r = 0 -> 0 <= BitStream.byte_offset_ r ->
  BitStream.byte_offset_ r + 1 <= BitStream.max_bytes_ r ->
  BitStream.buffer_ r !! Z.to_nat (BitStream.byte_offset_ r) = Some x ->
  0 <= x < 256 ->
  BitStream.GetAligned 1 r
  = (Some x,
     {| BitStream.buffer_ := BitStream.buffer_ r;
        BitStream.max_bytes_ := BitStream.max_bytes_ r;
        BitStream.byte_offset_ := BitStream.byte_offset_ r + 1;
        BitStream.bit_offset_ := 0 |}).
Proof.
  intros Hbit Hoff Hmax Hbyte Hx. unfold BitStream.GetAligned.
  rewrite Hbit. change (Ints.Ceil 0 8) with 0. rewrite Z.add_0_r.
  destruct (Z.ltb_spec (BitStream.max_bytes_ r) (BitStream.byte_offset_ r + 1));
    [lia|].
  rewrite (drop_S _ _ _ Hbyte). change (Z.to_nat 1) with 1%nat.
  cbn [take BitStream.le_combine]. rewrite Z.shiftl_0_l, Z.lor_0_r.
  change 255 with (Z.ones 8). rewrite Z.land_ones by lia.
  rewrite Z.mod_small by lia. reflexivity.
Qed.

(** A one-byte variable-length quantity. *)
Lemma GetVlqInt_one_byte (r : BitStream.t) (x : Z) :
  BitStream.bit_offset_ r = 0 -> 0 <= BitStream.byte_offset_ r ->
  BitStream.byte_offset_ r + 1 <= BitStream.max_bytes_ r ->
  BitStream.buffer_ r !! Z.to_nat (BitStream.byte_offset_ r) = Some x ->
  0 <= x < 128 ->
  BitStream.GetVlqInt r
  = (Some x,
     {| BitStream.buffer_ := BitStream.buffer_ r;
        BitStream.max_bytes_ := BitStream.max_bytes_ r;
        BitStream.byte_offset_ := BitStream.byte_offset_ r + 1;
        BitStream.bit_offset_ := 0 |}).
Proof.
  intros Hbit Hoff Hmax Hbyte Hx. unfold BitStream.GetVlqInt.
  cbn [BitStream.GetVlqInt_loop].
  rewrite (GetAligned_one_byte r x) by (auto; lia).
  change 127 with (Z.ones 7). rewrite Z.land_ones by lia.
  rewrite Z.mod_small by lia. rewrite Z.shiftl_0_r, Z.lor_0_l.
  rewrite int32_small by lia.
  assert (Hhigh : Z.land x 128 = 0).
  { apply Z.bits_inj'. intros i Hi. rewrite Z.land_spec, Z.bits_0.
    change 128 with (2 ^ 7). rewrite Z.pow2_bits_eqb by lia.
    destruct (Z.eqb_spec 7 i) as [<-|Hne]; [|apply andb_false_r].
    rewrite <- (Z.mod_small x (2 ^ 7)) by lia.
    rewrite Z.mod_pow2_bits_high by lia. reflexivity. }
  rewrite Hhigh. reflexivity.
Qed.

(** The header of a repeated run of [n] copies of [v], read by a new
    decoder. *)
Lemma NextCounts_repeated_run (n v bit_width : Z) (rest : list Z) :
  1 <= n < 64 -> 0 <= v < 256 -> 1 <= bit_width <= 8 ->
  let buffer := 2 * n :: v :: rest in
  RleDecoder.NextCounts
    (RleDecoder.new (R := BitStream.t) buffer (Z.of_nat (length buffer))
       bit_width)
  = (true,
     {| RleDecoder.bit_reader_ :=
          {| BitStream.buffer_ := buffer;
             BitStream.max_bytes_ := Z.of_nat (length buffer);
             BitStream.byte_offset_ := 2;
             BitStream.bit_offset_ := 0 |};
        RleDecoder.bit_width_ := bit_width;
        RleDecoder.current_value_ := v;
        RleDecoder.repeat_count_ := n;
        RleDecoder.literal_count_ := 0 |}).
Proof.
  intros Hn Hv Hw buffer.
  assert (Hlen : 2 <= Z.of_nat (length buffer))
    by (unfold buffer; cbn [length]; lia).
  set (len := Z.of_nat (length buffer)) in *.
  set (r1 := {| BitStream.buffer_ := buffer; BitStream.max_bytes_ := len;
                BitStream.byte_offset_ := 1; BitStream.bit_offset_ := 0 |}).
  assert (Hvlq : BitReader.GetVlqInt (BitReader.new (R := BitStream.t)
                                        buffer len)
                 = (Some (2 * n), r1)).
  { apply (GetVlqInt_one_byte (BitStream.new buffer len) (2 * n));
      cbn; try reflexivity; lia. }
  assert (Hal : BitReader.GetAligned 1 r1
                = (Some v,
                   {| BitStream.buffer_ := buffer; BitStream.max_bytes_ := len;
                      BitStream.byte_offset_ := 2;
                      BitStream.bit_offset_ := 0 |})).
  { apply (GetAligned_one_byte r1 v); cbn; try reflexivity; lia. }
  assert (Hceil : Ints.Ceil bit_width 8 = 1).
  { assert (bit_width = 1 \/ bit_width = 2 \/ bit_width = 3 \/ bit_width = 4
            \/ bit_width = 5 \/ bit_width = 6 \/ bit_width = 7
            \/ bit_width = 8) as Hc by lia.
    repeat (destruct Hc as [->|Hc]; [reflexivity|]). subst. reflexivity. }
  assert (Hshift : Z.shiftr (2 * n) 1 = n).
  { rewrite Z.shiftr_div_pow2 by lia. change (2 ^ 1) with 2.
    rewrite Z.mul_comm. apply Z.div_mul. lia. }
  unfold RleDecoder.NextCounts.
  cbn [RleDecoder.new RleDecoder.bit_reader_ RleDecoder.bit_width_
       RleDecoder.current_value_ RleDecoder.repeat_count_
       RleDecoder.literal_count_].
  rewrite Hvlq, Z.testbit_even_0, Hceil, Hal, Hshift.
  rewrite memcpy_low_fits by lia. rewrite uint32_small by lia. reflexivity.
Qed.

(** Property X10.  Decoding the encoding of a repeated run gives the run
    back: on a buffer that starts with the header byte [2 * n]
    ([1 <= n < 64]) and the value byte [v], a decoder of bit width 1 to 8
    asked for [n] values writes [n] copies of [v], consumes exactly the two
    bytes and ends with both run counters at 0. *)
Theorem repeated_run_decodes_to_copies (fuel : nat) (n v bit_width : Z)
    (rest vals : list Z) :
  1 <= n < 64 -> 0 <= v < 256 -> 1 <= bit_width <= 8 ->
  let buffer := 2 * n :: v :: rest in
  exists s,
    RleDecoder.GetBatch (fun x => x) (S (S (S fuel))) vals n
      (RleDecoder.new (R := BitStream.t) buffer (Z.of_nat (length buffer))
         bit_width) = Some s /\
    RleDecoder.values_read s = n /\
    RleDecoder.values s = Mem.fill vals 0 n v /\
    (forall i : nat, Z.of_nat i < n -> (i < length vals)%nat ->
       RleDecoder.values s !! i = Some v) /\
    (forall i : nat, n <= Z.of_nat i -> RleDecoder.values s !! i = vals !! i) /\
    RleDecoder.repeat_count_ (RleDecoder.dec s) = 0 /\
    RleDecoder.literal_count_ (RleDecoder.dec s) = 0 /\
    BitStream.byte_offset_ (RleDecoder.bit_reader_ (RleDecoder.dec s)) = 2 /\
    BitStream.bit_offset_ (RleDecoder.bit_reader_ (RleDecoder.dec s)) = 0.
Proof.
  intros Hn Hv Hw buffer.
  pose proof (NextCounts_repeated_run n v bit_width rest Hn Hv Hw) as Hnext.
  cbv zeta in Hnext. fold buffer in Hnext.
  unfold RleDecoder.GetBatch.
  rewrite (GetBatch_loop_passes (fun x => x) 1 (S (S fuel)) n _
             {| RleDecoder.values := vals; RleDecoder.values_read := 0;
                RleDecoder.dec :=
                  {| RleDecoder.bit_reader_ :=
                       {| BitStream.buffer_ := buffer;
                          BitStream.max_bytes_ := Z.of_nat (length buffer);
                          BitStream.byte_offset_ := 2;
                          BitStream.bit_offset_ := 0 |};
                     RleDecoder.bit_width_ := bit_width;
                     RleDecoder.current_value_ := v;
                     RleDecoder.repeat_count_ := n;
                     RleDecoder.literal_count_ := 0 |} |}).
  2:{ cbn [RleDecoder.GetBatch_passes RleDecoder.values_read].
      destruct (Z.ltb_spec 0 n); [|lia].
      rewrite GetBatch_body_zero by (cbn; lia).
      cbn [RleDecoder.dec RleDecoder.values RleDecoder.values_read].
      rewrite Hnext. reflexivity. }
  pose proof (GetBatch_repeated_run_state (fun x => x) fuel vals n
                {| RleDecoder.bit_reader_ :=
                     {| BitStream.buffer_ := buffer;
                        BitStream.max_bytes_ := Z.of_nat (length buffer);
                        BitStream.byte_offset_ := 2;
                        BitStream.bit_offset_ := 0 |};
                   RleDecoder.bit_width_ := bit_width;
                   RleDecoder.current_value_ := v;
                   RleDecoder.repeat_count_ := n;
                   RleDecoder.literal_count_ := 0 |}
                ltac:(cbn; lia) ltac:(cbn; lia)) as Hrun.
  unfold RleDecoder.GetBatch in Hrun. rewrite Hrun.
  eexists. split; [reflexivity|].
  cbn [RleDecoder.values_read RleDecoder.values RleDecoder.dec
       RleDecoder.repeat_count_ RleDecoder.literal_count_
       RleDecoder.bit_reader_ RleDecoder.current_value_
       BitStream.byte_offset_ BitStream.bit_offset_].
  split; [reflexivity|]. split; [reflexivity|].
  split; [intros i Hi Hl; apply fill_lookup_in; assumption|].
  split; [intros i Hi; apply fill_lookup_after; assumption|].
  repeat split; lia.
Qed.

(** The page [06 2A]: a run of three copies of 42. *)
Lemma repeated_run_decodes_to_copies_witness :
  (1 <= 3 < 64 /\ 0 <= 42 < 256 /\ 1 <= 8 <= 8) /\
  exists s,
    RleDecoder.GetBatch (fun x => x) 3 [0; 0; 0; 0] 3
      (RleDecoder.new (R := BitStream.t) [6; 42] 2 8) = Some s /\
    RleDecoder.values s = [42; 42; 42; 0].
Proof.
  assert (H1 : 1 <= 3 < 64) by lia.
  assert (H2 : 0 <= 42 < 256) by lia.
  assert (H3 : 1 <= 8 <= 8) by lia.
  split; [auto|].
  destruct (repeated_run_decodes_to_copies 0 3 42 8 [] [0; 0; 0; 0] H1 H2 H3)
    as (s & Hs & _ & Hvals & _).
  exists s. split; [exact Hs|exact Hvals].
Defined.

(** ** Bit helpers and null bitmaps *)

Lemma ByteWithBit_shiftl (k : Z) :
  0 <= k < 8 -> Levels._ByteWithBit k = Z.shiftl 1 k.
Proof.
  intros Hk. assert (k = 0 \/ k = 1 \/ k = 2 \/ k = 3 \/ k = 4 \/ k = 5
                     \/ k = 6 \/ k = 7) as Hcases by lia.
  repeat (destruct Hcases as [->|Hcases]; [reflexivity|]). subst. reflexivity.
Qed.

Lemma FlippedBitmask_lxor (k : Z) :
  0 <= k < 8 -> ValidBits._FlippedBitmask k = Z.lxor (Z.shiftl 1 k) 255.
Proof.
  intros Hk. assert (k = 0 \/ k = 1 \/ k = 2 \/ k = 3 \/ k = 4 \/ k = 5
                     \/ k = 6 \/ k = 7) as Hcases by lia.
  repeat (destruct Hcases as [->|Hcases]; [reflexivity|]). subst. reflexivity.
Qed.

Lemma TurnBitOn_or_bit (bits : list Z) (i : Z) :
  0 <= i -> Levels._TurnBitOn bits i = BitmapWriter.or_bit i bits.
Proof.
  intros Hi. unfold Levels._TurnBitOn, BitmapWriter.or_bit.
  destruct (Z.ltb_spec i 0); [lia|].
  rewrite ByteWithBit_shiftl by (apply Z.mod_pos_bound; lia). reflexivity.
Qed.

Lemma TurnBitOff_and_not_bit (bits : list Z) (i : Z) :
  0 <= i -> ValidBits._TurnBitOff bits i = BitmapWriter.and_not_bit i bits.
Proof.
  intros Hi. unfold ValidBits._TurnBitOff, BitmapWriter.and_not_bit.
  destruct (Z.ltb_spec i 0); [lia|].
  rewrite Z.rem_mod_nonneg, Z.quot_div_nonneg by lia.
  rewrite FlippedBitmask_lxor by (apply Z.mod_pos_bound; lia). reflexivity.
Qed.

(** Property X11.  [_TurnBitOn(bits, i)] sets bit [i] and
    [_TurnBitOff(bits, i)] clears it; each leaves every other bit and the
    length of the array alone, and turning a bit off after turning it on
    is turning it off. *)
Theorem TurnBitOn_TurnBitOff_GetBit (bits : list Z) (i j : Z) :
  0 <= i -> 0 <= j < 8 * Z.of_nat (length bits) ->
  BitmapWriter.GetBit (Levels._TurnBitOn bits i) j
  = (if bool_decide (i = j) then true else BitmapWriter.GetBit bits j) /\
  BitmapWriter.GetBit (ValidBits._TurnBitOff bits i) j
  = (if bool_decide (i = j) then false else BitmapWriter.GetBit bits j) /\
  BitmapWriter.GetBit
    (ValidBits._TurnBitOff (Levels._TurnBitOn bits i) i) j
  = BitmapWriter.GetBit (ValidBits._TurnBitOff bits i) j /\
  length (Levels._TurnBitOn bits i) = length bits /\
  length (ValidBits._TurnBitOff bits i) = length bits.
Proof.
  intros Hi Hj.
  rewrite !TurnBitOff_and_not_bit, !TurnBitOn_or_bit by exact Hi.
  rewrite GetBit_or_bit, !GetBit_and_not_bit, ?GetBit_or_bit
    by (rewrite ?or_bit_length; lia).
  rewrite or_bit_length, and_not_bit_length.
  repeat split. case_bool_decide; reflexivity.
Qed.

(** [x & ~7] on a [size_t]. *)
Lemma land_clear_low3 (x : Z) :
  0 <= x < 2 ^ 64 -> Z.land x (Ints.uint64 (Z.lnot 7)) = 8 * (x / 8).
Proof.
  intros Hx.
  change (Ints.uint64 (Z.lnot 7)) with (Z.shiftl (Z.ones 61) 3).
  rewrite Z.mul_comm. change 8 with (2 ^ 3).
  rewrite <- Z.shiftr_div_pow2, <- Z.shiftl_mul_pow2 by lia.
  apply Z.bits_inj'. intros k Hk.
  rewrite Z.land_spec.
  destruct (Z.ltb_spec k 3).
  - rewrite !Z.shiftl_spec_low by lia. apply andb_false_r.
  - rewrite !Z.shiftl_spec_high by lia.
    rewrite Z.shiftr_spec by lia. replace (k - 3 + 3) with k by lia.
    destruct (Z.ltb_spec k 64).
    + rewrite Z.ones_spec_low by lia. apply andb_true_r.
    + rewrite Z.ones_spec_high by lia.
      rewrite andb_false_r.
      rewrite <- (Z.mod_small x (2 ^ 64)) by lia.
      rewrite Z.mod_pow2_bits_high by lia. reflexivity.
Qed.

Lemma BytesLengthToBitmapLength_small (n : Z) :
  0 <= n <= 2 ^ 64 - 8 ->
  ValidBits._BytesLengthToBitmapLength n = (n + 7) / 8 /\
  n <= 8 * ValidBits._BytesLengthToBitmapLength n < n + 8.
Proof.
  unfold ValidBits._BytesLengthToBitmapLength, ValidBits._CeilToByteLength.
  intros Hn.
  assert (Hsmall : Ints.uint64 (n + 7) = n + 7).
  { unfold Ints.uint64, Ints.wrap_unsigned. apply Z.mod_small. lia. }
  rewrite Hsmall, land_clear_low3 by lia.
  rewrite Z.mul_comm, Z.div_mul by lia.
  pose proof (Z.div_mod (n + 7) 8 ltac:(lia)).
  pose proof (Z.mod_pos_bound (n + 7) 8 ltac:(lia)).
  split; [reflexivity|lia].
Qed.

(** Property X12.  [_BytesLengthToBitmapLength(n)] is the number of bytes
    that hold [n] bits, [(n + 7) / 8], and agrees with
    [get_number_of_bytes_for_valid], for [n] up to [2^64 - 8]; for the
    seven larger values of [size_t] the sum [n + 7] wraps and the answer
    is 0. *)
Theorem BytesLengthToBitmapLength_ceiling (n : Z) :
  (0 <= n <= 2 ^ 64 - 8 ->
   ValidBits._BytesLengthToBitmapLength n = (n + 7) / 8 /\
   n <= 8 * ValidBits._BytesLengthToBitmapLength n < n + 8 /\
   ValidBits._BytesLengthToBitmapLength n
   = ColumnReader.get_number_of_bytes_for_valid n) /\
  (2 ^ 64 - 8 < n < 2 ^ 64 ->
   ValidBits._BytesLengthToBitmapLength n = 0).
Proof.
  split.
  - intros Hn.
    destruct (BytesLengthToBitmapLength_small n Hn) as [Hceil Hroom].
    split; [exact Hceil|]. split; [exact Hroom|].
    rewrite Hceil.
    rewrite get_number_of_bytes_for_valid_small by exact Hn.
    unfold ColumnReader.GDF_VALID_BITSIZE.
    f_equal. lia.
  - intros Hn.
    unfold ValidBits._BytesLengthToBitmapLength, ValidBits._CeilToByteLength.
    assert (Hwrap : Ints.uint64 (n + 7) = n + 7 - 2 ^ 64).
    { unfold Ints.uint64, Ints.wrap_unsigned.
      symmetry. apply Z.mod_unique with (q := 1); lia. }
    rewrite Hwrap, land_clear_low3 by lia.
    rewrite Z.mul_comm, Z.div_mul by lia.
    apply Z.div_small. lia.
Qed.

(** The loop of [_GenerateNullBitmap], seen from a bit of the bitmap. *)
Lemma GenerateNullBitmap_loop_bits (levels : list Z) (i file_level : Z)
    (bits : list Z) (null_count : Z) (j : Z) :
  0 <= i -> 0 <= j < 8 * Z.of_nat (length bits) ->
  let res := Levels._GenerateNullBitmap_loop levels i file_level bits
               null_count in
  length (snd res) = length bits /\
  BitmapWriter.GetBit (snd res) j
  = BitmapWriter.GetBit bits j
    || bool_decide (i <= j /\ levels !! Z.to_nat (j - i) = Some file_level).
Proof.
  cbv zeta. revert i bits null_count.
  induction levels as [|level rest IH]; intros i bits null_count Hi Hj.
  - cbn. split; [reflexivity|].
    rewrite bool_decide_eq_false_2 by (intros [_ [=]]).
    symmetry. apply orb_false_r.
  - cbn [Levels._GenerateNullBitmap_loop].
    assert (Hlookup : forall k, i < k ->
              (level :: rest) !! Z.to_nat (k - i)
              = rest !! Z.to_nat (k - (i + 1))).
    { intros k Hk. replace (Z.to_nat (k - i)) with (S (Z.to_nat (k - (i + 1))))
        by lia. reflexivity. }
    destruct (Z.eqb_spec level file_level) as [->|Hne].
    + rewrite TurnBitOn_or_bit by lia.
      destruct (IH (i + 1) (BitmapWriter.or_bit i bits) null_count
                  ltac:(lia)) as [Hlen Hbit].
      { rewrite or_bit_length. exact Hj. }
      rewrite or_bit_length in Hlen.
      split; [exact Hlen|]. rewrite Hbit.
      rewrite GetBit_or_bit by lia.
      destruct (decide (i = j)) as [->|Hij].
      * rewrite bool_decide_eq_true_2 by reflexivity. cbn [orb].
        rewrite (bool_decide_eq_true_2 (j <= j /\ _)).
        { symmetry. apply orb_true_r. }
        split; [lia|]. rewrite Z.sub_diag. reflexivity.
      * rewrite bool_decide_eq_false_2 by exact Hij. f_equal.
        apply bool_decide_ext. split.
        -- intros [Hle Hl]. split; [lia|]. rewrite Hlookup by lia. exact Hl.
        -- intros [Hle Hl]. assert (i < j) by lia.
           split; [lia|]. rewrite <- Hlookup by lia. exact Hl.
    + destruct (IH (i + 1) bits (null_count + 1) ltac:(lia) Hj)
        as [Hlen Hbit].
      split; [exact Hlen|]. rewrite Hbit. f_equal.
      apply bool_decide_ext. split.
      * intros [Hle Hl]. split; [lia|]. rewrite Hlookup by lia. exact Hl.
      * intros [Hle Hl]. destruct (decide (i = j)) as [->|Hij].
        -- rewrite Z.sub_diag in Hl.
           change (Some level = Some file_level) in Hl. congruence.
        -- split; [lia|]. rewrite <- Hlookup by lia. exact Hl.
Qed.

(** Property X13.  [_GenerateNullBitmap] returns the number of the first
    [levels_length] levels that differ from [file_level], and only sets
    bits: afterwards a bit of the bitmap is set when it was set before or
    when it is the bit of a level equal to [file_level].  A bit set in the
    memory handed in stays set, also at a null row. *)
Theorem GenerateNullBitmap_sets_and_counts (levels : list Z)
    (levels_length file_level : Z) (null_bitmap_ptr : list Z) :
  0 <= levels_length <= Z.of_nat (length levels) ->
  let res :=
    Levels._GenerateNullBitmap levels levels_length file_level
      null_bitmap_ptr in
  fst res
  = Z.of_nat (length (filter (fun level => level <> file_level)
                        (take (Z.to_nat levels_length) levels))) /\
  length (snd res) = length null_bitmap_ptr /\
  forall j, 0 <= j < 8 * Z.of_nat (length null_bitmap_ptr) ->
    BitmapWriter.GetBit (snd res) j
    = BitmapWriter.GetBit null_bitmap_ptr j
      || bool_decide (j < levels_length
                      /\ levels !! Z.to_nat j = Some file_level).
Proof.
  intros Hlen. cbv zeta. unfold Levels._GenerateNullBitmap.
  split; [rewrite GenerateNullBitmap_loop_count; lia|].
  split.
  - destruct null_bitmap_ptr as [|b bits].
    + clear Hlen. generalize 0 at 1. generalize 0.
      induction (take (Z.to_nat levels_length) levels) as [|l ls IH];
        intros n i; cbn; [reflexivity|].
      destruct (l =? file_level); apply IH.
    + apply (GenerateNullBitmap_loop_bits _ 0 file_level (b :: bits) 0 0);
        cbn [length]; lia.
  - intros j Hj.
    destruct (GenerateNullBitmap_loop_bits
                (take (Z.to_nat levels_length) levels) 0 file_level
                null_bitmap_ptr 0 j ltac:(lia) Hj) as [_ Hbit].
    rewrite Hbit. f_equal. apply bool_decide_ext.
    rewrite Z.sub_0_r. split.
    + intros [_ Hl]. pose proof (lookup_lt_Some _ _ _ Hl) as Hlt.
      rewrite length_take in Hlt.
      split; [lia|]. rewrite lookup_take_lt in Hl by lia. exact Hl.
    + intros [Hlt Hl]. split; [lia|].
      rewrite lookup_take_lt by lia. exact Hl.
Qed.

(** Property X14.  [bitmask_functor] only sets bits.  For a level equal
    to the maximum it sets the bit of the row.  For a level below the
    maximum it ORs the flipped mask into the byte: the bit of the row is
    left as it was and the seven other bits of the byte are set. *)
Theorem bitmask_functor_never_clears (max_definition_level : Z)
    (valid_bits : list Z) (valid_bits_offset i level j : Z) :
  0 <= valid_bits_offset + i < 2 ^ 31 ->
  0 <= j < 8 * Z.of_nat (length valid_bits) ->
  let iter := valid_bits_offset + i in
  let res :=
    ValidBits.bitmask_functor max_definition_level valid_bits
      valid_bits_offset i level in
  length res = length valid_bits /\
  (BitmapWriter.GetBit valid_bits j = true ->
   BitmapWriter.GetBit res j = true) /\
  (level = max_definition_level ->
   BitmapWriter.GetBit res j
   = if bool_decide (iter = j) then true
     else BitmapWriter.GetBit valid_bits j) /\
  (level < max_definition_level ->
   BitmapWriter.GetBit res j
   = if bool_decide (j / 8 = iter / 8 /\ j <> iter) then true
     else BitmapWriter.GetBit valid_bits j).
Proof.
  intros Hiter Hj iter res.
  assert (Hon : alter (fun b => Z.lor b (Levels._ByteWithBit (Z.rem iter 8)))
                  (Z.to_nat (Z.quot iter 8)) valid_bits
                = BitmapWriter.or_bit iter valid_bits).
  { rewrite <- TurnBitOn_or_bit by (unfold iter; lia).
    unfold Levels._TurnBitOn.
    rewrite Z.rem_mod_nonneg, Z.quot_div_nonneg by (unfold iter; lia).
    reflexivity. }
  pose proof (Z.mod_pos_bound iter 8 ltac:(lia)) as Him.
  pose proof (Z.mod_pos_bound j 8 ltac:(lia)) as Hjm.
  assert (Hflip : BitmapWriter.GetBit
                    (alter (fun b => Z.lor b
                                       (ValidBits._FlippedBitmask (Z.rem iter 8)))
                       (Z.to_nat (Z.quot iter 8)) valid_bits) j
                  = if bool_decide (j / 8 = iter / 8 /\ j <> iter) then true
                    else BitmapWriter.GetBit valid_bits j).
  { rewrite Z.rem_mod_nonneg, Z.quot_div_nonneg by (unfold iter; lia).
    rewrite FlippedBitmask_lxor by lia.
    unfold BitmapWriter.GetBit.
    assert (Hjb : j / 8 < Z.of_nat (length valid_bits))
      by (apply Z.div_lt_upper_bound; lia).
    pose proof (Z.div_pos j 8 ltac:(lia) ltac:(lia)) as Hj0.
    pose proof (Z.div_pos iter 8 ltac:(unfold iter; lia) ltac:(lia)) as Hi0.
    destruct (decide (j / 8 = iter / 8)) as [Hbyte|Hbyte].
    - rewrite Hbyte, list_lookup_alter_eq.
      destruct (valid_bits !! Z.to_nat (iter / 8)) as [b|] eqn:Hb.
      2:{ apply lookup_ge_None in Hb. lia. }
      cbn.
      rewrite Z.lor_spec, Z.lxor_spec, Z.shiftl_1_l, Z.pow2_bits_eqb by lia.
      change 255 with (Z.ones 8). rewrite Z.ones_spec_low by lia.
      destruct (decide (j = iter)) as [->|Hne].
      + rewrite Z.eqb_refl. cbn [xorb].
        rewrite bool_decide_eq_false_2 by (intros [_ ?]; congruence).
        apply orb_false_r.
      + rewrite bool_decide_eq_true_2 by auto.
        destruct (Z.eqb_spec (iter mod 8) (j mod 8)) as [Hm|Hm].
        * exfalso. apply Hne. symmetry.
          apply bit_position_inj; unfold iter in *; try lia.
        * cbn [xorb]. apply orb_true_r.
    - rewrite list_lookup_alter_ne by lia.
      rewrite bool_decide_eq_false_2 by (intros [? _]; congruence).
      reflexivity. }
  unfold res, ValidBits.bitmask_functor.
  rewrite int32_small by lia. fold iter. rewrite Hon.
  destruct (Z.eqb_spec level max_definition_level) as [Heq|Hne].
  - split; [apply or_bit_length|].
    rewrite GetBit_or_bit by (unfold iter; lia). clear Hflip.
    split; [intros Hset; rewrite Hset; destruct (bool_decide _); reflexivity|].
    split; [reflexivity|lia].
  - destruct (Z.ltb_spec level max_definition_level) as [Hlt|Hge].
    + split; [apply length_alter|]. rewrite Hflip.
      split; [intros Hset; rewrite Hset; destruct (bool_decide _); reflexivity|].
      split; [congruence|reflexivity].
    + split; [reflexivity|]. split; [auto|]. split; [congruence|lia].
Qed.

Lemma TurnBitOn_TurnBitOff_GetBit_witness :
  (0 <= 10 /\ 0 <= 10 < 8 * Z.of_nat (length [0; 255])) /\
  BitmapWriter.GetBit (Levels._TurnBitOn [0; 255] 10) 10 = true /\
  BitmapWriter.GetBit (ValidBits._TurnBitOff [0; 255] 10) 10 = false.
Proof.
  assert (H1 : 0 <= 10) by lia.
  assert (H2 : 0 <= 10 < 8 * Z.of_nat (length [0; 255])) by (cbn; lia).
  split; [auto|].
  destruct (TurnBitOn_TurnBitOff_GetBit [0; 255] 10 10 H1 H2)
    as (Hon & Hoff & _).
  split; [exact Hon|exact Hoff].
Defined.

(** Ten values need two bytes; a length in the last seven values of
    [size_t] gets none. *)
Lemma BytesLengthToBitmapLength_ceiling_witness :
  (0 <= 10 <= 2 ^ 64 - 8 /\ 2 ^ 64 - 8 < 2 ^ 64 - 1 < 2 ^ 64) /\
  ValidBits._BytesLengthToBitmapLength 10 = 2 /\
  ValidBits._BytesLengthToBitmapLength (2 ^ 64 - 1) = 0.
Proof.
  assert (H1 : 0 <= 10 <= 2 ^ 64 - 8) by lia.
  assert (H2 : 2 ^ 64 - 8 < 2 ^ 64 - 1 < 2 ^ 64) by lia.
  split; [auto|].
  split.
  - exact (proj1 (proj1 (BytesLengthToBitmapLength_ceiling 10) H1)).
  - exact (proj2 (BytesLengthToBitmapLength_ceiling (2 ^ 64 - 1)) H2).
Defined.

(** Levels [1,0,1] against the file level 1, over a byte that holds bit 1
    already. *)
Lemma GenerateNullBitmap_sets_and_counts_witness :
  0 <= 3 <= Z.of_nat (length [1; 0; 1]) /\
  fst (Levels._GenerateNullBitmap [1; 0; 1] 3 1 [2]) = 1 /\
  length (snd (Levels._GenerateNullBitmap [1; 0; 1] 3 1 [2])) = 1%nat.
Proof.
  assert (H : 0 <= 3 <= Z.of_nat (length [1; 0; 1])) by (cbn; lia).
  split; [exact H|].
  destruct (GenerateNullBitmap_sets_and_counts [1; 0; 1] 3 1 [2] H)
    as (Hcount & Hlen & _).
  split; [exact Hcount|exact Hlen].
Defined.

(** A null at row 1 of an empty byte sets the seven other bits of the
    byte. *)
Lemma bitmask_functor_never_clears_witness :
  (0 <= 0 + 1 < 2 ^ 31 /\ 0 <= 5 < 8 * Z.of_nat (length [0])) /\
  BitmapWriter.GetBit (ValidBits.bitmask_functor 1 [0] 0 1 0) 5 = true.
Proof.
  assert (H1 : 0 <= 0 + 1 < 2 ^ 31) by lia.
  assert (H2 : 0 <= 5 < 8 * Z.of_nat (length [0])) by (cbn; lia).
  split; [auto|].
  destruct (bitmask_functor_never_clears 1 [0] 0 1 0 5 H1 H2)
    as (_ & _ & _ & Hnull).
  exact (Hnull ltac:(lia)).
Defined.

(** ** Printing a validity mask *)

Lemma string_length_app (s1 s2 : string) :
  String.length (s1 +:+ s2) = (String.length s1 + String.length s2)%nat.
Proof.
  induction s1 as [|a s1 IH]; [reflexivity|].
  change (String a s1 +:+ s2) with (String a (s1 +:+ s2)).
  cbn [String.length]. rewrite IH. reflexivity.
Qed.

Lemma string_get_app (s1 s2 : string) (i : nat) :
  String.get i (s1 +:+ s2)
  = if decide (i < String.length s1)%nat then String.get i s1
    else String.get (i - String.length s1) s2.
Proof.
  destruct (decide (i < String.length s1)%nat) as [Hlt|Hge].
  - symmetry. apply String.append_correct1. exact Hlt.
  - replace i with (i - String.length s1 + String.length s1)%nat at 1 by lia.
    symmetry. apply String.append_correct2.
Qed.

Lemma chartobin_loop_spec (n : nat) (c : Z) :
  0 <= c ->
  String.length (ValidStr.chartobin_loop n c) = n /\
  forall i : nat, (i < n)%nat ->
    String.get i (ValidStr.chartobin_loop n c)
    = Some (ValidStr.bit_char (Z.testbit c (Z.of_nat i))).
Proof.
  revert c. induction n as [|n IH]; intros c Hc.
  - split; [reflexivity|]. intros i Hi. lia.
  - cbn [ValidStr.chartobin_loop String.length].
    destruct (IH (c / 2) ltac:(apply Z.div_pos; lia)) as [Hlen Hget].
    split; [rewrite Hlen; reflexivity|].
    intros [|i] Hi; cbn [String.get].
    + f_equal. change (Z.of_nat 0) with 0.
      pose proof (Z.bit0_mod c) as Hbit.
      destruct (Z.testbit c 0); cbn in Hbit; rewrite <- Hbit; reflexivity.
    + rewrite Hget by lia. do 2 f_equal.
      rewrite Nat2Z.inj_succ, <- Z.add_1_r.
      rewrite <- Z.div2_div, Z.div2_spec, Z.shiftr_spec by lia. reflexivity.
Qed.

(** Property X15.  [chartobin(c, size)] returns [size] characters, the
    [i]-th being the digit of bit [i] of [c]: the least significant bit
    comes first.  A negative [size] makes [resize] throw. *)
Theorem chartobin_low_bits_first (c size : Z) :
  (0 <= c -> 0 <= size ->
   exists bin,
     ValidStr.chartobin c size = Some bin /\
     String.length bin = Z.to_nat size /\
     forall i : nat, Z.of_nat i < size ->
       String.get i bin
       = Some (ValidStr.bit_char (Z.testbit c (Z.of_nat i)))) /\
  (size < 0 -> ValidStr.chartobin c size = None).
Proof.
  unfold ValidStr.chartobin. split.
  - intros Hc Hsize. destruct (Z.ltb_spec size 0); [lia|].
    destruct (chartobin_loop_spec (Z.to_nat size) c Hc) as [Hlen Hget].
    eexists. split; [reflexivity|]. split; [exact Hlen|].
    intros i Hi. apply Hget. lia.
  - intros Hsize. destruct (Z.ltb_spec size 0); [reflexivity|lia].
Qed.

Lemma GetBit_byte (valid : list Z) (k : nat) (t : Z) :
  0 <= t < 8 ->
  BitmapWriter.GetBit valid (8 * Z.of_nat k + t)
  = Z.testbit (default 0 (valid !! k)) t.
Proof.
  intros Ht. unfold BitmapWriter.GetBit.
  replace ((8 * Z.of_nat k + t) / 8) with (Z.of_nat k).
  2:{ apply Z.div_unique with (r := t); lia. }
  replace ((8 * Z.of_nat k + t) mod 8) with t.
  2:{ apply Z.mod_unique with (q := Z.of_nat k); lia. }
  rewrite Nat2Z.id. reflexivity.
Qed.

Lemma gdf_valid_to_str_loop_spec (m k : nat) (valid : list Z)
    (column_size n_bytes : Z) (response : string) :
  0 < column_size < 2 ^ 31 ->
  n_bytes = ColumnReader.get_number_of_bytes_for_valid column_size ->
  Z.of_nat (k + m) = n_bytes ->
  Forall (fun b => 0 <= b) valid ->
  String.length response = (8 * k)%nat ->
  (forall i : nat, (i < 8 * k)%nat ->
     String.get i response
     = Some (ValidStr.bit_char (BitmapWriter.GetBit valid (Z.of_nat i)))) ->
  exists s,
    ValidStr.gdf_valid_to_str_loop (seq k m) valid column_size n_bytes response
    = Some s /\
    (m = 0%nat -> s = response) /\
    (m <> 0%nat -> String.length s = Z.to_nat column_size) /\
    (m <> 0%nat ->
     forall i : nat, Z.of_nat i < column_size ->
       String.get i s
       = Some (ValidStr.bit_char (BitmapWriter.GetBit valid (Z.of_nat i)))).
Proof.
  intros Hcs Hnb. revert k response.
  assert (Hbytes : 8 * (n_bytes - 1) < column_size <= 8 * n_bytes).
  { subst n_bytes. rewrite get_number_of_bytes_for_valid_small by lia.
    unfold ColumnReader.GDF_VALID_BITSIZE.
    rewrite Z.mul_1_l.
    pose proof (Z.div_mod (column_size + 8 - 1) 8 ltac:(lia)).
    pose proof (Z.mod_pos_bound (column_size + 8 - 1) 8 ltac:(lia)). lia. }
  clear Hnb.
  induction m as [|m IH]; intros k response Hkm Hvalid Hlen Hget.
  - exists response. cbn. split; [reflexivity|]. repeat split; congruence.
  - cbn [seq ValidStr.gdf_valid_to_str_loop].
    unfold ColumnReader.GDF_VALID_BITSIZE.
    set (len := Ints.int32 _).
    assert (Hlen8 : len = if decide (m = 0%nat)
                          then column_size - 8 * Z.of_nat k else 8).
    { unfold len. destruct (Z.eqb_spec n_bytes (Z.of_nat k + 1)) as [He|He];
        cbn [negb].
      - rewrite decide_True by lia.
        unfold Ints.uint64, Ints.wrap_unsigned.
        rewrite Z.mod_small by lia. rewrite int32_small by lia. lia.
      - rewrite decide_False by lia. reflexivity. }
    assert (Hbyte : 0 <= default 0 (valid !! k)).
    { destruct (valid !! k) as [b|] eqn:Hb; cbn; [|lia].
      eapply Forall_lookup_1 in Hvalid; [|exact Hb]. exact Hvalid. }
    assert (Hlenpos : 0 < len <= 8).
    { rewrite Hlen8. destruct (decide (m = 0%nat)); lia. }
    unfold ValidStr.chartobin. destruct (Z.ltb_spec len 0); [lia|].
    destruct (chartobin_loop_spec (Z.to_nat len) _ Hbyte)
      as [Hbinlen Hbinget].
    set (bin := ValidStr.chartobin_loop (Z.to_nat len) _) in *.
    assert (Hget' : forall i : nat,
              (i < 8 * k + Z.to_nat len)%nat ->
              String.get i (response +:+ bin)
              = Some (ValidStr.bit_char
                        (BitmapWriter.GetBit valid (Z.of_nat i)))).
    { intros i Hi. rewrite string_get_app, Hlen.
      destruct (decide (i < 8 * k)%nat) as [Hlt|Hge]; [apply Hget, Hlt|].
      rewrite Hbinget by lia. do 2 f_equal. symmetry.
      replace (Z.of_nat i) with (8 * Z.of_nat k + Z.of_nat (i - 8 * k))
        by lia.
      apply GetBit_byte. lia. }
    destruct (decide (m = 0%nat)) as [->|Hm].
    + cbn [seq ValidStr.gdf_valid_to_str_loop].
      eexists. split; [reflexivity|]. split; [discriminate|].
      split; intros _.
      * rewrite string_length_app, Hlen, Hbinlen. lia.
      * intros i Hi. apply Hget'. lia.
    + destruct (IH (S k) (response +:+ bin)) as (s & Hs & _ & Hslen & Hsget).
      * lia.
      * exact Hvalid.
      * rewrite string_length_app, Hlen, Hbinlen, Hlen8. lia.
      * intros i Hi. apply Hget'. rewrite Hlen8. lia.
      * exists s. split; [exact Hs|]. split; [discriminate|].
        split; intros _; [apply Hslen, Hm|apply Hsget, Hm].
Qed.

(** Property X16.  [gdf_valid_to_str(valid, column_size)] returns one
    character for each row, the [i]-th being the digit of the validity bit
    of row [i]; the last byte contributes only the bits of the rows that
    are left.  For no row the string is empty. *)
Theorem gdf_valid_to_str_shows_rows (valid : list Z) (column_size : Z) :
  (0 < column_size < 2 ^ 31 ->
   ColumnReader.get_number_of_bytes_for_valid column_size
   <= Z.of_nat (length valid) ->
   Forall (fun b => 0 <= b < 256) valid ->
   exists response,
     ValidStr.gdf_valid_to_str valid column_size = Some response /\
     String.length response = Z.to_nat column_size /\
     forall i : nat, Z.of_nat i < column_size ->
       String.get i response
       = Some (ValidStr.bit_char (BitmapWriter.GetBit valid (Z.of_nat i)))) /\
  ValidStr.gdf_valid_to_str valid 0 = Some EmptyString.
Proof.
  split; [|reflexivity].
  intros Hcs _ Hvalid. unfold ValidStr.gdf_valid_to_str.
  set (n_bytes := ColumnReader.get_number_of_bytes_for_valid column_size).
  assert (Hn : 0 < n_bytes).
  { unfold n_bytes. rewrite get_number_of_bytes_for_valid_small by lia.
    unfold ColumnReader.GDF_VALID_BITSIZE.
    rewrite Z.mul_1_l. apply Z.div_str_pos. lia. }
  destruct (gdf_valid_to_str_loop_spec (Z.to_nat n_bytes) 0 valid
              column_size n_bytes EmptyString Hcs eq_refl)
    as (s & Hs & _ & Hlen & Hget).
  - lia.
  - eapply Forall_impl; [exact Hvalid|]. intros b Hb. cbn in Hb. lia.
  - reflexivity.
  - intros i Hi. lia.
  - exists s. split; [exact Hs|]. split; [apply Hlen; lia|apply Hget; lia].
Qed.

(** The byte 5 on three bits reads 101; a negative size is refused. *)
Lemma chartobin_low_bits_first_witness :
  (0 <= 5 /\ 0 <= 3 /\ -1 < 0) /\
  (exists bin,
     ValidStr.chartobin 5 3 = Some bin /\ String.length bin = 3%nat) /\
  ValidStr.chartobin 5 (-1) = None.
Proof.
  split; [lia|]. split.
  - destruct (proj1 (chartobin_low_bits_first 5 3) ltac:(lia) ltac:(lia))
      as (bin & Hbin & Hlen & _).
    exists bin. split; [exact Hbin|exact Hlen].
  - exact (proj2 (chartobin_low_bits_first 5 (-1)) ltac:(lia)).
Defined.

(** Ten rows over the bytes [5, 1]. *)
Lemma gdf_valid_to_str_shows_rows_witness :
  (0 < 10 < 2 ^ 31 /\
   ColumnReader.get_number_of_bytes_for_valid 10
   <= Z.of_nat (length [5; 1]) /\
   Forall (fun b => 0 <= b < 256) [5; 1]) /\
  exists response,
    ValidStr.gdf_valid_to_str [5; 1] 10 = Some response /\
    String.length response = 10%nat.
Proof.
  assert (H1 : 0 < 10 < 2 ^ 31) by lia.
  assert (H2 : ColumnReader.get_number_of_bytes_for_valid 10
               <= Z.of_nat (length [5; 1])) by (vm_compute; discriminate).
  assert (H3 : Forall (fun b => 0 <= b < 256) [5; 1])
    by (repeat constructor; lia).
  split; [auto|].
  destruct (proj1 (gdf_valid_to_str_shows_rows [5; 1] 10) H1 H2 H3)
    as (response & Hr & Hlen & _).
  exists response. split; [exact Hr|exact Hlen].
Defined.

(** ** [ReadGdfColumn] *)

Lemma ReadValues_length (n : Z) (r : ColumnReader.t) :
  0 <= Z.of_nat (length (fst (ColumnReader._ReadValues n r))) < 2 ^ 31.
Proof.
  unfold ColumnReader._ReadValues.
  destruct (ColumnReader.current_decoder_ r) as [key|]; [|cbn; lia].
  destruct (ColumnReader.decoders_ r !! key) as [d|]; [|cbn; lia].
  pose proof (Decode_length (Ints.int32 n) d) as Hlen.
  destruct (ColumnReader.Decode (Ints.int32 n) d) as [vs d']. cbn in *.
  assert (Ints.int32 n < 2 ^ 31); [|lia].
  unfold Ints.int32, Ints.wrap_signed. change (32 - 1) with 31.
  pose proof (Z.mod_pos_bound (n + 2 ^ 31) (2 ^ 32) ltac:(lia)). lia.
Qed.

(** The dense count [ReadBatch] stores in [*values_read] fits an [int] and
    does not exceed the row count it returns. *)
Lemma ReadBatch_values_read (batch_size : Z)
    (def_levels rep_levels : option ColumnReader.ptr)
    (values : ColumnReader.ptr) (r : ColumnReader.t) (b : ColumnReader.batch) :
  ColumnReader.ReadBatch batch_size def_levels rep_levels values r = inr b ->
  0 <= ColumnReader.values_read b < 2 ^ 31 /\
  ColumnReader.values_read b <= ColumnReader.total_values b.
Proof.
  unfold ColumnReader.ReadBatch.
  destruct (ColumnReader.HasNext r) as [e|[[|] r0]]; [discriminate| |].
  2:{ intros [= <-]. cbn. lia. }
  destruct (match def_levels with Some p => _ | None => _ end)
    as [[[n vtr] dl] r1].
  destruct (match rep_levels with Some p => _ | None => _ end)
    as [e|[rl r2]]; [discriminate|].
  pose proof (ReadValues_length vtr r2) as Hlen.
  destruct (ColumnReader._ReadValues vtr r2) as [vs r3]. cbn in Hlen.
  intros [= <-]. cbn. lia.
Qed.

(** Property X17.  [ReadGdfColumn] (column_reader.cpp) returns the dense
    count [ReadBatch] stored in [*values_read], not the number of rows
    read; the column's [size] is that count converted to [gdf_size_type],
    the mask has [(count + 7) / 8] bytes, and a bit [i] below the count is
    set when the fresh memory had it set or when the [i]-th level read is
    the maximum: the mask is built from the first [count] levels only. *)
Theorem ReadGdfColumn_dense_count (to_gdf_size_type : Z -> Z)
    (values_to_read : Z)
    (uninit_levels uninit_data uninit_valid : list Z) (r : ColumnReader.t)
    (res : ColumnReaderCpp.read_result) :
  ColumnReaderCpp.ReadGdfColumn to_gdf_size_type values_to_read
    uninit_levels uninit_data uninit_valid r = inr res ->
  let n := ColumnReaderCpp.returned res in
  let mask := ColumnReaderCpp.valid (ColumnReaderCpp.column res) in
  let max_definition_level :=
    ColumnReader.max_definition_level (ColumnReader.descr_ r) in
  exists b,
    ColumnReader.ReadBatch (ColumnReaderCpp.int64 values_to_read)
      (Some {| ColumnReader.arr :=
                 resize (Z.to_nat values_to_read) 0 uninit_levels;
               ColumnReader.off := 0 |})
      None
      {| ColumnReader.arr := resize (Z.to_nat values_to_read) 0 uninit_data;
         ColumnReader.off := 0 |} r = inr b /\
    n = ColumnReader.values_read b /\
    n <= ColumnReader.total_values b /\
    ColumnReaderCpp.size (ColumnReaderCpp.column res) = to_gdf_size_type n /\
    Z.of_nat (length mask) = (n + 7) / 8 /\
    forall i : nat, Z.of_nat i < n ->
      BitmapWriter.GetBit mask (Z.of_nat i)
      = BitmapWriter.GetBit
          (resize (Z.to_nat ((n + 7) / 8)) 0 uninit_valid) (Z.of_nat i)
        || bool_decide (ColumnReaderCpp.levels res !! i
                        = Some max_definition_level).
Proof.
  unfold ColumnReaderCpp.ReadGdfColumn.
  destruct (ColumnReader.ReadBatch _ _ _ _ r) as [e|b] eqn:Hb; [discriminate|].
  destruct (ReadBatch_values_read _ _ _ _ _ _ Hb) as [Hvr Htotal].
  pose proof (ReadBatch_def_levels _ _ _ _ _ Hb)
    as (p' & Hp' & _ & _ & _ & Hdescr).
  rewrite Hp', Hdescr.
  assert (Hu : Ints.uint64 (ColumnReader.values_read b)
               = ColumnReader.values_read b).
  { unfold Ints.uint64, Ints.wrap_unsigned. apply Z.mod_small. lia. }
  rewrite Hu.
  destruct (BytesLengthToBitmapLength_small
              (ColumnReader.values_read b) ltac:(lia))
    as (Hceil & Hroom).
  rewrite Hceil in Hroom |- *.
  set (valid0 := resize (Z.to_nat ((ColumnReader.values_read b + 7) / 8)) 0
                   uninit_valid).
  assert (Hlen0 : Z.of_nat (length valid0)
                  = (ColumnReader.values_read b + 7) / 8).
  { unfold valid0. rewrite length_resize.
    pose proof (Z.div_pos (ColumnReader.values_read b + 7) 8
                  ltac:(lia) ltac:(lia)). lia. }
  unfold Levels._GenerateNullBitmap.
  set (max := ColumnReader.max_definition_level (ColumnReader.descr_ r)).
  set (ls := take (Z.to_nat (ColumnReader.values_read b)) (ColumnReader.arr p')).
  pose proof (fun j => GenerateNullBitmap_loop_bits ls 0 max valid0 0 j
                         ltac:(lia)) as Hbits.
  cbv zeta in Hbits.
  destruct (Levels._GenerateNullBitmap_loop ls 0 max valid0 0)
    as [nulls valid1] eqn:Hgen.
  cbn [snd] in Hbits.
  intros [= <-]. cbn.
  exists b. split; [reflexivity|]. split; [reflexivity|].
  split; [exact Htotal|]. split; [reflexivity|].
  assert (Hlen1 : length valid1 = length valid0).
  { destruct (decide (0 < ColumnReader.values_read b)) as [Hpos|Hzero].
    - apply (Hbits 0). lia.
    - assert (ColumnReader.values_read b = 0) as Hz by lia.
      unfold ls in Hgen. rewrite Hz in Hgen. cbn in Hgen.
      injection Hgen as _ <-. reflexivity. }
  split; [rewrite Hlen1; exact Hlen0|].
  intros i Hi. fold valid0.
  destruct (Hbits (Z.of_nat i)) as [_ Hbit]; [lia|].
  rewrite Hbit. f_equal. apply bool_decide_ext.
  rewrite Z.sub_0_r, Nat2Z.id. unfold ls.
  rewrite lookup_take_lt by lia. split; [intros [_ ?]; assumption|].
  intros ?. split; [lia|assumption].
Qed.

(** Three rows asked of a page with levels [1,0,1]: two values come
    back, and the mask has one byte. *)
Lemma ReadGdfColumn_dense_count_witness :
  let page :=
    ColumnReader.mkPage ColumnReader.DATA_PAGE ColumnReader.PLAIN 3
      [] [1; 0; 1] [5; 7] in
  let r := ColumnReader.new (ColumnReader.mkDescr 1 0) [page] in
  exists res,
    ColumnReaderCpp.ReadGdfColumn (fun x => x) 3 [] [] [] r = inr res /\
    ColumnReaderCpp.returned res = 2 /\
    ColumnReaderCpp.size (ColumnReaderCpp.column res) = 2 /\
    Z.of_nat (length (ColumnReaderCpp.valid (ColumnReaderCpp.column res)))
    = (2 + 7) / 8.
Proof.
  intros page r.
  destruct (ColumnReaderCpp.ReadGdfColumn (fun x => x) 3 [] [] [] r)
    as [e|res] eqn:Hres; [vm_compute in Hres; discriminate Hres|].
  exists res. split; [reflexivity|].
  assert (Hret : ColumnReaderCpp.returned res = 2).
  { pose proof Hres as H. vm_compute in H. injection H as <-. reflexivity. }
  pose proof (ReadGdfColumn_dense_count (fun x => x) 3 [] [] [] r res Hres)
    as Hthm.
  cbv zeta in Hthm. rewrite Hret in Hthm.
  destruct Hthm as (b & _ & _ & _ & Hsize & Hlen & _).
  split; [exact Hret|]. split; [exact Hsize|exact Hlen].
Defined.

(** ** [ReadBatchSpaced] *)

Lemma SetBits_spec (n : nat) (i : Z) (bits : list Z) (offset j : Z) :
  0 <= offset + i -> 0 <= j < 8 * Z.of_nat (length bits) ->
  length (Spaced.SetBits n i bits offset) = length bits /\
  BitmapWriter.GetBit (Spaced.SetBits n i bits offset) j
  = if bool_decide (offset + i <= j < offset + i + Z.of_nat n) then true
    else BitmapWriter.GetBit bits j.
Proof.
  revert i bits. induction n as [|n IH]; intros i bits Hi Hj.
  - cbn. split; [reflexivity|].
    rewrite bool_decide_eq_false_2 by lia. reflexivity.
  - cbn [Spaced.SetBits].
    destruct (IH (i + 1) (BitmapWriter.or_bit (offset + i) bits)
                ltac:(lia)) as [Hlen Hbit].
    { rewrite or_bit_length. exact Hj. }
    rewrite or_bit_length in Hlen. split; [exact Hlen|].
    rewrite Hbit, GetBit_or_bit by lia.
    destruct (decide (offset + i <= j < offset + i + Z.of_nat (S n)))
      as [Hin|Hout].
    + rewrite (bool_decide_eq_true_2 _ Hin).
      destruct (decide (offset + i = j)) as [Heq|Hne].
      * rewrite (bool_decide_eq_true_2 _ Heq).
        destruct (bool_decide _); reflexivity.
      * rewrite bool_decide_eq_true_2 by lia. reflexivity.
    + rewrite (bool_decide_eq_false_2 _ Hout).
      rewrite bool_decide_eq_false_2 by lia.
      rewrite bool_decide_eq_false_2 by lia. reflexivity.
Qed.

Lemma ReadValues_bounds_any (n : Z) (r : ColumnReader.t) :
  ColumnReader.num_decoded_values_ (snd (ColumnReader._ReadValues n r))
  = ColumnReader.num_decoded_values_ r.
Proof.
  unfold ColumnReader._ReadValues.
  destruct (ColumnReader.current_decoder_ r) as [key|]; [|reflexivity].
  destruct (ColumnReader.decoders_ r !! key) as [d|]; [|reflexivity].
  destruct (ColumnReader.Decode (Ints.int32 n) d) as [vs d']. reflexivity.
Qed.

Section SpacedFacts.

Variable schema_node : ColumnReader.ColumnDescriptor -> Spaced.Node.
Variable DecodeSpaced :
  Z -> Z -> list Z -> Z -> ColumnReader.ptr -> ColumnReader.Decoder ->
  Z * ColumnReader.ptr * ColumnReader.Decoder.

(** Property X18.  [ReadBatchSpaced] on a column without definition
    levels, or whose values are not spaced: the value returned [n] is not
    negative, [*nulls_count] is 0, and the call sets the [n] bits from
    [valid_bits_offset] on and no other.  Without definition levels
    [*levels_read] is [n], [*values_read] is not written, and [n] values
    are counted as decoded; with them [*values_read] is [n] and the number
    of levels read is counted as decoded. *)
Theorem ReadBatchSpaced_dense_values (batch_size : Z)
    (definition_levels repetition_levels values : ColumnReader.ptr)
    (valid_bits : list Z) (valid_bits_offset values_read0 : Z)
    (r r0 : ColumnReader.t) (res : Spaced.spaced) :
  ColumnReader.HasNext r = inr (true, r0) ->
  ColumnReader.max_definition_level (ColumnReader.descr_ r) <= 0 \/
  Spaced._HasSpacedValues schema_node (ColumnReader.descr_ r) = false ->
  0 <= valid_bits_offset ->
  Spaced.ReadBatchSpaced schema_node DecodeSpaced batch_size
    definition_levels repetition_levels values valid_bits valid_bits_offset
    values_read0 r = inr res ->
  let n := Spaced.total_values res in
  0 <= n /\
  Spaced.nulls_count res = 0 /\
  length (Spaced.valid_bits res) = length valid_bits /\
  (forall j, 0 <= j < 8 * Z.of_nat (length valid_bits) ->
     BitmapWriter.GetBit (Spaced.valid_bits res) j
     = if bool_decide (valid_bits_offset <= j < valid_bits_offset + n)
       then true else BitmapWriter.GetBit valid_bits j) /\
  (ColumnReader.max_definition_level (ColumnReader.descr_ r) <= 0 ->
   Spaced.levels_read res = n /\ Spaced.values_read res = values_read0 /\
   ColumnReader.num_decoded_values_ (Spaced.reader res)
   = ColumnReader.num_decoded_values_ r0 + n) /\
  (0 < ColumnReader.max_definition_level (ColumnReader.descr_ r) ->
   Spaced.values_read res = n /\
   ColumnReader.num_decoded_values_ (Spaced.reader res)
   = ColumnReader.num_decoded_values_ r0 + Spaced.levels_read res).
Proof.
  intros Hnext Hdense Hoff. unfold Spaced.ReadBatchSpaced. rewrite Hnext.
  rewrite (HasNext_descr _ _ _ Hnext).
  set (clamped := Z.min batch_size _).
  assert (Hbits : forall n : nat, forall j,
            0 <= j < 8 * Z.of_nat (length valid_bits) ->
            BitmapWriter.GetBit
              (Spaced.SetBits n 0 valid_bits valid_bits_offset) j
            = if bool_decide (valid_bits_offset <= j
                              < valid_bits_offset + Z.of_nat n)
              then true else BitmapWriter.GetBit valid_bits j).
  { intros n j Hj.
    destruct (SetBits_spec n 0 valid_bits valid_bits_offset j
                ltac:(lia) Hj) as [_ Hbit].
    rewrite Hbit, Z.add_0_r. reflexivity. }
  assert (Hlen : forall n : nat,
            length (Spaced.SetBits n 0 valid_bits valid_bits_offset)
            = length valid_bits).
  { intros n. destruct valid_bits as [|b bits] eqn:Hv.
    - clear. generalize 0 at 1. induction n as [|n IH]; intros i;
        [reflexivity|]. cbn [Spaced.SetBits].
      replace (BitmapWriter.or_bit (valid_bits_offset + i) [])
        with (@nil Z); [apply IH|].
      unfold BitmapWriter.or_bit. destruct (_ <? 0); reflexivity.
    - apply (SetBits_spec n 0 (b :: bits) valid_bits_offset 0);
        cbn [length]; lia. }
  destruct (Z.ltb_spec 0 (ColumnReader.max_definition_level
                            (ColumnReader.descr_ r))) as [Hdef|Hnodef].
  - destruct Hdense as [Hle|Hspaced]; [lia|]. rewrite Hspaced. cbn [negb].
    destruct (ColumnReader.ReadDefinitionLevels clamped definition_levels r0)
      as [[num_def_levels definition_levels'] r1] eqn:Hread.
    assert (Hr1 : ColumnReader.num_decoded_values_ r1
                  = ColumnReader.num_decoded_values_ r0).
    { unfold ColumnReader.ReadDefinitionLevels in Hread.
      destruct (_ =? 0); injection Hread as _ _ <-; reflexivity. }
    set (rep := if 0 <? _ then _ else _).
    assert (Hrep : forall rl r2, rep = inr (rl, r2) ->
              ColumnReader.num_decoded_values_ r2
              = ColumnReader.num_decoded_values_ r1).
    { unfold rep. intros rl r2. destruct (0 <? _); [|intros [= _ <-]; auto].
      pose proof (ReadRepetitionLevels_reader clamped repetition_levels r1)
        as Hr.
      destruct (ColumnReader.ReadRepetitionLevels clamped repetition_levels r1)
        as [[n p'] r']. cbn in Hr.
      destruct (negb _); [discriminate|]. intros [= _ <-]. apply Hr. }
    destruct rep as [e|[rl r2]]; [discriminate|].
    specialize (Hrep rl r2 eq_refl).
    pose proof (ReadValues_bounds_any
                  (Ints.int32
                     (ColumnReader.count_present definition_levels'
                        num_def_levels
                        (ColumnReader.max_definition_level
                           (ColumnReader.descr_ r)))) r2) as Hvals.
    destruct (ColumnReader._ReadValues _ r2) as [vs r3]. cbn in Hvals.
    intros [= <-]. cbn. rewrite Nat2Z.id.
    split; [lia|]. split; [reflexivity|]. split; [apply Hlen|].
    split; [apply Hbits|]. split; [lia|]. intros _.
    split; [reflexivity|]. lia.
  - pose proof (ReadValues_bounds_any clamped r0) as Hvals.
    destruct (ColumnReader._ReadValues clamped r0) as [vs r3]. cbn in Hvals.
    intros [= <-]. cbn. rewrite Nat2Z.id.
    split; [lia|]. split; [reflexivity|]. split; [apply Hlen|].
    split; [apply Hbits|]. split; [|lia]. intros _.
    split; [reflexivity|]. split; [reflexivity|]. lia.
Qed.

End SpacedFacts.

(** A required column with definition levels, read in a batch of two. *)
Lemma ReadBatchSpaced_dense_values_witness :
  let schema_node :=
    fun _ : ColumnReader.ColumnDescriptor =>
      Spaced.mkNode Spaced.REQUIRED (Spaced.mkRoot Spaced.REQUIRED) in
  let DecodeSpaced :=
    fun (_ _ : Z) (_ : list Z) (_ : Z) (out : ColumnReader.ptr)
        (d : ColumnReader.Decoder) => (0, out, d) in
  let page :=
    ColumnReader.mkPage ColumnReader.DATA_PAGE ColumnReader.PLAIN 3
      [] [1; 0; 1] [5; 7] in
  let r := ColumnReader.new (ColumnReader.mkDescr 1 0) [page] in
  let levels := {| ColumnReader.arr := [0; 0; 0]; ColumnReader.off := 0 |} in
  let values := {| ColumnReader.arr := [0; 0; 0]; ColumnReader.off := 0 |} in
  exists r0 res,
    (ColumnReader.HasNext r = inr (true, r0) /\
     Spaced._HasSpacedValues schema_node (ColumnReader.descr_ r) = false /\
     0 <= 0 /\
     Spaced.ReadBatchSpaced schema_node DecodeSpaced 2 levels levels values
       [0] 0 0 r = inr res) /\
    Spaced.nulls_count res = 0 /\
    length (Spaced.valid_bits res) = 1%nat /\
    Spaced.values_read res = Spaced.total_values res.
Proof.
  intros schema_node DecodeSpaced page r levels values.
  destruct (ColumnReader.HasNext r) as [e|[[|] r0]] eqn:Hnext;
    [vm_compute in Hnext; discriminate Hnext| |
     vm_compute in Hnext; discriminate Hnext].
  destruct (Spaced.ReadBatchSpaced schema_node DecodeSpaced 2 levels levels
              values [0] 0 0 r) as [e|res] eqn:Hres;
    [vm_compute in Hres; discriminate Hres|].
  assert (Hdense : Spaced._HasSpacedValues schema_node (ColumnReader.descr_ r)
                   = false) by reflexivity.
  assert (H0 : 0 <= 0) by lia.
  exists r0, res. split; [auto|].
  pose proof (ReadBatchSpaced_dense_values schema_node DecodeSpaced 2
                levels levels values [0] 0 0 r r0 res Hnext
                (or_intror Hdense) H0 Hres) as Hthm.
  cbv zeta in Hthm.
  destruct Hthm as (_ & Hnulls & Hlen & _ & _ & Hpos).
  split; [exact Hnulls|]. split; [exact Hlen|].
  exact (proj1 (Hpos ltac:(cbn; lia))).
Defined.

(** ** Column types, allocation and the column filter *)

(** Property X19.  [_DTypeFrom] of the api.cpp with the [engine]
    parameter answers for every descriptor; the one of src/parquet/api.cpp,
    whose physical map has five entries, throws [std::out_of_range]
    exactly for a column without logical type whose physical type is
    INT96, BYTE_ARRAY or FIXED_LEN_BYTE_ARRAY, and otherwise agrees with
    the first.  A logical type other than NONE decides alone, whatever the
    physical type.  The first answers [GDF_invalid] exactly for those three
    physical types without logical type and for the logical types other
    than NONE, DATE, TIMESTAMP_MILLIS and the four signed integers. *)
Theorem DTypeFrom_total_or_out_of_range
    (column_descriptor : ApiTypes.ColumnDescriptor) :
  let physical := ApiTypes.physical_type column_descriptor in
  let logical := ApiTypes.logical_type column_descriptor in
  is_Some (ApiEngine._DTypeFrom column_descriptor) /\
  (ApiCuda._DTypeFrom column_descriptor = None <->
   logical = ApiTypes.NONE /\
   (physical = ApiTypes.INT96 \/ physical = ApiTypes.BYTE_ARRAY \/
    physical = ApiTypes.FIXED_LEN_BYTE_ARRAY)) /\
  (forall d, ApiCuda._DTypeFrom column_descriptor = Some d ->
             ApiEngine._DTypeFrom column_descriptor = Some d) /\
  (logical <> ApiTypes.NONE ->
   forall other,
     ApiEngine._DTypeFrom column_descriptor
     = ApiEngine._DTypeFrom (ApiTypes.mkDescr other logical) /\
     ApiCuda._DTypeFrom column_descriptor
     = ApiCuda._DTypeFrom (ApiTypes.mkDescr other logical)) /\
  (ApiEngine._DTypeFrom column_descriptor = Some ApiTypes.GDF_invalid <->
   match logical with
   | ApiTypes.NONE =>
       physical = ApiTypes.INT96 \/ physical = ApiTypes.BYTE_ARRAY \/
       physical = ApiTypes.FIXED_LEN_BYTE_ARRAY
   | ApiTypes.DATE | ApiTypes.TIMESTAMP_MILLIS | ApiTypes.INT_8
   | ApiTypes.INT_16 | ApiTypes.INT_32 | ApiTypes.INT_64 => False
   | _ => True
   end).
Proof.
  destruct column_descriptor as [physical logical]. cbn.
  split; [destruct physical, logical; eexists; reflexivity|].
  split.
  { split.
    - destruct physical, logical; try discriminate; auto.
    - intros [-> [->|[->| ->]]]; reflexivity. }
  split; [intros d; destruct physical, logical; try discriminate; auto|].
  split; [intros Hl other; destruct logical; try congruence; auto|].
  destruct physical, logical; cbn; split; try discriminate; try tauto;
    try reflexivity; try (intros [H|[H|H]]; discriminate).
Qed.

Lemma DTypeFrom_supported (column_descriptor : ApiTypes.ColumnDescriptor) :
  ApiCuda.supported column_descriptor = true ->
  is_Some (ApiCuda._DTypeFrom column_descriptor).
Proof.
  destruct column_descriptor as [physical logical].
  destruct physical; try discriminate; intros _;
    destruct logical; eexists; reflexivity.
Qed.

Lemma AllocateGdfColumns_loop_spec (data_ok valid_ok : nat -> bool)
    (to_gdf_size_type : Z -> Z)
    (num_rows : Z) (column_descriptors : list ApiTypes.ColumnDescriptor) :
  forall (i : nat) (gdf_columns : list ApiCuda.gdf_column),
  length gdf_columns = length column_descriptors ->
  exists status columns,
    ApiCuda._AllocateGdfColumns_loop data_ok valid_ok to_gdf_size_type i
      num_rows
      column_descriptors gdf_columns = inr (status, columns) /\
    (status = Api.GDF_SUCCESS <->
     Forall (fun d => ApiCuda.supported d = true) column_descriptors) /\
    length columns = length gdf_columns /\
    (status = Api.GDF_SUCCESS ->
     forall (k : nat) d old,
       column_descriptors !! k = Some d -> gdf_columns !! k = Some old ->
       exists c,
         columns !! k = Some c /\
         if data_ok (i + k)%nat && valid_ok (i + k)%nat then
           ApiCuda.size c = Some (to_gdf_size_type num_rows) /\
           ApiCuda.dtype c = ApiCuda._DTypeFrom d /\
           is_Some (ApiCuda.dtype c)
         else
           ApiCuda.size c = ApiCuda.size old /\
           ApiCuda.dtype c = ApiCuda.dtype old).
Proof.
  induction column_descriptors as [|d descriptors IH];
    intros i [|old columns] Hlen; try discriminate.
  - exists Api.GDF_SUCCESS, []. cbn. split; [reflexivity|].
    split; [split; [constructor|reflexivity]|].
    split; [reflexivity|]. intros _ k d old Hk. discriminate.
  - cbn [ApiCuda._AllocateGdfColumns_loop].
    destruct (ApiCuda.supported d) eqn:Hsup.
    2:{ assert (Hcase : match ApiTypes.physical_type d with
                        | ApiTypes.BOOLEAN | ApiTypes.INT32 | ApiTypes.INT64
                        | ApiTypes.FLOAT | ApiTypes.DOUBLE => False
                        | _ => True
                        end).
        { unfold ApiCuda.supported in Hsup.
          destruct (ApiTypes.physical_type d); try discriminate; exact I. }
        exists Api.GDF_IO_ERROR, (old :: columns).
        split; [destruct (ApiTypes.physical_type d); try contradiction;
                reflexivity|].
        split.
        { split; [discriminate|]. intros Hall.
          apply Forall_cons in Hall as [Hd _]. congruence. }
        split; [reflexivity|discriminate]. }
    destruct (DTypeFrom_supported d Hsup) as [dt Hdt].
    injection Hlen as Hlen.
    destruct (IH (S i) columns Hlen) as (status & cs & Hrun & Hst & Hl & Hcols).
    assert (Hone : exists c,
              ApiCuda._AllocateGdfColumn to_gdf_size_type (data_ok i) (valid_ok i)
                num_rows d old
              = inr (if data_ok i && valid_ok i then Api.GDF_SUCCESS
                     else Api.GDF_IO_ERROR, c) /\
              if data_ok i && valid_ok i then
                ApiCuda.size c = Some (to_gdf_size_type num_rows) /\
                ApiCuda.dtype c = ApiCuda._DTypeFrom d /\
                is_Some (ApiCuda.dtype c)
              else
                ApiCuda.size c = ApiCuda.size old /\
                ApiCuda.dtype c = ApiCuda.dtype old).
    { unfold ApiCuda._AllocateGdfColumn. rewrite Hdt.
      destruct (data_ok i), (valid_ok i); cbn; eexists;
        (split; [reflexivity|]); cbn; auto. }
    destruct Hone as (c & Hc & Hfields).
    exists status, (c :: cs).
    split.
    { unfold ApiCuda.supported in Hsup.
      destruct (ApiTypes.physical_type d); try discriminate;
        rewrite Hc, Hrun; reflexivity. }
    split.
    { rewrite Hst. split.
      - intros Hall. constructor; assumption.
      - intros Hall. apply Forall_cons in Hall as [_ Hall]. exact Hall. }
    split; [cbn; rewrite Hl; reflexivity|].
    intros Hok [|k] d' old' Hd' Hold'; cbn in Hd', Hold'.
    + injection Hd' as <-. injection Hold' as <-.
      exists c. split; [reflexivity|]. rewrite Nat.add_0_r. exact Hfields.
    + destruct (Hcols Hok k d' old' Hd' Hold') as (c' & Hc' & Hf').
      exists c'. split; [exact Hc'|].
      replace (i + S k)%nat with (S i + k)%nat by lia. exact Hf'.
Qed.

(** Property X20.  [_AllocateGdfColumns] (src/parquet/api.cpp) never
    throws, [_DTypeFrom] being called only for the physical types its map
    holds, and returns GDF_SUCCESS exactly when every descriptor has one
    of the five physical types it has a case for, whether or not the
    allocations succeed: the error [_AllocateGdfColumn] returns is
    dropped.  On success a column both of whose allocations
    succeeded has [size] and [dtype] set, and a column one of whose
    allocations failed keeps the [size] and [dtype] it had. *)
Theorem AllocateGdfColumns_reports_only_unsupported_types
    (data_ok valid_ok : nat -> bool) (to_gdf_size_type : Z -> Z)
    (num_rows : Z)
    (column_descriptors : list ApiTypes.ColumnDescriptor)
    (gdf_columns : list ApiCuda.gdf_column) :
  length gdf_columns = length column_descriptors ->
  exists status columns,
    ApiCuda._AllocateGdfColumns data_ok valid_ok to_gdf_size_type num_rows
      column_descriptors gdf_columns = inr (status, columns) /\
    (status = Api.GDF_SUCCESS <->
     Forall (fun d => ApiCuda.supported d = true) column_descriptors) /\
    length columns = length gdf_columns /\
    (status = Api.GDF_SUCCESS ->
     forall (k : nat) d old,
       column_descriptors !! k = Some d -> gdf_columns !! k = Some old ->
       exists c,
         columns !! k = Some c /\
         if data_ok k && valid_ok k then
           ApiCuda.size c = Some (to_gdf_size_type num_rows) /\
           ApiCuda.dtype c = ApiCuda._DTypeFrom d /\
           is_Some (ApiCuda.dtype c)
         else
           ApiCuda.size c = ApiCuda.size old /\
           ApiCuda.dtype c = ApiCuda.dtype old).
Proof.
  intros Hlen. unfold ApiCuda._AllocateGdfColumns.
  apply (AllocateGdfColumns_loop_spec data_ok valid_ok to_gdf_size_type
           num_rows
           column_descriptors 0 gdf_columns Hlen).
Qed.

(** Property X21.  [ColumnNames::IndexOf(name)] is the position of the
    first column with that name, and the number of columns when there is
    none; [Contains] of the index says whether the name is a column. *)
Theorem IndexOf_first_occurrence (column_names : list string)
    (name : string) :
  let index := Api.IndexOf column_names name in
  (index <= Api.Size column_names)%nat /\
  (forall j : nat, (j < index)%nat -> column_names !! j <> Some name) /\
  (name ∈ column_names -> column_names !! index = Some name) /\
  (name ∉ column_names -> index = Api.Size column_names) /\
  Api.Contains column_names index = bool_decide (name ∈ column_names).
Proof.
  cbv zeta. split.
  { unfold Api.Size. induction column_names as [|n rest IH]; cbn; [lia|].
    destruct (bool_decide (n = name)); lia. }
  split.
  { induction column_names as [|n rest IH]; cbn; [lia|].
    case_bool_decide as Hn; [lia|].
    intros [|j] Hj; cbn; [congruence|]. apply IH. lia. }
  split; [apply IndexOf_lookup|].
  split; [|apply IndexOf_Contains].
  intros Hnot. pose proof (IndexOf_lt column_names name) as Hlt.
  unfold Api.Size.
  assert (Api.IndexOf column_names name <= length column_names)%nat.
  { clear. induction column_names as [|n rest IH]; cbn; [lia|].
    destruct (bool_decide (n = name)); lia. }
  destruct (decide (Api.IndexOf column_names name < length column_names)%nat)
    as [H1|H1]; [|lia].
  apply Hlt in H1. contradiction.
Qed.

Lemma IndexOf_matched (column_names matched : list string) :
  Forall (fun name => name ∈ column_names) matched ->
  Forall (fun i => Api.Contains column_names i = true)
    (Api.IndexOf column_names <$> matched) /\
  (fun i => column_names !! i) <$> (Api.IndexOf column_names <$> matched)
  = Some <$> matched.
Proof.
  induction 1 as [|name rest Hname _ [IH1 IH2]].
  - split; [constructor|reflexivity].
  - cbn [fmap list_fmap]. split.
    + constructor; [|exact IH1].
      rewrite IndexOf_Contains. apply bool_decide_eq_true_2, Hname.
    + rewrite IndexOf_lookup by exact Hname.
      cbn [fmap list_fmap] in IH2. rewrite IH2. reflexivity.
Qed.

(** Property X22.  [ColumnFilter::IndicesFrom]: every index returned is
    the index of a column.  A filter that is not empty yields, in the
    order of the filter, one index for each of its names that is a column,
    and the column at that index has that name; an empty filter yields
    every column index in order.  Names are not deduplicated: a column
    named [k] times is returned [k] times. *)
Theorem IndicesFrom_indices_name_the_request
    (filter_names column_names : list string) :
  let indices := Api.IndicesFrom filter_names column_names in
  Forall (fun i => Api.Contains column_names i = true) indices /\
  (filter_names <> [] ->
   (fun i => column_names !! i) <$> indices
   = Some <$> filter (fun name => name ∈ column_names) filter_names) /\
  (filter_names = [] -> indices = seq 0 (Api.Size column_names)) /\
  (forall (name : string) (k : nat),
     name ∈ column_names -> (0 < k)%nat ->
     Api.IndicesFrom (replicate k name) column_names
     = replicate k (Api.IndexOf column_names name)).
Proof.
  cbv zeta.
  assert (Hmatched : forall names,
            Forall (fun name => name ∈ column_names)
              (filter (fun name => name ∈ column_names) names)).
  { intros names. apply Forall_forall. intros x Hx.
    apply list_elem_of_filter in Hx as [Hx _]. exact Hx. }
  split.
  { unfold Api.IndicesFrom. destruct filter_names as [|n rest].
    - apply Forall_forall. intros i Hi. apply elem_of_seq in Hi.
      unfold Api.Contains. apply bool_decide_eq_true_2. lia.
    - rewrite IndicesFrom_filter_matched.
      apply IndexOf_matched, Hmatched. }
  split.
  { intros Hne. unfold Api.IndicesFrom.
    destruct filter_names as [|n rest]; [congruence|].
    rewrite IndicesFrom_filter_matched.
    apply IndexOf_matched, Hmatched. }
  split; [intros ->; reflexivity|].
  intros name k Hname Hk.
  assert (Hall : forall m,
            Api.IndicesFrom_filter (replicate m name) column_names
            = replicate m (Api.IndexOf column_names name)).
  { intros m. rewrite IndicesFrom_filter_matched.
    induction m as [|m IH]; [reflexivity|].
    cbn [replicate]. rewrite filter_cons, decide_True by exact Hname.
    cbn [map]. rewrite IH. reflexivity. }
  destruct k as [|k]; [lia|]. exact (Hall (S k)).
Qed.

Section ReadParquetMore.

Variable OpenFile : string -> option Api.FileReader.
Variable new_gdf_columns : Z -> bool.
Variable ToGdfColumn_throws : Api.FileReader -> nat -> nat -> option exn.

Lemma ReadFile_columns_None (file_reader : Api.FileReader) (g : nat)
    (indices : list nat) :
  Api._ReadFile_columns ToGdfColumn_throws file_reader g indices = None ->
  forall i, i ∈ indices -> ToGdfColumn_throws file_reader g i = None.
Proof.
  induction indices as [|i rest IH]; cbn; intros Hrun j Hj.
  - apply elem_of_nil in Hj. destruct Hj.
  - destruct (ToGdfColumn_throws file_reader g i) eqn:Hi; [discriminate|].
    apply elem_of_cons in Hj as [->|Hj]; [exact Hi|]. apply IH; assumption.
Qed.

Lemma ReadFile_groups_inr (file_reader : Api.FileReader)
    (groups indices : list nat) (status : Api.gdf_error) :
  Api._ReadFile_groups ToGdfColumn_throws file_reader groups indices
  = inr status ->
  status = Api.GDF_SUCCESS /\
  forall g i, g ∈ groups -> i ∈ indices ->
    ToGdfColumn_throws file_reader g i = None.
Proof.
  induction groups as [|g rest IH]; cbn.
  - intros [= <-]. split; [reflexivity|]. intros g i Hg.
    apply elem_of_nil in Hg. destruct Hg.
  - destruct (Api._ReadFile_columns ToGdfColumn_throws file_reader g indices)
      eqn:Hcols; [discriminate|].
    intros Hrun. destruct (IH Hrun) as [Hst Hall]. split; [exact Hst|].
    intros g' i Hg Hi. apply elem_of_cons in Hg as [->|Hg].
    + eapply ReadFile_columns_None; eassumption.
    + apply Hall; assumption.
Qed.

(** Property X23.  [read_parquet] returns GDF_SUCCESS exactly when it
    sets [*out_gdf_columns_length].  A non-null [engine] always gives
    GDF_IO_ERROR.  Success means: no engine, the file opened, it has row
    groups and rows, the column array was allocated, the length set is the
    number of indices selected, and no conversion of a selected column of
    a row group threw. *)
Theorem read_parquet_success_conditions (filename : string)
    (engine : option string) (columns : option (list string))
    (status : Api.gdf_error) (length_out : option Z) :
  Api.read_parquet OpenFile new_gdf_columns ToGdfColumn_throws
    filename engine columns = Some (inr (status, length_out)) ->
  (status = Api.GDF_SUCCESS <-> is_Some length_out) /\
  (is_Some engine -> status = Api.GDF_IO_ERROR) /\
  (status = Api.GDF_SUCCESS ->
   engine = None /\
   exists file_reader,
     OpenFile filename = Some file_reader /\
     Api.num_row_groups file_reader <> 0 /\
     Api.num_rows file_reader <> 0 /\
     new_gdf_columns (Api.num_columns file_reader) = true /\
     length_out
     = Some (Z.of_nat
               (length (Api.IndicesFrom (Api.ColumnFilter columns)
                          (Api.file_columns file_reader)))) /\
     forall g i,
       (g < Z.to_nat (Api.num_row_groups file_reader))%nat ->
       i ∈ Api.IndicesFrom (Api.ColumnFilter columns)
             (Api.file_columns file_reader) ->
       ToGdfColumn_throws file_reader g i = None).
Proof.
  assert (Herr : forall st len,
            Some (@inr exn _ (Api.GDF_IO_ERROR, @None Z))
            = Some (inr (st, len)) ->
            (st = Api.GDF_SUCCESS <-> is_Some len) /\
            (is_Some engine -> st = Api.GDF_IO_ERROR) /\
            (st = Api.GDF_SUCCESS -> False)).
  { intros st len [= <- <-]. split; [split; [discriminate|intros [? [=]]]|].
    split; [reflexivity|discriminate]. }
  assert (Hwrap : forall (P : Prop) (st : Api.gdf_error) (len : option Z),
            (st = Api.GDF_SUCCESS <-> is_Some len) /\
            (is_Some engine -> st = Api.GDF_IO_ERROR) /\
            (st = Api.GDF_SUCCESS -> False) ->
            (st = Api.GDF_SUCCESS <-> is_Some len) /\
            (is_Some engine -> st = Api.GDF_IO_ERROR) /\
            (st = Api.GDF_SUCCESS -> P)).
  { intros P st len (H1 & H2 & H3). split; [exact H1|]. split; [exact H2|].
    intros H. destruct (H3 H). }
  unfold Api.read_parquet.
  destruct engine as [e|]; [intros H; apply Hwrap, Herr, H|].
  destruct (OpenFile filename) as [file_reader|] eqn:Hopen;
    [|intros H; apply Hwrap, Herr, H].
  unfold Api._CheckMinimalData.
  destruct (Z.eqb_spec (Api.num_row_groups file_reader) 0) as [Hg|Hg].
  { rewrite bool_decide_eq_true_2 by discriminate.
    intros H; apply Hwrap, Herr, H. }
  destruct (Z.eqb_spec (Api.num_rows file_reader) 0) as [Hr|Hr].
  { rewrite bool_decide_eq_true_2 by discriminate.
    intros H; apply Hwrap, Herr, H. }
  rewrite bool_decide_eq_false_2 by (intros Hne; apply Hne; reflexivity).
  destruct (new_gdf_columns (Api.num_columns file_reader)) eqn:Halloc;
    cbn [negb]; [|intros H; apply Hwrap, Herr, H].
  unfold Api._AllocateGdfColumns.
  destruct (Api._AllocateGdfColumns_loop _ _ _) as [[st0 columns0]|] eqn:Hrun;
    [|discriminate].
  apply AllocateGdfColumns_status in Hrun as [-> _].
  rewrite bool_decide_eq_false_2 by (intros Hne; apply Hne; reflexivity).
  rewrite ColumnNames_file_columns.
  destruct (Api._ReadFile ToGdfColumn_throws file_reader _)
    as [e|st] eqn:Hread; [discriminate|].
  unfold Api._ReadFile in Hread.
  destruct (ReadFile_groups_inr _ _ _ _ Hread) as [-> Hall].
  intros [= <- <-]. split; [split; [eexists; reflexivity|reflexivity]|].
  split; [intros [? [=]]|]. intros _. split; [reflexivity|].
  exists file_reader. repeat split; auto.
  intros g i Hlt Hi. apply Hall; [|exact Hi]. apply elem_of_seq. lia.
Qed.

End ReadParquetMore.

(** One INT32 column whose two allocations succeed. *)
Lemma AllocateGdfColumns_reports_only_unsupported_types_witness :
  let descriptors := [ApiTypes.mkDescr ApiTypes.INT32 ApiTypes.NONE] in
  let gdf_columns := [ApiCuda.mkColumn false false None None] in
  length gdf_columns = length descriptors /\
  exists status columns,
    ApiCuda._AllocateGdfColumns (fun _ => true) (fun _ => true)
      (fun x => x) 10 descriptors gdf_columns = inr (status, columns) /\
    length columns = length gdf_columns.
Proof.
  intros descriptors gdf_columns.
  assert (H : length gdf_columns = length descriptors) by reflexivity.
  split; [exact H|].
  destruct (AllocateGdfColumns_reports_only_unsupported_types
              (fun _ => true) (fun _ => true) (fun x => x) 10
              descriptors gdf_columns H)
    as (status & columns & Hrun & _ & Hlen & _).
  exists status, columns. split; [exact Hrun|exact Hlen].
Defined.

(** A file of two columns read through a filter that names one of them. *)
Lemma read_parquet_success_conditions_witness :
  let file_reader := Api.mkFile 10 1 ["a"; "b"]%string in
  Api.read_parquet (fun _ => Some file_reader) (fun _ => true)
    (fun _ _ _ => None) "file.parquet" None (Some ["zzz"; "b"]%string)
  = Some (inr (Api.GDF_SUCCESS, Some 1)) /\
  (Api.GDF_SUCCESS = Api.GDF_SUCCESS <-> is_Some (Some 1)).
Proof.
  intros file_reader.
  assert (H : Api.read_parquet (fun _ => Some file_reader) (fun _ => true)
                (fun _ _ _ => None) "file.parquet" None
                (Some ["zzz"; "b"]%string)
              = Some (inr (Api.GDF_SUCCESS, Some 1))) by reflexivity.
  split; [exact H|].
  exact (proj1 (read_parquet_success_conditions
                  (fun _ => Some file_reader) (fun _ => true)
                  (fun _ _ _ => None) "file.parquet"%string None
                  (Some ["zzz"; "b"]%string) Api.GDF_SUCCESS (Some 1) H)).
Defined.

(** ** [ToGdfColumn] on one plain data page *)

Lemma count_seq_take (l : list Z) (max : Z) (m : nat) :
  (m <= length l)%nat ->
  length (filter (fun i => l !! i = Some max) (seq 0 m))
  = length (filter (fun level => level = max) (take m l)).
Proof.
  induction m as [|m IH]; intros Hm; [reflexivity|].
  destruct (lookup_lt_is_Some_2 l m ltac:(lia)) as [x Hx].
  rewrite seq_S, filter_app, (take_S_r _ _ _ Hx), filter_app, !length_app.
  rewrite IH by lia. f_equal. cbn [plus]. rewrite !filter_cons, !filter_nil.
  destruct (decide (x = max)) as [->|Hne].
  - rewrite decide_True by exact Hx. reflexivity.
  - rewrite decide_False by congruence. reflexivity.
Qed.

Lemma store_take_drop (buf : list Z) (off : nat) (xs : list Z) :
  (off + length xs <= length buf)%nat ->
  take (length xs) (drop off (Mem.store buf off xs)) = xs.
Proof.
  intros Hlen. apply list_eq. intros i.
  destruct (decide (i < length xs)%nat) as [Hi|Hi].
  - rewrite lookup_take_lt by exact Hi. rewrite lookup_drop.
    rewrite store_lookup_in by lia. f_equal. lia.
  - rewrite lookup_take_ge by lia. symmetry. apply lookup_ge_None. lia.
Qed.

Lemma store_take_before (buf : list Z) (off : nat) (xs : list Z) :
  take off (Mem.store buf off xs) = take off buf.
Proof.
  apply list_eq. intros i.
  destruct (decide (i < off)%nat) as [Hi|Hi].
  - rewrite !lookup_take_lt by exact Hi. apply store_lookup_before. exact Hi.
  - rewrite !lookup_take_ge by lia. reflexivity.
Qed.

(** Writing [xs] after a prefix that agrees with [l] extends the
    agreement. *)
Lemma store_extends_prefix (buf l : list Z) (off : nat) (xs : list Z) :
  (off + length xs <= length buf)%nat ->
  take off buf = take off l ->
  xs = take (length xs) (drop off l) ->
  (off + length xs <= length l)%nat ->
  take (off + length xs) (Mem.store buf off xs) = take (off + length xs) l.
Proof.
  intros Hbuf Hpre Hxs Hl. apply list_eq. intros i.
  destruct (decide (i < off + length xs)%nat) as [Hi|Hi].
  2:{ rewrite !lookup_take_ge by lia. reflexivity. }
  rewrite !lookup_take_lt by exact Hi.
  destruct (decide (i < off)%nat) as [Hlt|Hge].
  - rewrite store_lookup_before by exact Hlt.
    rewrite <- (lookup_take_lt buf off i Hlt), Hpre.
    apply lookup_take_lt, Hlt.
  - rewrite store_lookup_in by lia. rewrite Hxs.
    rewrite lookup_take_lt by lia. rewrite lookup_drop. f_equal. lia.
Qed.

Lemma count_present_written (arr : list Z) (off : nat) (ls : list Z)
    (max : Z) :
  (off + length ls <= length arr)%nat ->
  ColumnReader.count_present
    {| ColumnReader.arr := Mem.write_at arr (Z.of_nat off) ls;
       ColumnReader.off := Z.of_nat off |}
    (Z.of_nat (length ls)) max
  = Z.of_nat (length (filter (fun level => level = max) ls)).
Proof.
  intros Hlen. unfold ColumnReader.count_present, Mem.write_at.
  cbn [ColumnReader.arr ColumnReader.off].
  destruct (Z.ltb_spec (Z.of_nat off) 0); [lia|].
  rewrite !Nat2Z.id. f_equal.
  rewrite <- (store_take_drop arr off ls Hlen) at 2.
  rewrite <- count_seq_take
    by (rewrite length_drop, store_length; lia).
  f_equal. apply list_filter_iff. intros i.
  rewrite lookup_drop. reflexivity.
Qed.

(** One [ReadBatch] with a level array, in the middle of a page with a
    plain decoder: it stores the next levels, hands out as many values as
    there are levels at the maximum, and counts the levels as decoded. *)
Lemma ReadBatch_plain_step (batch_size max : Z) (p vals : ColumnReader.ptr)
    (r : ColumnReader.t) (key : Z) (levels_left values_left : list Z) :
  0 < max ->
  ColumnReader.max_definition_level (ColumnReader.descr_ r) = max ->
  ColumnReader.num_buffered_values_ r <> 0 ->
  ColumnReader.num_decoded_values_ r < ColumnReader.num_buffered_values_ r ->
  ColumnReader.current_decoder_ r = Some key ->
  ColumnReader.decoders_ r !! key
  = Some (ColumnReader.PlainDecoder values_left) ->
  ColumnReader.definition_level_decoder_ r = levels_left ->
  let m := Z.min batch_size
             (ColumnReader.num_buffered_values_ r
              - ColumnReader.num_decoded_values_ r) in
  let ls := take (Z.to_nat m) levels_left in
  let levels' :=
    {| ColumnReader.arr :=
         Mem.write_at (ColumnReader.arr p) (ColumnReader.off p) ls;
       ColumnReader.off := ColumnReader.off p |} in
  let c := ColumnReader.count_present levels' (Z.of_nat (length ls)) max in
  0 <= c < 2 ^ 31 ->
  let vs := take (Z.to_nat c) values_left in
  exists b,
    ColumnReader.ReadBatch batch_size (Some p) None vals r = inr b /\
    ColumnReader.total_values b
    = Z.max (Z.of_nat (length ls)) (Z.of_nat (length vs)) /\
    ColumnReader.values_read b = Z.of_nat (length vs) /\
    ColumnReader.def_levels b = Some levels' /\
    ColumnReader.arr (ColumnReader.values b)
    = Mem.write_at (ColumnReader.arr vals) (ColumnReader.off vals) vs /\
    ColumnReader.descr_ (ColumnReader.reader b) = ColumnReader.descr_ r /\
    ColumnReader.pager_ (ColumnReader.reader b) = ColumnReader.pager_ r /\
    ColumnReader.num_buffered_values_ (ColumnReader.reader b)
    = ColumnReader.num_buffered_values_ r /\
    ColumnReader.num_decoded_values_ (ColumnReader.reader b)
    = ColumnReader.num_decoded_values_ r
      + Z.max (Z.of_nat (length ls)) (Z.of_nat (length vs)) /\
    ColumnReader.current_decoder_ (ColumnReader.reader b) = Some key /\
    ColumnReader.decoders_ (ColumnReader.reader b) !! key
    = Some (ColumnReader.PlainDecoder (drop (Z.to_nat c) values_left)) /\
    ColumnReader.definition_level_decoder_ (ColumnReader.reader b)
    = drop (Z.to_nat m) levels_left.
Proof.
  intros Hmax Hdescr Hbuf Hdec Hkey Hcache Hlevels m ls levels' c Hc vs.
  unfold ColumnReader.ReadBatch.
  rewrite HasNext_mid_page by lia. fold m.
  rewrite Hdescr.
  destruct (Z.ltb_spec 0 max); [|lia].
  unfold ColumnReader.ReadDefinitionLevels. rewrite Hdescr.
  destruct (Z.eqb_spec max 0); [lia|].
  rewrite Hlevels. fold ls. fold levels'. fold c.
  unfold ColumnReader._ReadValues.
  cbn [ColumnReader.current_decoder_ ColumnReader.decoders_].
  rewrite Hkey, Hcache. rewrite int32_small by lia.
  cbn [ColumnReader.Decode]. fold vs.
  eexists. split; [reflexivity|].
  cbn [ColumnReader.total_values ColumnReader.values_read
       ColumnReader.def_levels ColumnReader.values ColumnReader.arr
       ColumnReader.reader ColumnReader.ConsumeBufferedValues
       ColumnReader.descr_ ColumnReader.pager_
       ColumnReader.num_buffered_values_ ColumnReader.num_decoded_values_
       ColumnReader.current_decoder_ ColumnReader.decoders_
       ColumnReader.definition_level_decoder_].
  repeat (split; [reflexivity|]).
  split; [apply lookup_insert_eq|reflexivity].
Qed.

Lemma take_add_split (l : list Z) (a b : nat) :
  take (a + b) l = take a l ++ take b (drop a l).
Proof.
  rewrite take_drop_commute.
  rewrite <- (take_drop a (take (a + b) l)) at 1.
  rewrite take_take. replace (a `min` (a + b))%nat with a by lia.
  reflexivity.
Qed.

Section SinglePageFacts.

Variables (max n : Z) (L V : list Z).
Hypothesis Hmax : 0 < max.
Hypothesis Hn : 0 < n < 2 ^ 31.
Hypothesis HL : Z.of_nat (length L) = n.
Hypothesis HV : length V = SinglePage.present max L.
Hypothesis Hall : Forall (fun level => level <= max) L.

Lemma present_split (a b : nat) :
  SinglePage.present max (take (a + b) L)
  = (SinglePage.present max (take a L)
     + SinglePage.present max (take b (drop a L)))%nat.
Proof.
  unfold SinglePage.present. rewrite take_add_split, filter_app, length_app.
  reflexivity.
Qed.

Lemma present_le (l : list Z) : (SinglePage.present max l <= length l)%nat.
Proof. apply length_filter. Qed.

Lemma present_take_le (a : nat) :
  (SinglePage.present max (take a L) <= length V)%nat.
Proof.
  rewrite HV. rewrite <- (take_drop a L) at 2.
  unfold SinglePage.present. rewrite filter_app, length_app. lia.
Qed.

(** One turn of the loop in the middle of the page. *)
Lemma ToGdfColumn_loop_turn (fuel rows : nat) (s : ColumnReader.loop_state) :
  SinglePage.reading max n L V rows s ->
  Z.of_nat rows < n ->
  n <= Z.of_nat (length (ColumnReader.loop_definition_levels s)) ->
  n <= Z.of_nat (length (ColumnReader.loop_values s)) ->
  exists s' rows',
    ColumnReader.ToGdfColumn_loop (S fuel) (Z.min 8 n) s
    = ColumnReader.ToGdfColumn_loop fuel (Z.min 8 n) s' /\
    SinglePage.reading max n L V rows' s' /\
    (rows < rows')%nat /\ Z.of_nat rows' <= n /\
    length (ColumnReader.loop_definition_levels s')
    = length (ColumnReader.loop_definition_levels s) /\
    length (ColumnReader.loop_values s')
    = length (ColumnReader.loop_values s) /\
    length (ColumnReader.h_valid_bits s')
    = length (ColumnReader.h_valid_bits s).
Proof.
  unfold SinglePage.reading. cbv zeta.
  intros (Hrt & Hvrc & Hdescr & Hpager & Hbuf & Hdec & (key & Hkey & Hcache)
          & Hdl & Hlev & Hval) Hrows Hlenl Hlenv.
  set (dense := SinglePage.present max (take rows L)) in *.
  set (m := Z.to_nat (Z.min (Z.min 8 n) (n - Z.of_nat rows))).
  assert (Hm : (0 < m)%nat /\ (rows + m <= length L)%nat) by (unfold m; lia).
  set (ls := take m (drop rows L)).
  assert (Hls : length ls = m).
  { unfold ls. rewrite length_take, length_drop. lia. }
  set (c := SinglePage.present max ls).
  assert (Hc : (c <= m)%nat).
  { unfold c. rewrite <- Hls. apply present_le. }
  assert (Hdense' : SinglePage.present max (take (rows + m) L)
                    = (dense + c)%nat) by apply present_split.
  pose proof (present_take_le (rows + m)) as Hroom. rewrite Hdense' in Hroom.
  pose proof (present_le (take rows L)) as Hdense_le.
  rewrite length_take in Hdense_le. fold dense in Hdense_le.
  set (vs := take c (drop dense V)).
  assert (Hvs : length vs = c).
  { unfold vs. rewrite length_take, length_drop. lia. }
  cbn [ColumnReader.ToGdfColumn_loop].
  rewrite HasNext_mid_page by lia.
  pose proof (ReadBatch_plain_step (Z.min 8 n) max
              {| ColumnReader.arr := ColumnReader.loop_definition_levels s;
                 ColumnReader.off := ColumnReader.rows_read_total s |}
              {| ColumnReader.arr := ColumnReader.loop_values s;
                 ColumnReader.off := ColumnReader.values_read_counter s |}
              (ColumnReader.loop_reader s) key (drop rows L) (drop dense V)
              Hmax Hdescr ltac:(lia) ltac:(lia) Hkey Hcache Hdl) as Hstep.
  cbv zeta in Hstep.
  cbn [ColumnReader.arr ColumnReader.off] in Hstep.
  rewrite Hbuf, Hdec, Hrt, Hvrc in Hstep.
  change (Z.to_nat ((8 `min` n) `min` (n - Z.of_nat rows))) with m in Hstep.
  change (take m (drop rows L)) with ls in Hstep.
  assert (Hcount : ColumnReader.count_present
            {| ColumnReader.arr :=
                 Mem.write_at (ColumnReader.loop_definition_levels s)
                   (Z.of_nat rows) ls;
               ColumnReader.off := Z.of_nat rows |}
            (Z.of_nat (length ls)) max = Z.of_nat c).
  { apply count_present_written. lia. }
  rewrite Hcount in Hstep. rewrite Nat2Z.id in Hstep.
  change (take c (drop dense V)) with vs in Hstep.
  rewrite Hvs, Hls in Hstep.
  destruct Hstep as (b & Hb & Htotal & Hvr & Hdef & Harr & Hd' & Hp' & Hb'
                     & Hdec' & Hkey' & Hcache' & Hdl'); [lia|].
  rewrite Hrt, Hvrc, Hb, Hdef, Hd', Hdescr, Htotal, Hvr.
  cbn [ColumnReader.arr].
  replace (Z.max (Z.of_nat m) (Z.of_nat c)) with (Z.of_nat m) in * by lia.
  unfold Levels._DefinitionLevelsToBitmap'. rewrite !Nat2Z.id.
  assert (Hwritten : take m (drop rows
                       (Mem.write_at (ColumnReader.loop_definition_levels s)
                          (Z.of_nat rows) ls)) = ls).
  { unfold Mem.write_at. destruct (Z.ltb_spec (Z.of_nat rows) 0); [lia|].
    rewrite Nat2Z.id. rewrite <- Hls at 1. apply store_take_drop. lia. }
  rewrite Hwritten.
  assert (Hlsall : Forall (fun level => level <= max) ls).
  { unfold ls. apply Forall_take, Forall_drop, Hall. }
  destruct (DefinitionLevelsToBitmap'_loop_spec ls max
              (BitmapWriter.new (ColumnReader.h_valid_bits s)
                 (Z.of_nat rows) (Z.of_nat m))
              (ColumnReader.loop_null_count s) Hlsall)
    as (w' & Hrun & _ & _ & Hlenw & _); [cbn; lia|].
  rewrite Hrun.
  eexists _, (rows + m)%nat. split; [reflexivity|].
  cbn [ColumnReader.loop_definition_levels ColumnReader.loop_values
       ColumnReader.h_valid_bits Levels.valid_bits].
  split.
  { unfold SinglePage.reading.
    cbn [ColumnReader.rows_read_total ColumnReader.values_read_counter
         ColumnReader.loop_reader ColumnReader.loop_definition_levels
         ColumnReader.loop_values Levels.values_read].
    rewrite Hdense'.
    split; [lia|]. split; [lia|]. split; [rewrite Hd'; exact Hdescr|].
    split; [rewrite Hp'; exact Hpager|]. split; [exact Hb'|].
    split; [rewrite Hdec'; lia|].
    split.
    { exists key. split; [exact Hkey'|]. rewrite Hcache'.
      rewrite drop_drop. reflexivity. }
    split; [rewrite Hdl', drop_drop; reflexivity|].
    split.
    - unfold Mem.write_at. destruct (Z.ltb_spec (Z.of_nat rows) 0); [lia|].
      rewrite Nat2Z.id. rewrite <- Hls.
      apply store_extends_prefix; rewrite ?Hls; try lia; try assumption.
      reflexivity.
    - rewrite Harr. unfold Mem.write_at.
      destruct (Z.ltb_spec (Z.of_nat dense) 0); [lia|].
      rewrite Nat2Z.id. rewrite <- Hvs.
      apply store_extends_prefix; rewrite ?Hvs; try lia; try assumption.
      reflexivity. }
  split; [lia|]. split; [lia|].
  split; [apply write_at_length|].
  split; [rewrite Harr; apply write_at_length|].
  exact Hlenw.
Qed.

(** At the end of the page, with no page left, the loop stops. *)
Lemma ToGdfColumn_loop_end (fuel : nat) (s : ColumnReader.loop_state) :
  SinglePage.reading max n L V (Z.to_nat n) s ->
  exists sf,
    ColumnReader.ToGdfColumn_loop (S fuel) (Z.min 8 n) s = Some (inr sf) /\
    SinglePage.reading max n L V (Z.to_nat n) sf /\
    ColumnReader.loop_definition_levels sf
    = ColumnReader.loop_definition_levels s /\
    ColumnReader.loop_values sf = ColumnReader.loop_values s /\
    ColumnReader.h_valid_bits sf = ColumnReader.h_valid_bits s.
Proof.
  unfold SinglePage.reading. cbv zeta.
  intros (Hrt & Hvrc & Hdescr & Hpager & Hbuf & Hdec & Hkey
          & Hdl & Hlev & Hval).
  cbn [ColumnReader.ToGdfColumn_loop].
  unfold ColumnReader.HasNext, ColumnReader.ReadNewPage.
  rewrite Hpager. cbn [ColumnReader.ReadNewPage_from].
  rewrite Hbuf, Hdec.
  destruct (Z.eqb_spec n 0); [lia|].
  destruct (Z.eqb_spec (Z.of_nat (Z.to_nat n)) n); [|lia].
  cbn [orb negb].
  eexists. split; [reflexivity|]. cbn. auto 12.
Qed.

(** The loop reads the page to its end and stops. *)
Lemma ToGdfColumn_loop_run (fuel rows : nat) (s : ColumnReader.loop_state) :
  SinglePage.reading max n L V rows s ->
  Z.of_nat rows <= n ->
  n <= Z.of_nat (length (ColumnReader.loop_definition_levels s)) ->
  n <= Z.of_nat (length (ColumnReader.loop_values s)) ->
  (Z.to_nat n - rows < fuel)%nat ->
  exists sf,
    ColumnReader.ToGdfColumn_loop fuel (Z.min 8 n) s = Some (inr sf) /\
    SinglePage.reading max n L V (Z.to_nat n) sf /\
    length (ColumnReader.loop_definition_levels sf)
    = length (ColumnReader.loop_definition_levels s) /\
    length (ColumnReader.loop_values sf)
    = length (ColumnReader.loop_values s) /\
    length (ColumnReader.h_valid_bits sf)
    = length (ColumnReader.h_valid_bits s).
Proof.
  revert rows s.
  induction fuel as [|fuel IH]; intros rows s Hinv Hrows Hlenl Hlenv Hfuel;
    [lia|].
  destruct (decide (Z.of_nat rows = n)) as [Hend|Hmid].
  - replace rows with (Z.to_nat n) in Hinv by lia.
    destruct (ToGdfColumn_loop_end fuel s Hinv)
      as (sf & Hrun & Hinv' & Hf1 & Hf2 & Hf3).
    exists sf. rewrite Hf1, Hf2, Hf3. auto.
  - destruct (ToGdfColumn_loop_turn fuel rows s Hinv ltac:(lia) Hlenl Hlenv)
      as (s' & rows' & Hrun & Hinv' & Hlt & Hle & Hl1 & Hl2 & Hl3).
    rewrite Hrun.
    destruct (IH rows' s' Hinv' Hle ltac:(lia) ltac:(lia) ltac:(lia))
      as (sf & Hrun' & Hinvf & Hf1 & Hf2 & Hf3).
    exists sf. split; [exact Hrun'|]. split; [exact Hinvf|].
    repeat split; congruence.
Qed.

End SinglePageFacts.

Lemma filter_all_length (max : Z) (l : list Z) :
  SinglePage.present max l = length l -> Forall (fun level => level = max) l.
Proof.
  unfold SinglePage.present.
  induction l as [|x l IH]; intros Hlen; [constructor|].
  rewrite filter_cons in Hlen.
  pose proof (length_filter (fun level => level = max) l) as Hle.
  destruct (decide (x = max)) as [->|Hne]; cbn in Hlen.
  - constructor; [reflexivity|]. apply IH. lia.
  - lia.
Qed.

Lemma present_all (max : Z) (l : list Z) :
  Forall (fun level => level = max) l -> SinglePage.present max l = length l.
Proof.
  unfold SinglePage.present. induction 1 as [|x l Hx _ IH]; [reflexivity|].
  rewrite filter_cons, decide_True by exact Hx. cbn. lia.
Qed.

Lemma present_take_lt (max : Z) (l : list Z) (i : nat) :
  l !! i = Some max ->
  (SinglePage.present max (take i l) < SinglePage.present max l)%nat.
Proof.
  intros Hi. rewrite <- (take_drop i l) at 2.
  rewrite (drop_S _ _ _ Hi). unfold SinglePage.present.
  rewrite filter_app, length_app, filter_cons, decide_True by reflexivity.
  cbn. lia.
Qed.

Lemma GetBit_written (valid bits : list Z) (i : Z) :
  0 <= i < 8 * Z.of_nat (length bits) ->
  (length bits <= length valid)%nat ->
  BitmapWriter.GetBit (Mem.write_at valid 0 bits) i
  = BitmapWriter.GetBit bits i.
Proof.
  intros Hi Hlen. unfold BitmapWriter.GetBit, Mem.write_at.
  cbn [Z.ltb Z.compare Z.to_nat].
  assert (Hbyte : 0 <= i / 8 < Z.of_nat (length bits))
    by (split; [apply Z.div_pos; lia|apply Z.div_lt_upper_bound; lia]).
  rewrite store_lookup_in by lia.
  rewrite Nat.sub_0_r. reflexivity.
Qed.

(** Property X24.  A column chunk that is one data page of plain values:
    after the first [HasNext], [ToGdfColumn] reads the whole page and
    returns.  It answers the number of rows of the page; the caller's level
    array holds the levels of the page; the row of each level at the
    maximum holds the value of the page that belongs to it, the [k]-th
    value for the [k]-th such row; and the bit of each row in the mask is
    set exactly when its level is the maximum. *)
Theorem ToGdfColumn_single_plain_page (fuel : nat) (max max_rep n : Z)
    (reps L V definition_levels uninit : list Z)
    (column : ColumnReader.gdf_column) :
  let page :=
    ColumnReader.mkPage ColumnReader.DATA_PAGE ColumnReader.PLAIN n
      reps L V in
  let descr := ColumnReader.mkDescr max max_rep in
  0 < max -> 0 < n < 2 ^ 31 ->
  Z.of_nat (length L) = n ->
  Forall (fun level => level <= max) L ->
  length V = SinglePage.present max L ->
  n <= Z.of_nat (length definition_levels) ->
  n <= Z.of_nat (length (ColumnReader.column_data column)) ->
  n <= 8 * Z.of_nat (length (ColumnReader.column_valid column)) ->
  (Z.to_nat n < fuel)%nat ->
  exists r res,
    ColumnReader.HasNext (ColumnReader.new descr [page]) = inr (true, r) /\
    ColumnReader.ToGdfColumn fuel definition_levels column uninit r
    = Some (inr res) /\
    ColumnReader.rows_read res = n /\
    take (length L) (ColumnReader.out_definition_levels res) = L /\
    (forall (i k : nat) (value : Z),
       L !! i = Some max ->
       k = SinglePage.present max (take i L) ->
       V !! k = Some value ->
       ColumnReader.column_data (ColumnReader.out_column res) !! i
       = Some value) /\
    (forall i : nat,
       (i < length L)%nat ->
       BitmapWriter.GetBit
         (ColumnReader.column_valid (ColumnReader.out_column res))
         (Z.of_nat i)
       = bool_decide (L !! i = Some max)).
Proof.
  intros page descr Hmax Hn HL Hall HV Hlevels Hdata Hvalid Hfuel.
  set (r1 :=
    {| ColumnReader.descr_ := descr; ColumnReader.pager_ := [];
       ColumnReader.current_page_ := Some page;
       ColumnReader.num_buffered_values_ := n;
       ColumnReader.num_decoded_values_ := 0;
       ColumnReader.decoders_ :=
         <[ColumnReader.encoding_int ColumnReader.PLAIN :=
             ColumnReader.PlainDecoder (take (Z.to_nat n) V)]> ∅;
       ColumnReader.current_decoder_ :=
         Some (ColumnReader.encoding_int ColumnReader.PLAIN);
       ColumnReader.definition_level_decoder_ := take (Z.to_nat n) L;
       ColumnReader.repetition_level_decoder_ :=
         if 0 <? max_rep then take (Z.to_nat n) reps else [] |}).
  assert (Hnext : ColumnReader.HasNext (ColumnReader.new descr [page])
                  = inr (true, r1)).
  { unfold ColumnReader.HasNext, ColumnReader.ReadNewPage, ColumnReader.new.
    cbn.
    change (ColumnReader._IsDictionaryIndexEncoding ColumnReader.PLAIN)
      with false.
    cbv iota. rewrite lookup_empty.
    destruct (Z.ltb_spec 0 max); [|lia].
    cbn.
    destruct (Z.eqb_spec n 0); [lia|]. reflexivity. }
  exists r1.
  set (s0 := ColumnReader.ToGdfColumn_init definition_levels column uninit r1).
  pose proof (present_le max L) as HVlen. rewrite <- HV in HVlen.
  assert (Hinv0 : SinglePage.reading max n L V 0 s0).
  { unfold SinglePage.reading. cbn.
    repeat split.
    - eexists. split; [reflexivity|]. rewrite lookup_insert_eq.
      rewrite (take_ge V) by lia. reflexivity.
    - change (drop 0 L) with L. apply take_ge. lia. }
  edestruct (ToGdfColumn_loop_run max n L V) with (fuel := fuel)
    (rows := 0%nat) (s := s0) as (sf & Hrun & Hinvf & Hl1 & Hl2 & Hl3);
    try eassumption; try (cbn; lia).
  destruct (ToGdfColumn_loop_mask fuel (Z.min 8 n) max s0 sf Hrun)
    as (Hmask & _ & _); [reflexivity|cbn; lia| |].
  { intros i Hi. cbn in Hi. lia. }
  unfold SinglePage.reading in Hinvf. cbv zeta in Hinvf.
  destruct Hinvf as (Hrt & Hvrc & Hdescr & _ & _ & _ & _ & _ & Hlev & Hval).
  replace (Z.to_nat n) with (length L) in * by lia.
  rewrite (take_ge L) in Hvrc, Hlev, Hval by lia.
  rewrite <- HV in Hvrc, Hval. rewrite (take_ge V) in Hval by lia.
  unfold ColumnReader.ToGdfColumn.
  assert (Hv : ColumnReader.ToGdfColumn_values_to_read r1 = Z.min 8 n).
  { unfold ColumnReader.ToGdfColumn_values_to_read. cbn.
    rewrite Z.sub_0_r. unfold Ints.uint64, Ints.wrap_unsigned.
    rewrite Z.mod_small by lia. reflexivity. }
  rewrite Hv. fold s0. rewrite Hrun.
  eexists. split; [exact Hnext|]. split; [reflexivity|].
  cbn [ColumnReader.rows_read ColumnReader.out_definition_levels
       ColumnReader.out_column ColumnReader.column_data
       ColumnReader.column_valid].
  split; [lia|]. split; [exact Hlev|].
  assert (Hdense : forall k value, V !! k = Some value ->
            ColumnReader.loop_values sf !! k = Some value).
  { intros k value Hk. rewrite <- Hval in Hk.
    apply lookup_take_Some in Hk. apply Hk. }
  split.
  - intros i k value Hi -> Hk.
    pose proof (lookup_lt_Some _ _ _ Hi) as Hilt.
    destruct (Z.eqb_spec (ColumnReader.rows_read_total sf)
                (ColumnReader.values_read_counter sf)) as [Heq|Hne].
    + assert (Hfull : Forall (fun level => level = max) L)
        by (apply filter_all_length; lia).
      rewrite present_all in Hk by (apply Forall_take, Hfull).
      rewrite length_take in Hk.
      replace (i `min` length L)%nat with i in Hk by lia.
      apply Hdense, Hk.
    + destruct (compact_to_sparse_for_nulls_spec
                  (take (Z.to_nat (ColumnReader.rows_read_total sf))
                     (ColumnReader.loop_values sf))
                  (ColumnReader.loop_values sf)
                  (take (Z.to_nat (ColumnReader.rows_read_total sf))
                     (ColumnReader.loop_definition_levels sf))
                  (ColumnReader.max_definition_level
                     (ColumnReader.descr_ (ColumnReader.loop_reader sf)))
                  (ColumnReader.rows_read_total sf)) as (_ & Hrow & _).
      rewrite Hrt, Nat2Z.id, Hlev, Hdescr in Hrow |- *.
      pose proof (lookup_lt_Some _ _ _ Hk) as Hklt.
      apply (Hrow i (SinglePage.present max (take i L)) value);
        try lia; try assumption; try reflexivity.
      * rewrite lookup_take_lt by lia. apply Hdense, Hk.
      * rewrite Hl2. cbn. lia.
  - intros i Hi.
    set (nb := ColumnReader.get_number_of_bytes_for_valid
                 (ColumnReader.num_buffered_values_ r1)) in *.
    assert (Hnb : 0 <= nb /\ n <= 8 * nb
                  /\ nb <= Z.of_nat (length (ColumnReader.column_valid column))).
    { unfold nb. cbn [ColumnReader.num_buffered_values_ r1].
      rewrite get_number_of_bytes_for_valid_small by lia.
      unfold ColumnReader.GDF_VALID_BITSIZE.
      pose proof (Z.div_mod (1 * (n + 8 - 1)) 8 ltac:(lia)) as Hdm.
      pose proof (Z.mod_pos_bound (1 * (n + 8 - 1)) 8 ltac:(lia)) as Hmod.
      lia. }
    assert (Hlenb : length (ColumnReader.h_valid_bits sf) = Z.to_nat nb).
    { rewrite Hl3. unfold s0, ColumnReader.ToGdfColumn_init.
      cbn [ColumnReader.h_valid_bits]. apply length_resize. }
    rewrite take_ge by lia.
    rewrite GetBit_written by lia.
    rewrite Hmask by (cbn in Hl1; lia).
    rewrite <- (lookup_take_lt (ColumnReader.loop_definition_levels sf)
                  (length L) i Hi), Hlev.
    reflexivity.
Qed.

(** The page of levels [1,0,1] and values [5,7]. *)
Lemma ToGdfColumn_single_plain_page_witness :
  let page :=
    ColumnReader.mkPage ColumnReader.DATA_PAGE ColumnReader.PLAIN 3
      [] [1; 0; 1] [5; 7] in
  (0 < 1 /\ 0 < 3 < 2 ^ 31 /\ Z.of_nat (length [1; 0; 1]) = 3 /\
   Forall (fun level => level <= 1) [1; 0; 1] /\
   length [5; 7] = SinglePage.present 1 [1; 0; 1]) /\
  exists r res,
    ColumnReader.HasNext (ColumnReader.new (ColumnReader.mkDescr 1 0) [page])
    = inr (true, r) /\
    ColumnReader.ToGdfColumn 4 [0; 0; 0]
      (ColumnReader.mkColumn [0; 0; 0] [0]) [0] r = Some (inr res) /\
    ColumnReader.rows_read res = 3 /\
    ColumnReader.column_data (ColumnReader.out_column res) !! 2%nat = Some 7.
Proof.
  intros page.
  assert (H1 : 0 < 1) by lia.
  assert (H2 : 0 < 3 < 2 ^ 31) by lia.
  assert (H3 : Z.of_nat (length [1; 0; 1]) = 3) by reflexivity.
  assert (H4 : Forall (fun level => level <= 1) [1; 0; 1])
    by (repeat constructor; lia).
  assert (H5 : length [5; 7] = SinglePage.present 1 [1; 0; 1])
    by reflexivity.
  split; [auto|].
  destruct (ToGdfColumn_single_plain_page 4 1 0 3 [] [1; 0; 1] [5; 7]
              [0; 0; 0] [0] (ColumnReader.mkColumn [0; 0; 0] [0])
              H1 H2 H3 H4 H5 ltac:(cbn; lia) ltac:(cbn; lia)
              ltac:(cbn; lia) ltac:(lia))
    as (r & res & Hnext & Hrun & Hrows & _ & Hdata & _).
  exists r, res. split; [exact Hnext|]. split; [exact Hrun|].
  split; [exact Hrows|].
  exact (Hdata 2%nat 1%nat 7 eq_refl eq_refl eq_refl).
Defined.
